(** * OpenAlice release-gate engine: a shallow embedding of the gate scripts

    The development follows the Python sources under [scripts/]:
    [gate_runner.py] (supervisor and verdict deriver), [runner_guard.py]
    (circuit breaker), [attestation.py], [replay_runtime_state.py],
    [migration_compare.py] and [stress_metrics.py].

    Conventions of the embedding.
    - Python [str] is [string]; case mapping and whitespace stripping are
      the ASCII ones ([str.lower], [str.upper] and [str.strip] agree with
      them on ASCII text).
    - Python [set] is [gset string]; a parsed JSON document is [json], a
      JSON object being an association list read with [get] (the
      [dict.get] of the sources).
    - Python [float] is idealised as exact rationals [Q].
    - A raised exception is an explicit constructor of the result type. *)

From Stdlib Require Import ZArith QArith Qabs Qminmax Lia Ascii String.
From stdpp Require Import base decidable list strings gmap.

Local Open Scope string_scope.
Local Open Scope list_scope.

(** ** Parsed JSON values *)

#[local] Set Warnings "-register-all,-clear-no-such-hyp".

Inductive json : Type :=
| JNull
| JBool (b : bool)
| JInt (z : Z)
| JFloat (q : Q)
| JStr (s : string)
| JList (items : list json)
| JObj (fields : list (string * json)).

(** [payload.get(key)]: [None] when the key is absent. *)
Fixpoint get (key : string) (fields : list (string * json)) : option json :=
  match fields with
  | [] => None
  | (k, v) :: rest => if String.eqb k key then Some v else get key rest
  end.

(** [isinstance(value, str)], keeping the string. *)
Definition as_str (v : option json) : option string :=
  match v with Some (JStr s) => Some s | _ => None end.

(** [isinstance(value, list)], keeping the items. *)
Definition as_list (v : option json) : option (list json) :=
  match v with Some (JList l) => Some l | _ => None end.

(** [isinstance(value, dict)], keeping the fields. *)
Definition as_dict (v : option json) : option (list (string * json)) :=
  match v with Some (JObj d) => Some d | _ => None end.

(** ** Python string helpers (ASCII) *)

Definition lower_ascii (c : ascii) : ascii :=
  let n := nat_of_ascii c in
  if (65 <=? n)%nat && (n <=? 90)%nat then ascii_of_nat (n + 32) else c.

Definition upper_ascii (c : ascii) : ascii :=
  let n := nat_of_ascii c in
  if (97 <=? n)%nat && (n <=? 122)%nat then ascii_of_nat (n - 32) else c.

Fixpoint map_string (f : ascii -> ascii) (s : string) : string :=
  match s with
  | EmptyString => EmptyString
  | String c rest => String (f c) (map_string f rest)
  end.

Definition lower (s : string) : string := map_string lower_ascii s.
Definition upper (s : string) : string := map_string upper_ascii s.

(** The ASCII characters for which [str.isspace] holds. *)
Definition is_space (c : ascii) : bool :=
  let n := nat_of_ascii c in
  ((9 <=? n)%nat && (n <=? 13)%nat) || ((28 <=? n)%nat && (n <=? 32)%nat).

Fixpoint lstrip (s : string) : string :=
  match s with
  | EmptyString => EmptyString
  | String c rest => if is_space c then lstrip rest else s
  end.

Fixpoint rstrip (s : string) : string :=
  match s with
  | EmptyString => EmptyString
  | String c rest =>
      match rstrip rest with
      | EmptyString => if is_space c then EmptyString else String c EmptyString
      | r => String c r
      end
  end.

Definition strip (s : string) : string := rstrip (lstrip s).

(** [needle in hay] on strings. *)
Fixpoint contains (needle hay : string) : bool :=
  String.prefix needle hay
  || match hay with
     | EmptyString => false
     | String _ rest => contains needle rest
     end.

(** ** [_dedup]: first occurrences, in order *)

Fixpoint dedup_into (out values : list string) : list string :=
  match values with
  | [] => out
  | value :: rest =>
      if bool_decide (value ∈ out) then dedup_into out rest
      else dedup_into (out ++ [value]) rest
  end.

Definition _dedup (values : list string) : list string := dedup_into [] values.

(** ** Verdict deriver ([gate_runner.py]) *)

Module Verdict.

Definition STATUS_PASS := "pass".
Definition STATUS_POLICY_FAIL := "policy_fail".
Definition STATUS_TOOL_ERROR := "tool_error".
Definition STATUS_SKIPPED := "skipped".

(** A checkpoint as [_build_checkpoint] produces it; only the fields
    the deriver reads are kept.  [attestation] is [Some] when the field
    holds a dict. *)
Record checkpoint : Type := Checkpoint {
  gate : string;
  attempt : nat;
  status : string;
  reasonCodes : list string;
  blockingIssues : list string;
  attestation : option (list (string * json))
}.

(** [profile["decision"]["allowed_outputs"]]: [Some l] when it is a
    list, the items given after [str(item)]. *)
Record decision_cfg : Type := DecisionCfg {
  allowed_outputs : option (list string)
}.

(** The source-fallback policy: [mode], and [archiveOnly.allowedOutputs]
    ([Some l] when [archiveOnly] is a dict whose [allowedOutputs] is a
    list, the items given after [str(item)]). *)
Record source_fallback_policy : Type := SourceFallbackPolicy {
  mode : option json;
  archive_allowed_outputs : option (list string)
}.

(** The fields of the verdict document that the deriver computes from
    the checkpoints (hashes, versions and the run id are copied from
    the run). *)
Record verdict : Type := VerdictDoc {
  result : string;
  v_reasonCodes : list string;
  v_blockingIssues : list string;
  attestationSummary : option (list (string * json))
}.

Definition blocked_codes : gset string :=
  {[ "HARD_SOURCE_HEALTH_FAIL"; "HARD_BUDGET_HARD_CAP_HIT";
     "HARD_GATE_RUNNER_SELF_HEALTH_FAIL" ]}.

(** The loop over the checkpoints. *)
Definition statuses_of (checkpoints : list checkpoint) : list string :=
  map status checkpoints.

Definition all_reasons_of (checkpoints : list checkpoint) : list string :=
  flat_map reasonCodes checkpoints.

Definition all_issues_of (checkpoints : list checkpoint) : list string :=
  flat_map blockingIssues checkpoints.

Definition attestation_of (checkpoints : list checkpoint)
  : option (list (string * json)) :=
  fold_left
    (fun acc cp =>
       if String.eqb (gate cp) "G4"
       then match attestation cp with Some a => Some a | None => acc end
       else acc)
    checkpoints None.

(** The canonical-set check that follows the aggregation. *)
Definition has_unknown (canonical_codes : gset string) (reasons : list string) : bool :=
  existsb (fun code => negb (bool_decide (code ∈ canonical_codes))) reasons.

Definition checked_reasons (canonical_codes : gset string)
    (checkpoints : list checkpoint) : list string :=
  let reasons := _dedup (all_reasons_of checkpoints) in
  if has_unknown canonical_codes reasons
  then _dedup (reasons ++ ["HARD_REASON_CODE_UNKNOWN"])
  else reasons.

Definition checked_issues (canonical_codes : gset string)
    (checkpoints : list checkpoint) : list string :=
  let issues := _dedup (all_issues_of checkpoints) in
  if has_unknown canonical_codes (_dedup (all_reasons_of checkpoints))
  then (issues ++ ["unknown reason code detected in checkpoints"])%list
  else issues.

(** The [if / elif / elif / else] that picks the result. *)
Definition pick_result (statuses reasons : list string) : string :=
  if existsb (String.eqb STATUS_TOOL_ERROR) statuses then
    "BLOCKED_WITH_RECOVERY_PLAN"
  else if existsb (String.eqb STATUS_POLICY_FAIL) statuses then
    if existsb (fun code => bool_decide (code ∈ blocked_codes)) reasons
    then "BLOCKED_WITH_RECOVERY_PLAN"
    else "NO_GO"
  else if forallb (fun s => String.eqb s STATUS_PASS || String.eqb s STATUS_SKIPPED)
                  statuses then
    "PAPER_ONLY_GO"
  else "NO_GO".

(** The result before the two overrides. *)
Definition base_result (canonical_codes : gset string)
    (checkpoints : list checkpoint) : string :=
  pick_result (statuses_of checkpoints) (checked_reasons canonical_codes checkpoints).

(** [decision.allowed_outputs] override, on (result, reasons, issues). *)
Definition apply_allowed_outputs (decision : decision_cfg)
    (st : string * list string * list string) : string * list string * list string :=
  let '(res, reasons, issues) := st in
  match allowed_outputs decision with
  | Some allowed =>
      if bool_decide (res ∈ allowed) then st
      else ("NO_GO",
            _dedup (reasons ++ ["HARD_RELEASE_GATE_BLOCKED"]),
            (issues ++ ["result not in decision.allowed_outputs"])%list)
  | None => st
  end.

(** [archive_only] override. *)
Definition apply_archive_only (policy : source_fallback_policy)
    (st : string * list string * list string) : string * list string * list string :=
  let '(res, reasons, issues) := st in
  match mode policy with
  | Some (JStr "archive_only") =>
      let allowed := default [] (archive_allowed_outputs policy) in
      if negb (bool_decide (allowed = [])) && negb (bool_decide (res ∈ allowed))
      then ("BLOCKED_WITH_RECOVERY_PLAN",
            _dedup (reasons ++ ["HARD_RELEASE_GATE_BLOCKED"]),
            (issues ++ ["archive_only forbids this verdict"])%list)
      else st
  | _ => st
  end.

Definition _derive_verdict (checkpoints : list checkpoint) (decision : decision_cfg)
    (policy : source_fallback_policy) (canonical_codes : gset string) : verdict :=
  let st0 := (base_result canonical_codes checkpoints,
              checked_reasons canonical_codes checkpoints,
              checked_issues canonical_codes checkpoints) in
  let '(res, reasons, issues) :=
    apply_archive_only policy (apply_allowed_outputs decision st0) in
  {| result := res;
     v_reasonCodes := reasons;
     v_blockingIssues := issues;
     attestationSummary := attestation_of checkpoints |}.

(** [_exit_code_from_verdict] *)
Definition _exit_code_from_verdict (res : string) : Z :=
  if String.eqb res "PAPER_ONLY_GO" then 0
  else if String.eqb res "NO_GO" || String.eqb res "BLOCKED_WITH_RECOVERY_PLAN" then 2
  else 3.

End Verdict.

(** ** Gate supervisor: retries ([gate_runner.py]) *)

Module Retry.

Definition STATUS_PASS := "pass".
Definition STATUS_TOOL_ERROR := "tool_error".

(** What the [try] block of the loop meets: [Returned outcome] when
    [gate_fn] returns a dict and the conversions of its [reasonCodes] and
    [blockingIssues] succeed, [RaisedTimeout] on [TimeoutError],
    [RaisedOther] on any other exception raised in the block. *)
Inductive attempt_result : Type :=
| Returned (outcome : list (string * json))
| RaisedTimeout
| RaisedOther.

(** What the loop does, in order: the checkpoint of an attempt is written
    and appended to the history, and the supervisor may sleep. *)
Inductive event : Type :=
| Wrote (attempt : nat) (status : string)
| Slept (seconds : Z).

(** [isinstance(raw, int) and raw >= 0], else 0.  A Python [bool] is an
    [int]. *)
Definition nonneg_int_or_zero (raw : option json) : Z :=
  match raw with
  | Some (JInt z) => if (0 <=? z)%Z then z else 0%Z
  | Some (JBool b) => if b then 1%Z else 0%Z
  | _ => 0%Z
  end.

Definition _gate_retry_cfg (profile : list (string * json)) (gate : string) : Z * Z :=
  match as_dict (get "retries" profile) with
  | None => (0%Z, 0%Z)
  | Some retries =>
      match as_dict (get gate retries) with
      | None => (0%Z, 0%Z)
      | Some gate_cfg =>
          (nonneg_int_or_zero (get "max_attempts" gate_cfg),
           nonneg_int_or_zero (get "interval_seconds" gate_cfg))
      end
  end.

Section WithStr.

(** Python's [str] on a value that is not a string. *)
Variable str_other : json -> string.

Definition py_str (v : json) : string :=
  match v with JStr s => s | _ => str_other v end.

Definition retry_statuses_of (profile : list (string * json)) : list string :=
  match as_list (get "retry_on_status" profile) with
  | Some retry_on => map py_str retry_on
  | None => [STATUS_TOOL_ERROR]
  end.

(** The status the [try / except] leaves for the checkpoint. *)
Definition attempt_status (r : attempt_result) : string :=
  match r with
  | Returned outcome => py_str (default (JStr STATUS_TOOL_ERROR) (get "status" outcome))
  | RaisedTimeout => STATUS_TOOL_ERROR
  | RaisedOther => STATUS_TOOL_ERROR
  end.

(** The body of [for attempt in range(1, total_attempts + 1)]. *)
Fixpoint attempts_loop (retry_statuses : list string) (total_attempts : nat)
    (retry_interval_seconds : Z) (gate_fn : nat -> attempt_result)
    (attempts : list nat) : list event :=
  match attempts with
  | [] => []
  | attempt :: rest =>
      let status := attempt_status (gate_fn attempt) in
      Wrote attempt status ::
        (if String.eqb status STATUS_PASS then []
         else
           let should_retry :=
             bool_decide (status ∈ retry_statuses) && (attempt <? total_attempts)%nat in
           if negb should_retry then []
           else
             (if (0 <? retry_interval_seconds)%Z then [Slept retry_interval_seconds] else [])
             ++ attempts_loop retry_statuses total_attempts retry_interval_seconds
                  gate_fn rest)%list
  end.

Definition total_attempts_of (profile : list (string * json)) (gate : string) : nat :=
  (1 + Z.to_nat (fst (_gate_retry_cfg profile gate)))%nat.

Definition _run_gate_with_retry (profile : list (string * json)) (gate : string)
    (gate_fn : nat -> attempt_result) : list event :=
  let retry_statuses := retry_statuses_of profile in
  let '(max_retries, retry_interval_seconds) := _gate_retry_cfg profile gate in
  let total_attempts := (1 + Z.to_nat max_retries)%nat in
  attempts_loop retry_statuses total_attempts retry_interval_seconds gate_fn
    (seq 1 total_attempts).

(** The statuses of the attempts made, in order. *)
Definition attempt_statuses (trace : list event) : list string :=
  omap (fun e => match e with Wrote _ s => Some s | Slept _ => None end) trace.

(** The checkpoint the function returns: the last one written. *)
Definition last_status (trace : list event) : option string :=
  last (attempt_statuses trace).

End WithStr.

End Retry.

(** ** Runner guard ([runner_guard.py]) and its use by the supervisor *)

Module RunnerGuard.

Local Open Scope Q_scope.

Definition STATE_CLOSED := "closed".
Definition STATE_OPEN := "open".
Definition STATE_HALF_OPEN := "half_open".

(** [a > b] on numbers. *)
Definition Qgtb (a b : Q) : bool := negb (Qle_bool a b).

Record rates : Type := Rates {
  total : Q;
  failRate : Q;
  timeoutRate : Q;
  retryStormRate : Q
}.

(** [status in ("tool_error", "policy_fail")] *)
Definition status_is_fail (row : list (string * json)) : bool :=
  match get "status" row with
  | Some (JStr s) => String.eqb s "tool_error" || String.eqb s "policy_fail"
  | _ => false
  end.

(** Body of [for issue in issues], on (timeout_count, retry_storm_count). *)
Definition issue_step (acc : Q * Q) (issue : json) : Q * Q :=
  match issue with
  | JStr s =>
      let low := lower s in
      let timeout_count := if contains "timeout" low then fst acc + 1 else fst acc in
      let retry_storm_count :=
        if contains "retry storm" low then snd acc + 1 else snd acc in
      (timeout_count, retry_storm_count)
  | _ => acc
  end.

(** Body of [for row in history], on the three counters. *)
Definition row_step (acc : Q * Q * Q) (row : list (string * json)) : Q * Q * Q :=
  let '(fail_count, timeout_count, retry_storm_count) := acc in
  let fail_count := if status_is_fail row then fail_count + 1 else fail_count in
  match as_list (get "blockingIssues" row) with
  | Some issues =>
      let '(t, r) := fold_left issue_step issues (timeout_count, retry_storm_count) in
      (fail_count, t, r)
  | None => (fail_count, timeout_count, retry_storm_count)
  end.

Definition compute_rates (history : list (list (string * json))) : rates :=
  let total := inject_Z (Z.of_nat (length history)) in
  if Qeq_bool total 0 then
    {| total := 0; failRate := 0; timeoutRate := 0; retryStormRate := 0 |}
  else
    let '(fail_count, timeout_count, retry_storm_count) :=
      fold_left row_step history (0, 0, 0) in
    {| total := total;
       failRate := fail_count / total;
       timeoutRate := timeout_count / total;
       retryStormRate := retry_storm_count / total |}.

(** The guard policy: [mode] (a string when present) and the numeric
    thresholds ([thresholds] is [None] when the key is absent or not a
    dict). *)
Record thresholds_cfg : Type := Thresholds {
  failRateMax : option Q;
  timeoutRateMax : option Q;
  retryStormAttemptsPerGateMax : option Q
}.

Record policy : Type := Policy {
  mode : option string;
  thresholds : option thresholds_cfg
}.

(** The issue texts, kept as data (the sources format the numbers with
    four decimals). *)
Inductive guard_issue : Type :=
| LearningFailRate (fail_rate fail_rate_max : Q)
| LearningTimeoutRate (timeout_rate timeout_rate_max : Q)
| LearningRetryStormRate (retry_storm_rate retry_storm_max : Q)
| ThresholdBreach (fail_rate timeout_rate : Q).

(** [str(policy.get("mode", "learning")).lower()] *)
Definition mode_of (p : policy) : string := lower (default "learning" (mode p)).

Definition transition_state (previous_state : string) (p : policy) (r : rates)
  : string * list guard_issue :=
  let th := default {| failRateMax := None; timeoutRateMax := None;
                       retryStormAttemptsPerGateMax := None |} (thresholds p) in
  let fail_rate_max := default 1 (failRateMax th) in
  let timeout_rate_max := default 1 (timeoutRateMax th) in
  let retry_storm_max := default 9999 (retryStormAttemptsPerGateMax th) in
  let fail_rate := failRate r in
  let timeout_rate := timeoutRate r in
  let retry_storm_rate := retryStormRate r in
  if String.eqb (mode_of p) "learning" then
    let issues :=
      ((if Qgtb fail_rate fail_rate_max
        then [LearningFailRate fail_rate fail_rate_max] else [])
       ++ (if Qgtb timeout_rate timeout_rate_max
           then [LearningTimeoutRate timeout_rate timeout_rate_max] else [])
       ++ (if Qgtb retry_storm_rate retry_storm_max
           then [LearningRetryStormRate retry_storm_rate retry_storm_max] else []))%list in
    (if String.eqb previous_state "" then STATE_CLOSED else previous_state, issues)
  else
    let previous_state :=
      if String.eqb previous_state STATE_CLOSED
         || String.eqb previous_state STATE_OPEN
         || String.eqb previous_state STATE_HALF_OPEN
      then previous_state else STATE_CLOSED in
    let breach := Qgtb fail_rate fail_rate_max || Qgtb timeout_rate timeout_rate_max in
    if breach then
      let issues := [ThresholdBreach fail_rate timeout_rate] in
      if String.eqb previous_state STATE_HALF_OPEN then (STATE_OPEN, issues)
      else (STATE_OPEN, issues)
    else if String.eqb previous_state STATE_OPEN then (STATE_HALF_OPEN, [])
    else if String.eqb previous_state STATE_HALF_OPEN then (STATE_CLOSED, [])
    else (STATE_CLOSED, []).

Record report : Type := Report {
  r_mode : string;
  previousState : string;
  state : string;
  r_rates : rates;
  issues : list guard_issue
}.

Definition evaluate_runner_guard (p : policy) (history : list (list (string * json)))
    (previous_state : string) : report :=
  let r := compute_rates history in
  let '(next_state, issues) := transition_state previous_state p r in
  {| r_mode := default "learning" (mode p);
     previousState := previous_state;
     state := next_state;
     r_rates := r;
     issues := issues |}.

(** [_evaluate_runner_guard] of [gate_runner.py]: [state_file] is the
    payload of [runner_guard_state.json] when the file exists.  Returns
    the report, [hard_open] and the state written back to the file. *)
Definition _evaluate_runner_guard (p : policy) (history : list (list (string * json)))
    (state_file : option (list (string * json))) : report * bool * string :=
  let previous_state :=
    match state_file with
    | Some state_payload =>
        match get "state" state_payload with
        | Some (JStr state_raw) => state_raw
        | _ => "closed"
        end
    | None => "closed"
    end in
  let rep := evaluate_runner_guard p history previous_state in
  let hard_open :=
    String.eqb (state rep) STATE_OPEN && negb (String.eqb (mode_of p) "learning") in
  (rep, hard_open, state rep).

(** What a gate function hands to the supervisor. *)
Record outcome : Type := Outcome {
  o_status : string;
  o_reasonCodes : list string;
  o_blockingIssues : list string
}.

(** The report of [run_g0] ([gate_checks_g0.py]), as [run_g0_fn] reads it. *)
Record g0_report : Type := G0Report {
  passed : bool;
  g0_reasonCodes : list string;
  g0_issues : list string
}.

(** [run_g0_fn] of [main]: [run_g0] is only called when the guard is not
    hard-open. *)
Definition run_g0_fn (guard_open : bool) (run_g0 : g0_report) : outcome :=
  if guard_open then
    {| o_status := "policy_fail";
       o_reasonCodes := ["HARD_GATE_RUNNER_SELF_HEALTH_FAIL"];
       o_blockingIssues := ["runner guard state is open; gate pipeline blocked"] |}
  else
    {| o_status := if passed run_g0 then "pass" else "policy_fail";
       o_reasonCodes := g0_reasonCodes run_g0;
       o_blockingIssues := g0_issues run_g0 |}.

(** *** The counts the rates are compared with *)







(** The thresholds [transition_state] compares with. *)
Definition fail_rate_max_of (p : policy) : Q :=
  default 1 (match thresholds p with Some th => failRateMax th | None => None end).

Definition timeout_rate_max_of (p : policy) : Q :=
  default 1 (match thresholds p with Some th => timeoutRateMax th | None => None end).

(** [failRate > failRateMax or timeoutRate > timeoutRateMax] *)
Definition breach (p : policy) (r : rates) : Prop :=
  fail_rate_max_of p < failRate r ∨ timeout_rate_max_of p < timeoutRate r.

End RunnerGuard.

(** ** Attestation ([attestation.py]) and gate G4 ([gate_runner.py]) *)

Module Attestation.

Definition owner_step (ids : gset string) (item : json) : gset string :=
  match item with
  | JObj d =>
      match get "active" d with
      | Some (JBool true) =>
          match get "id" d with
          | Some (JStr owner_id) =>
              if negb (String.eqb (strip owner_id) "") then ids ∪ {[ owner_id ]} else ids
          | _ => ids
          end
      | _ => ids
      end
  | _ => ids
  end.

Definition active_owner_ids (owners_payload : list (string * json)) : gset string :=
  match as_list (get "owners" owners_payload) with
  | None => ∅
  | Some owners => fold_left owner_step owners ∅
  end.

(** [mode in ("manual_attest", "key_signed_attest", "service_attest")] *)
Definition mode_valid (mode : option json) : bool :=
  match mode with
  | Some (JStr m) =>
      String.eqb m "manual_attest" || String.eqb m "key_signed_attest"
      || String.eqb m "service_attest"
  | _ => false
  end.

(** [isinstance(v, str) and v in allowed] *)
Definition str_in (v : option json) (allowed : gset string) : bool :=
  match as_str v with
  | Some s => bool_decide (s ∈ allowed)
  | None => false
  end.

Definition is_str (v : option json) : bool :=
  match as_str v with Some _ => true | None => false end.

(** [isinstance(scope, list) and len(scope) != 0] *)
Definition nonempty_list (v : option json) : bool :=
  match as_list v with
  | Some (_ :: _) => true
  | _ => false
  end.

(** [issues.append(msg)] under a condition. *)
Definition append_if (cond : bool) (msg : string) (issues : list string) : list string :=
  if cond then (issues ++ [msg])%list else issues.

Definition validate_attestation (attestation_payload owners_payload : list (string * json))
  : bool * list string :=
  let mode := get "mode" attestation_payload in
  if negb (mode_valid mode) then (false, ["attestation.mode invalid"])
  else
    let allowed := active_owner_ids owners_payload in
    let attested_by := get "attestedBy" attestation_payload in
    let reviewed_by := get "reviewedBy" attestation_payload in
    let issues := [] in
    let issues :=
      append_if (negb (str_in attested_by allowed))
        "attestedBy not in active owner allowlist" issues in
    let issues :=
      append_if (negb (str_in reviewed_by allowed))
        "reviewedBy not in active owner allowlist" issues in
    let issues :=
      match as_str attested_by, as_str reviewed_by with
      | Some a, Some r =>
          append_if (String.eqb a r) "attestedBy must differ from reviewedBy" issues
      | _, _ => issues
      end in
    let issues :=
      append_if (negb (is_str (get "attestedAt" attestation_payload)))
        "attestedAt missing" issues in
    let issues :=
      append_if (negb (is_str (get "reviewedAt" attestation_payload)))
        "reviewedAt missing" issues in
    let issues :=
      append_if (negb (nonempty_list (get "scope" attestation_payload)))
        "scope must be non-empty list" issues in
    (bool_decide (issues = []), issues).

(** The [--attestation] argument as [_gate_g4] sees it; [content] is
    [None] when [read_json] raises on the file. *)
Inductive attestation_arg : Type :=
| NoPath
| NotFound (path : string)
| Found (path : string) (content : option (list (string * json))).

Record outcome : Type := Outcome {
  status : string;
  reasonCodes : list string;
  blockingIssues : list string;
  details : list (string * json);
  attestation : option (list (string * json))
}.

Definition or_null (v : option json) : json := default JNull v.

(** [details] entries added from the source-fallback policy; [None] when
    [source_policy.get("archiveOnly", {}).get(...)] raises because
    [archiveOnly] is not a dict. *)
Definition annotate_source_policy (source_policy : list (string * json))
  : option (list (string * json)) :=
  let mode := get "mode" source_policy in
  let base := [("sourceFallbackMode", or_null mode)] in
  match mode with
  | Some (JStr "archive_only") =>
      match get "archiveOnly" source_policy with
      | None => Some (base ++ [("archiveOnlyAllowedOutputs", JNull)])%list
      | Some (JObj archive) =>
          Some (base ++ [("archiveOnlyAllowedOutputs",
                          or_null (get "allowedOutputs" archive))])%list
      | Some _ => None
      end
  | _ => Some base
  end.

(** [_gate_g4]; [None] when an exception leaves the function (the
    supervisor then records [tool_error]).  [owners_file] and
    [source_policy_file] are what [read_json] yields, [None] when it
    raises. *)
Definition _gate_g4 (attestation_path : attestation_arg)
    (owners_file source_policy_file : option (list (string * json)))
  : option outcome :=
  let checked :=
    match attestation_path with
    | NoPath =>
        Some (["HARD_HARD_GATE_CHECK_FAILED"], ["missing attestation path"], [], None)
    | NotFound path =>
        Some (["HARD_HARD_GATE_CHECK_FAILED"],
              ["attestation file not found: " +:+ path], [], None)
    | Found path content =>
        match owners_file, content with
        | Some owners_payload, Some attestation_payload =>
            let '(passed, attestation_issues) :=
              validate_attestation attestation_payload owners_payload in
            let summary :=
              [("mode", or_null (get "mode" attestation_payload));
               ("attestedBy", or_null (get "attestedBy" attestation_payload));
               ("reviewedBy", or_null (get "reviewedBy" attestation_payload));
               ("passed", JBool passed);
               ("issues", JList (map JStr attestation_issues))] in
            Some (if passed then [] else ["HARD_HARD_GATE_CHECK_FAILED"],
                  if passed then [] else attestation_issues,
                  [("attestationPath", JStr path)],
                  Some summary)
        | _, _ => None
        end
    end in
  match checked, source_policy_file with
  | Some (reasons, issues, details, attestation_summary), Some source_policy =>
      match annotate_source_policy source_policy with
      | Some extra =>
          Some {| status := if bool_decide (issues = []) then "pass" else "policy_fail";
                  reasonCodes := _dedup reasons;
                  blockingIssues := issues;
                  details := (details ++ extra)%list;
                  attestation := attestation_summary |}
      | None => None
      end
  | _, _ => None
  end.

End Attestation.

(** ** State-machine replay ([replay_runtime_state.py]) *)

Module Replay.

Definition EXIT_OK : Z := 0.
Definition EXIT_INVALID_REPLAY : Z := 2.
Definition EXIT_TOOL_ERROR : Z := 3.

Definition STATE_SET : gset string :=
  {[ "NORMAL"; "WATCH"; "DEGRADE_H0"; "PAUSE_NEW_OPENS"; "RECOVERY_SHADOW" ]}.

Definition ALLOWED_TRANSITIONS : gmap string (gset string) :=
  list_to_map
    [ ("NORMAL", {[ "NORMAL"; "WATCH"; "DEGRADE_H0"; "PAUSE_NEW_OPENS" ]});
      ("WATCH", {[ "WATCH"; "NORMAL"; "DEGRADE_H0"; "PAUSE_NEW_OPENS" ]});
      ("DEGRADE_H0", {[ "DEGRADE_H0"; "RECOVERY_SHADOW"; "PAUSE_NEW_OPENS" ]});
      ("PAUSE_NEW_OPENS",
       {[ "PAUSE_NEW_OPENS"; "WATCH"; "DEGRADE_H0"; "RECOVERY_SHADOW" ]});
      ("RECOVERY_SHADOW",
       {[ "RECOVERY_SHADOW"; "NORMAL"; "DEGRADE_H0"; "PAUSE_NEW_OPENS" ]}) ].

(** A [datetime] as [parse_iso] returns it: without a UTC offset (naive)
    or with one (aware), as an instant on the respective time line. *)
Inductive tstamp : Type :=
| Naive (t : Z)
| Aware (t : Z).

(** [a < b] on [datetime] values: comparing a naive with an aware value
    raises [TypeError] ([None]). *)
Definition ts_lt (a b : tstamp) : option bool :=
  match a, b with
  | Naive x, Naive y => Some (x <? y)%Z
  | Aware x, Aware y => Some (x <? y)%Z
  | _, _ => None
  end.

(** One parsed line of the log: the JSON object, and [ts], the value of
    [parse_iso(record.get("timestamp") or record.get("at") or
    record.get("createdAt") or record.get("time"))]. *)
Record log_record : Type := LogRecord {
  fields : list (string * json);
  ts : option tstamp
}.

(** A line of the log file as [parse_log] meets it. *)
Inductive log_line : Type :=
| Blank
| NotJson
| NotObject
| Entry (r : log_record).

Fixpoint coalesce_state (record : list (string * json)) (keys : list string)
  : option string :=
  match keys with
  | [] => None
  | key :: rest =>
      match get key record with
      | Some (JStr value) =>
          if negb (String.eqb (strip value) "") then Some (upper (strip value))
          else coalesce_state record rest
      | _ => coalesce_state record rest
      end
  end.

(** [parse_log]: the records with their line numbers; [None] when a line
    raises ([json.JSONDecodeError] or [ValueError]). *)
Fixpoint parse_lines (idx : nat) (lines : list log_line)
  : option (list (nat * log_record)) :=
  match lines with
  | [] => Some []
  | Blank :: rest => parse_lines (S idx) rest
  | NotJson :: _ => None
  | NotObject :: _ => None
  | Entry r :: rest =>
      match parse_lines (S idx) rest with
      | Some records => Some ((idx, r) :: records)
      | None => None
      end
  end.

Definition parse_log (lines : list log_line) : option (list (nat * log_record)) :=
  parse_lines 1 lines.

(** The messages, kept as data. *)
Inductive replay_error : Type :=
| LogFileNotFound
| NoEvents
| CannotDetermineToState (line_no : nat)
| UnknownState (line_no : nat) (to_state : string)
| UnknownFromState (line_no : nat) (from_state : string)
| InvalidTransition (line_no : nat) (from_state to_state : string)
| InvalidReplayInput
| ToolError.

Inductive replay_warning : Type :=
| OutOfOrder (line_no : nat).

Record transition : Type := Transition {
  line : nat;
  t_from : option string;
  t_to : string;
  allowed : bool;
  event : option json
}.

(** The variables of the loop in [main]. *)
Record loop_state : Type := LoopState {
  errors : list replay_error;
  warnings : list replay_warning;
  transitions : list transition;
  current_state : option string;
  last_ts : option tstamp
}.

Definition initial_state : loop_state :=
  {| errors := []; warnings := []; transitions := [];
     current_state := None; last_ts := None |}.

Definition add_error (st : loop_state) (e : replay_error) : loop_state :=
  {| errors := errors st ++ [e]; warnings := warnings st;
     transitions := transitions st; current_state := current_state st;
     last_ts := last_ts st |}.

Definition from_keys : list string := ["from"; "fromState"; "prevState"; "previousState"].
Definition to_keys : list string := ["to"; "toState"; "nextState"; "state"].

(** [ALLOWED_TRANSITIONS.get(from_state, set())] *)
Definition allowed_set (from_state : string) : gset string :=
  default ∅ (ALLOWED_TRANSITIONS !! from_state).

(** The timestamp part of the loop body: the new [warnings] and
    [last_ts]; [None] when the comparison raises. *)
Definition check_timestamp (st : loop_state) (line_no : nat) (t : option tstamp)
  : option (list replay_warning * option tstamp) :=
  match t, last_ts st with
  | Some now, Some before =>
      match ts_lt now before with
      | Some true => Some (warnings st ++ [OutOfOrder line_no], Some now)
      | Some false => Some (warnings st, Some now)
      | None => None
      end
  | Some now, None => Some (warnings st, Some now)
  | None, _ => Some (warnings st, last_ts st)
  end.

(** One iteration of [for record in records]; [None] when it raises. *)
Definition step (st : loop_state) (line_no : nat) (record : log_record)
  : option loop_state :=
  let from_state := coalesce_state (fields record) from_keys in
  match coalesce_state (fields record) to_keys with
  | None => Some (add_error st (CannotDetermineToState line_no))
  | Some to_state =>
      if negb (bool_decide (to_state ∈ STATE_SET)) then
        Some (add_error st (UnknownState line_no to_state))
      else
        let from_state :=
          match from_state with Some f => Some f | None => current_state st end in
        match from_state with
        | Some f =>
            if negb (bool_decide (f ∈ STATE_SET)) then
              Some (add_error st (UnknownFromState line_no f))
            else
              match check_timestamp st line_no (ts record) with
              | None => None
              | Some (warnings', last_ts') =>
                  let is_allowed := bool_decide (to_state ∈ allowed_set f) in
                  Some {| errors :=
                            if is_allowed then errors st
                            else errors st ++ [InvalidTransition line_no f to_state];
                          warnings := warnings';
                          transitions :=
                            transitions st ++
                              [ {| line := line_no; t_from := Some f; t_to := to_state;
                                   allowed := is_allowed;
                                   event := get "event" (fields record) |} ];
                          current_state := Some to_state;
                          last_ts := last_ts' |}
              end
        | None =>
            match check_timestamp st line_no (ts record) with
            | None => None
            | Some (warnings', last_ts') =>
                Some {| errors := errors st;
                        warnings := warnings';
                        transitions :=
                          transitions st ++
                            [ {| line := line_no; t_from := None; t_to := to_state;
                                 allowed := true;
                                 event := get "event" (fields record) |} ];
                        current_state := Some to_state;
                        last_ts := last_ts' |}
            end
        end
  end.

Fixpoint replay_loop (st : loop_state) (records : list (nat * log_record))
  : option loop_state :=
  match records with
  | [] => Some st
  | (line_no, record) :: rest =>
      match step st line_no record with
      | Some st' => replay_loop st' rest
      | None => None
      end
  end.

Record report : Type := Report {
  valid : bool;
  transitionCount : option nat;
  finalState : option string;
  r_errors : list replay_error;
  r_warnings : list replay_warning;
  r_transitions : list transition
}.

(** The reports of the early returns and of the exception handlers. *)
Definition failure_report (e : replay_error) : report :=
  {| valid := false; transitionCount := None; finalState := None;
     r_errors := [e]; r_warnings := []; r_transitions := [] |}.

(** [main]: [log_file] is [None] when the file does not exist.  Returns
    the report written and the exit code. *)
Definition main (simulate_tool_error : bool) (log_file : option (list log_line))
  : report * Z :=
  if simulate_tool_error then (failure_report ToolError, EXIT_TOOL_ERROR)
  else
    match log_file with
    | None => (failure_report LogFileNotFound, EXIT_INVALID_REPLAY)
    | Some lines =>
        match parse_log lines with
        | None => (failure_report InvalidReplayInput, EXIT_INVALID_REPLAY)
        | Some [] => (failure_report NoEvents, EXIT_INVALID_REPLAY)
        | Some records =>
            match replay_loop initial_state records with
            | None => (failure_report ToolError, EXIT_TOOL_ERROR)
            | Some st =>
                let valid := bool_decide (errors st = []) in
                ({| valid := valid;
                    transitionCount := Some (length (transitions st));
                    finalState := current_state st;
                    r_errors := errors st;
                    r_warnings := warnings st;
                    r_transitions := transitions st |},
                 if valid then EXIT_OK else EXIT_INVALID_REPLAY)
            end
        end
    end.

(** *** The validity condition *)



Definition is_aware (t : tstamp) : bool :=
  match t with Aware _ => true | Naive _ => false end.

(** The parsed timestamps of the log are all aware or all naive, so that
    any two of them can be compared. *)
Definition timestamps_comparable (records : list (nat * log_record)) : Prop :=
  ∃ aware : bool,
    ∀ line_no record t,
      (line_no, record) ∈ records → ts record = Some t → is_aware t = aware.


End Replay.

(** ** Migration compare ([migration_compare.py]) *)

Module MigrationCompare.

(** The types named in [required]. *)
Inductive py_type : Type := TStr | TList | TDict.

Definition isinstance (value : option json) (t : py_type) : bool :=
  match value, t with
  | Some (JStr _), TStr => true
  | Some (JList _), TList => true
  | Some (JObj _), TDict => true
  | _, _ => false
  end.

(** [type(value).__name__]; an absent key reads as [None]. *)
Definition type_name (value : option json) : string :=
  match value with
  | None | Some JNull => "NoneType"
  | Some (JBool _) => "bool"
  | Some (JInt _) => "int"
  | Some (JFloat _) => "float"
  | Some (JStr _) => "str"
  | Some (JList _) => "list"
  | Some (JObj _) => "dict"
  end.

Definition required : list (string * py_type) :=
  [ ("version", TStr); ("generatedAt", TStr); ("runId", TStr); ("result", TStr);
    ("decisionWeight", TStr); ("reasonCodes", TList); ("profileHash", TStr);
    ("thresholdsHash", TStr); ("statisticsLockHash", TStr);
    ("registryVersion", TStr); ("metricVersions", TDict) ].

(** The error messages, kept as data. *)
Inductive issue : Type :=
| FieldType (name field : string) (expected : py_type) (got : string)
| InvalidEnum (name result : string)
| NonStringReasonCodes (name : string)
| InputLoadError.

Definition result_enum : gset string :=
  {[ "NO_GO"; "PAPER_ONLY_GO"; "BLOCKED_WITH_RECOVERY_PLAN" ]}.

Definition is_json_str (item : json) : bool :=
  match item with JStr _ => true | _ => false end.

Definition validate_verdict_payload (name : string) (payload : list (string * json))
  : list issue :=
  let issues :=
    flat_map
      (fun '(field, expected_type) =>
         let value := get field payload in
         if negb (isinstance value expected_type)
         then [FieldType name field expected_type (type_name value)]
         else [])
      required in
  let issues :=
    match get "result" payload with
    | Some (JStr result) =>
        if negb (bool_decide (result ∈ result_enum))
        then issues ++ [InvalidEnum name result] else issues
    | _ => issues
    end in
  match get "reasonCodes" payload with
  | Some (JList reason_codes) =>
      let non_string := List.filter (fun item => negb (is_json_str item)) reason_codes in
      if negb (bool_decide (non_string = []))
      then issues ++ [NonStringReasonCodes name] else issues
  | _ => issues
  end.

(** The numeric value of a Python number ([bool] included). *)
Definition num (v : json) : option Q :=
  match v with
  | JBool b => Some (if b then 1%Q else 0%Q)
  | JInt z => Some (inject_Z z)
  | JFloat q => Some q
  | _ => None
  end.

(** [a == b] on parsed JSON values. *)
Fixpoint py_eqb (a b : json) {struct a} : bool :=
  match a, b with
  | JNull, JNull => true
  | JStr s, JStr t => String.eqb s t
  | JList l, JList m =>
      (fix all_eq (l m : list json) : bool :=
         match l, m with
         | [], [] => true
         | x :: l', y :: m' => py_eqb x y && all_eq l' m'
         | _, _ => false
         end) l m
  | JObj d, JObj e =>
      Nat.eqb (length d) (length e)
      && (fix all_in (d : list (string * json)) : bool :=
            match d with
            | [] => true
            | (k, v) :: d' =>
                match get k e with
                | Some w => py_eqb v w
                | None => false
                end && all_in d'
            end) d
  | _, _ =>
      match num a, num b with
      | Some x, Some y => Qeq_bool x y
      | _, _ => false
      end
  end.

(** [x.get(k) == y.get(k)], an absent key reading as [None]. *)
Definition get_eqb (key : string) (x y : list (string * json)) : bool :=
  py_eqb (default JNull (get key x)) (default JNull (get key y)).

(** [{str(item) for item in payload.get("reasonCodes", []) if
    isinstance(item, str)}]; the payloads compared have passed the
    validation, so the field is a list. *)
Definition reason_set (payload : list (string * json)) : gset string :=
  match get "reasonCodes" payload with
  | Some (JList items) =>
      list_to_set (omap (fun item => match item with JStr s => Some s | _ => None end) items)
  | _ => ∅
  end.

(** The comparison; the report lists the two differences sorted. *)
Record comparison : Type := Comparison {
  sameResult : bool;
  onlyInBaseline : gset string;
  onlyInCandidate : gset string;
  profileHashChanged : bool;
  thresholdsHashChanged : bool;
  statisticsLockHashChanged : bool
}.

Definition compare_verdicts (baseline candidate : list (string * json)) : comparison :=
  let baseline_reasons := reason_set baseline in
  let candidate_reasons := reason_set candidate in
  {| sameResult := get_eqb "result" baseline candidate;
     onlyInBaseline := baseline_reasons ∖ candidate_reasons;
     onlyInCandidate := candidate_reasons ∖ baseline_reasons;
     profileHashChanged := negb (get_eqb "profileHash" baseline candidate);
     thresholdsHashChanged := negb (get_eqb "thresholdsHash" baseline candidate);
     statisticsLockHashChanged :=
       negb (get_eqb "statisticsLockHash" baseline candidate) |}.

Record report : Type := Report {
  valid : bool;
  errors : list issue;
  r_comparison : option comparison
}.

(** [main]: the two files as [read_json] yields them, [None] when it
    raises.  Returns the report written and the exit code. *)
Definition main (baseline_file candidate_file : option (list (string * json)))
  : report * Z :=
  match baseline_file, candidate_file with
  | Some baseline, Some candidate =>
      let validation_errors :=
        validate_verdict_payload "baseline" baseline
        ++ validate_verdict_payload "candidate" candidate in
      if negb (bool_decide (validation_errors = [])) then
        ({| valid := false; errors := validation_errors; r_comparison := None |}, 2%Z)
      else
        let cmp := compare_verdicts baseline candidate in
        ({| valid := true; errors := []; r_comparison := Some cmp |},
         if sameResult cmp && bool_decide (onlyInCandidate cmp = ∅) then 0%Z else 2%Z)
  | _, _ =>
      ({| valid := false; errors := [InputLoadError]; r_comparison := None |}, 2%Z)
  end.

(** *** The checks, worded as in the specification *)

Definition has_str (field : string) (payload : list (string * json)) : Prop :=
  ∃ s, get field payload = Some (JStr s).

(** The fields and types that [validate_verdict_payload] accepts. *)
Definition checked_fields_ok (payload : list (string * json)) : Prop :=
  has_str "version" payload ∧ has_str "generatedAt" payload ∧ has_str "runId" payload
  ∧ (∃ r, get "result" payload = Some (JStr r) ∧ r ∈ result_enum)
  ∧ has_str "decisionWeight" payload
  ∧ (∃ codes, get "reasonCodes" payload = Some (JList codes)
              ∧ Forall (fun item => ∃ s, item = JStr s) codes)
  ∧ has_str "profileHash" payload ∧ has_str "thresholdsHash" payload
  ∧ has_str "statisticsLockHash" payload ∧ has_str "registryVersion" payload
  ∧ (∃ d, get "metricVersions" payload = Some (JObj d)).

(** The verdict model of the specification adds [blockingIssues], a
    list. *)
Definition verdict_model_ok (payload : list (string * json)) : Prop :=
  checked_fields_ok payload
  ∧ ∃ l, get "blockingIssues" payload = Some (JList l).

End MigrationCompare.

(** ** Stress metric ([stress_metrics.py]) *)

Module StressMetrics.

Local Open Scope Q_scope.

(** [max(a, b)] of Python: [b] when [b > a], else [a]. *)
Definition py_max (a b : Q) : Q := if Qlt_le_dec a b then b else a.

(** [1e-9] *)
Definition eps : Q := 1 # 1000000000.

Definition stress_net_trim10_decline
    (baseline_net_trim10_mean candidate_net_trim10_mean : Q) : Q :=
  let denom := py_max (Qabs baseline_net_trim10_mean) eps in
  let decline :=
    py_max 0 ((baseline_net_trim10_mean - candidate_net_trim10_mean) / denom) in
  decline.

End StressMetrics.

(** ** Numeric readers of [gate_runner.py] *)

Module Numbers.

(** [_numeric]: an [int] or a [float] that is not a [bool]. *)
Definition _numeric (value : option json) : bool :=
  match value with
  | Some (JInt _) | Some (JFloat _) => true
  | _ => false
  end.






(** [bool(value)] on a parsed JSON value. *)
Definition truthy (value : json) : bool :=
  match value with
  | JNull => false
  | JBool b => b
  | JInt z => negb (z =? 0)%Z
  | JFloat q => negb (Qeq_bool q 0)
  | JStr s => negb (String.eqb s "")
  | JList l => match l with [] => false | _ => true end
  | JObj d => match d with [] => false | _ => true end
  end.

(** [bool(cfg.get(key, True))] *)
Definition flag_default_true (key : string) (cfg : list (string * json)) : bool :=
  match get key cfg with
  | Some v => truthy v
  | None => true
  end.

End Numbers.

(** ** The pipeline of [main] and the timeouts ([gate_runner.py]) *)

Module Supervisor.

(** [_gate_timeout_seconds]; a Python [bool] is an [int]. *)
Definition _gate_timeout_seconds (profile : list (string * json)) (gate : string) : Z :=
  let value :=
    match as_dict (get "timeouts_minutes" profile) with
    | Some timeouts =>
        match get gate timeouts with
        | Some (JInt raw) => if (0 <? raw)%Z then raw else 60%Z
        | Some (JBool true) => 1%Z
        | _ => 60%Z
        end
    | None => 60%Z
    end in
  (value * 60)%Z.

(** What [_run_gate_with_retry] knows of its last attempt when it builds
    the checkpoint it returns. *)
Record gate_run : Type := GateRun {
  attempts_made : nat;
  last_status : string;
  reason_codes : list string;
  blocking_issues : list string;
  attestation_obj : option (list (string * json))
}.

(** [_build_checkpoint], on the fields of [Verdict.checkpoint]. *)
Definition _build_checkpoint (gate : string) (attempt : nat) (status : string)
    (reason_codes blocking_issues : list string)
    (attestation : option (list (string * json))) : Verdict.checkpoint :=
  {| Verdict.gate := gate;
     Verdict.attempt := attempt;
     Verdict.status := status;
     Verdict.reasonCodes := _dedup reason_codes;
     Verdict.blockingIssues := blocking_issues;
     Verdict.attestation := attestation |}.

Definition checkpoint_of_run (gate : string) (r : gate_run) : Verdict.checkpoint :=
  _build_checkpoint gate (attempts_made r) (last_status r) (reason_codes r)
    (blocking_issues r) (attestation_obj r).

Definition _build_skipped_checkpoint (gate reason : string) : Verdict.checkpoint :=
  _build_checkpoint gate 1 "skipped" [] [reason] None.

Definition GATES : list string := ["G0"; "G1"; "G2"; "G3"; "G4"].

(** The chain of [if gN_checkpoint is not None and gN_checkpoint["status"]
    == STATUS_PASS]: a gate runs when its predecessor ran and passed. *)
Fixpoint run_chain (run : string -> gate_run) (gates : list string)
  : list Verdict.checkpoint :=
  match gates with
  | [] => []
  | gate :: rest =>
      let cp := checkpoint_of_run gate (run gate) in
      cp :: (if String.eqb (Verdict.status cp) "pass" then run_chain run rest else [])
  end.

(** The loop that adds a skipped checkpoint for every gate not executed. *)
Definition add_skipped (checkpoints : list Verdict.checkpoint) : list Verdict.checkpoint :=
  let executed_gates := map Verdict.gate checkpoints in
  fold_left
    (fun cps gate =>
       if bool_decide (gate ∈ executed_gates) then cps
       else cps ++ [_build_skipped_checkpoint gate "skipped because previous gate failed"])
    GATES checkpoints.

(** The sort key [(str(gate), int(attempt))], compared as Python compares
    tuples. *)
Definition key_le (a b : Verdict.checkpoint) : bool :=
  match String.compare (Verdict.gate a) (Verdict.gate b) with
  | Lt => true
  | Gt => false
  | Eq => (Verdict.attempt a <=? Verdict.attempt b)%nat
  end.

(** [list.sort(key=...)], a stable sort, as an insertion sort. *)
Fixpoint insert_sorted (x : Verdict.checkpoint) (l : list Verdict.checkpoint)
  : list Verdict.checkpoint :=
  match l with
  | [] => [x]
  | y :: rest => if key_le y x then y :: insert_sorted x rest else x :: l
  end.

Definition sort_checkpoints (l : list Verdict.checkpoint) : list Verdict.checkpoint :=
  fold_left (fun acc x => insert_sorted x acc) l [].

(** The checkpoints [main] hands to [_derive_verdict]. *)
Definition pipeline_checkpoints (run : string -> gate_run) : list Verdict.checkpoint :=
  sort_checkpoints (add_skipped (run_chain run GATES)).

(** The exit code of [main]. *)
Definition pipeline_exit (run : string -> gate_run) (decision : Verdict.decision_cfg)
    (policy : Verdict.source_fallback_policy) (canonical_codes : gset string) : Z :=
  Verdict._exit_code_from_verdict
    (Verdict.result
       (Verdict._derive_verdict (pipeline_checkpoints run) decision policy
          canonical_codes)).

End Supervisor.

(** ** The command-line entry of [runner_guard.py] *)

Module RunnerGuardMain.

Import RunnerGuard.

(** A line of the history file as [load_history] meets it. *)
Inductive history_line : Type :=
| HBlank
| HNotJson
| HValue (payload : json).

(** [load_history]: [None] is a missing file; only the lines that parse to
    a JSON object are kept. *)
Definition load_history (file : option (list history_line))
  : list (list (string * json)) :=
  match file with
  | None => []
  | Some lines =>
      omap (fun line => match line with
                        | HValue (JObj row) => Some row
                        | _ => None
                        end) lines
  end.

(** The state file as [main] meets it. *)
Inductive state_file : Type :=
| NoFile
| Unreadable
| Payload (state_payload : list (string * json)).

Definition previous_state_of (f : state_file) : string :=
  match f with
  | Payload state_payload =>
      match get "state" state_payload with
      | Some (JStr prev) => prev
      | _ => STATE_CLOSED
      end
  | _ => STATE_CLOSED
  end.

(** [main]: the report, the state written back and the exit code. *)
Definition main (p : policy) (history_file : option (list history_line))
    (f : state_file) : report * string * Z :=
  let history := load_history history_file in
  let rep := evaluate_runner_guard p history (previous_state_of f) in
  (rep, state rep,
   if String.eqb (state rep) STATE_OPEN
      && negb (String.eqb (lower (default "" (mode p))) "learning")
   then 2%Z else 0%Z).

End RunnerGuardMain.

(** ** The fail-fast checks ([gate_checks_g0.py]) and the canonical codes *)

Module G0Checks.

Import Numbers.

(** The class [[A-Z0-9_]]. *)
Definition code_char (c : ascii) : bool :=
  let n := nat_of_ascii c in
  ((65 <=? n)%nat && (n <=? 90)%nat) || ((48 <=? n)%nat && (n <=? 57)%nat)
  || (n =? 95)%nat.

(** [[A-Z0-9_]*$]: without [re.MULTILINE], [$] matches at the end of the
    string and also just before a newline that ends the string. *)
Fixpoint code_rest (s : string) : bool :=
  match s with
  | EmptyString => true
  | String c rest =>
      if code_char c then code_rest rest
      else Ascii.eqb c "010"%char && String.eqb rest ""
  end.

(** [REASON_CODE_PATTERN.match(code)] for [^(HARD|WARN|INFO)_[A-Z0-9_]+$]. *)
Definition REASON_CODE_PATTERN_match (code : string) : bool :=
  match code with
  | String a (String b (String c (String d (String e (String f rest))))) =>
      let head := String a (String b (String c (String d (String e "")))) in
      (String.eqb head "HARD_" || String.eqb head "WARN_" || String.eqb head "INFO_")
      && code_char f && code_rest rest
  | _ => false
  end.

(** [for item in payload.get("codes", [])]: a list gives its items, a dict
    its keys, a string its characters; [None], a number and a boolean are
    not iterable ([TypeError]). *)
Definition iter_values (v : option json) : option (list json) :=
  match v with
  | None => Some []
  | Some (JList l) => Some l
  | Some (JObj d) => Some (map (λ kv, JStr kv.1) d)
  | Some (JStr s) => Some (map (λ c, JStr (String c "")) (list_ascii_of_string s))
  | Some _ => None
  end.

(** [item.get("code")] when [item] is a dict and the value a [str]. *)
Definition str_code_of (item : json) : option string :=
  match item with
  | JObj d => as_str (get "code" d)
  | _ => None
  end.

(** The set [existing] of [validate_required_codes]. *)
Definition existing_codes (reason_codes_payload : list (string * json))
  : option (gset string) :=
  match iter_values (get "codes" reason_codes_payload) with
  | Some items => Some (list_to_set (omap str_code_of items))
  | None => None
  end.

Fixpoint required_loop (existing : gset string) (required_codes : list string)
    (issues : list string) : list string :=
  match required_codes with
  | [] => issues
  | code :: rest =>
      if bool_decide (code ∉ existing)
      then required_loop existing rest
             (issues ++ [String.append "required code missing: " code])
      else required_loop existing rest issues
  end.

Definition validate_required_codes (reason_codes_payload : list (string * json))
    (required_codes : list string) : option (list string) :=
  match existing_codes reason_codes_payload with
  | Some existing => Some (required_loop existing required_codes [])
  | None => None
  end.

(** [_canonical_reason_codes] of [gate_runner.py], on the parsed file. *)
Definition canonical_step (values : gset string) (item : json) : gset string :=
  match item with
  | JObj d =>
      match get "code" d with
      | Some (JStr code) =>
          if negb (String.eqb code "") then values ∪ {[ code ]} else values
      | _ => values
      end
  | _ => values
  end.

Definition _canonical_reason_codes (payload : list (string * json))
  : option (gset string) :=
  match iter_values (get "codes" payload) with
  | Some items => Some (fold_left canonical_step items ∅)
  | None => None
  end.

Section WithFormat.

(** [repr] of a value, [str] of an [int], and whether [shutil.which] finds
    a command. *)
Variable repr : option json → string.
Variable str_int : Z → string.
Variable which : string → bool.

Fixpoint lint_loop (items : list json) (seen : gset string) (issues : list string)
  : list string :=
  match items with
  | [] => issues
  | item :: rest =>
      match item with
      | JObj d =>
          let code := get "code" d in
          match code with
          | Some (JStr s) =>
              if REASON_CODE_PATTERN_match s then
                lint_loop rest (seen ∪ {[ s ]})
                  (if bool_decide (s ∈ seen)
                   then issues ++ [String.append "duplicate reason code: " s]
                   else issues)
              else
                lint_loop rest seen
                  (issues ++ [String.append "invalid reason code naming: " (repr code)])
          | _ =>
              lint_loop rest seen
                (issues ++ [String.append "invalid reason code naming: " (repr code)])
          end
      | _ => lint_loop rest seen (issues ++ ["reason code item must be object"])
      end
  end.

Definition lint_reason_codes (reason_codes_payload : list (string * json))
  : list string :=
  match get "codes" reason_codes_payload with
  | Some (JList (item :: rest)) => lint_loop (item :: rest) ∅ []
  | _ => ["reason code file has empty or invalid 'codes' list"]
  end.

Definition command_availability (commands : list string) : list string :=
  List.filter (λ cmd, negb (which cmd)) commands.

Fixpoint join (sep : string) (parts : list string) : string :=
  match parts with
  | [] => ""
  | [part] => part
  | part :: rest => String.append part (String.append sep (join sep rest))
  end.

(** [isinstance(raw, int)]: a [bool] is an [int]. *)
Definition drift_max_of (g0_cfg : list (string * json)) : Z :=
  match get "clock_drift_ms_max" g0_cfg with
  | Some (JInt raw) => raw
  | Some (JBool raw) => if raw then 1%Z else 0%Z
  | _ => 2000%Z
  end.

(** The reason-code part of [run_g0]: [None] when [read_json] or the
    iteration of [validate_required_codes] raises. *)
Definition reason_code_checks (profile : list (string * json))
    (reason_payload : option (list (string * json)))
  : option (list string * list string) :=
  match reason_payload with
  | None => None
  | Some payload =>
      let reason_issues := lint_reason_codes payload in
      let issues := reason_issues in
      let reason_codes :=
        match reason_issues with [] => [] | _ => ["HARD_REASON_CODE_UNKNOWN"] end in
      let required_codes :=
        match get "hard_block_reason_codes_g3" profile with
        | None => Some (JList [])
        | other => other
        end in
      match required_codes with
      | Some (JList required) =>
          match validate_required_codes payload (omap (λ c, as_str (Some c)) required) with
          | None => None
          | Some [] => Some (issues, reason_codes)
          | Some required_issues =>
              Some (issues ++ required_issues,
                    reason_codes ++ ["HARD_REASON_CODE_UNKNOWN"])
          end
      | _ => Some (issues, reason_codes)
      end
  end.

(** [run_g0], given what the reason-code file parses to ([None] when
    [read_json] raises), the measured clock drift and the findings of the
    secrets scan. *)
Definition run_g0 (profile : list (string * json))
    (reason_payload : option (list (string * json)))
    (drift_ms : Z) (findings : list json) : option RunnerGuard.g0_report :=
  let g0_cfg := default [] (as_dict (get "g0" profile)) in
  let require_reason_code_lint := flag_default_true "require_reason_code_lint" g0_cfg in
  let require_command_availability :=
    flag_default_true "require_command_availability" g0_cfg in
  let require_secrets_hygiene := flag_default_true "require_secrets_hygiene" g0_cfg in
  match (if require_reason_code_lint
         then reason_code_checks profile reason_payload
         else Some ([], [])) with
  | None => None
  | Some (issues0, reason_codes0) =>
      let missing_cmds :=
        if require_command_availability
        then command_availability ["python3"; "node"; "pnpm"; "git"]
        else [] in
      let '(issues1, reason_codes1) :=
        if require_command_availability
           && match missing_cmds with [] => false | _ => true end
        then (issues0 ++ [String.append "required commands missing: "
                            (join ", " missing_cmds)],
              reason_codes0 ++ ["HARD_SOURCE_HEALTH_FAIL"])
        else (issues0, reason_codes0) in
      let drift_max := drift_max_of g0_cfg in
      let '(issues2, reason_codes2) :=
        if (drift_max <? drift_ms)%Z
        then (issues1 ++ [String.append "clock drift exceeded: "
                            (String.append (str_int drift_ms)
                               (String.append "ms > "
                                  (String.append (str_int drift_max) "ms")))],
              reason_codes1 ++ ["HARD_CLOCK_DRIFT_EXCEEDED"])
        else (issues1, reason_codes1) in
      let findings := if require_secrets_hygiene then findings else [] in
      let '(issues3, reason_codes3) :=
        if require_secrets_hygiene
           && match findings with [] => false | _ => true end
        then (issues2 ++ ["high-confidence secret findings detected"],
              reason_codes2 ++ ["HARD_SECRETS_HYGIENE_FAIL"])
        else (issues2, reason_codes2) in
      Some {| RunnerGuard.passed := bool_decide (issues3 = []);
              RunnerGuard.g0_reasonCodes := _dedup reason_codes3;
              RunnerGuard.g0_issues := issues3 |}
  end.

End WithFormat.

End G0Checks.

(** ** Gate G1 ([gate_runner.py]) *)

Module G1.

Import Numbers.

(** How [subprocess.run] ended. *)
Inductive proc_outcome : Type :=
| TimeoutExpired
| Raised (exc : string)
| Returned (returncode : Z).

(** The fields of a check that [_gate_g1] reads. *)
Record py_check : Type := MkCheck {
  c_name : string;
  c_status : string;
  c_blockingIssue : option string
}.

(** [_run_python]; [cmd] is the command line joined with spaces. *)
Definition _run_python (name cmd : string) (proc : proc_outcome) : py_check :=
  match proc with
  | TimeoutExpired =>
      {| c_name := name; c_status := "tool_error";
         c_blockingIssue := Some (String.append "timeout while running " cmd) |}
  | Raised exc =>
      {| c_name := name; c_status := "tool_error";
         c_blockingIssue :=
           Some (String.append "tool_error while running "
                   (String.append cmd (String.append ": " exc))) |}
  | Returned returncode =>
      {| c_name := name;
         c_status := if (returncode =? 0)%Z then "pass"
                     else if (returncode =? 2)%Z then "policy_fail"
                     else "tool_error";
         c_blockingIssue := None |}
  end.

Definition required_map (g1_cfg : list (string * json)) : list (string * bool) :=
  [ ("verify_environment_lock", flag_default_true "require_env_lock_passed" g1_cfg);
    ("verify_freeze_manifest", flag_default_true "require_freeze_manifest_passed" g1_cfg);
    ("post_pull_sync", flag_default_true "require_post_pull_sync_passed" g1_cfg) ].

Definition reason_map : list (string * string) :=
  [ ("verify_environment_lock", "HARD_ENV_MISMATCH");
    ("verify_freeze_manifest", "HARD_FREEZE_MANIFEST_INVALID");
    ("post_pull_sync", "HARD_HARD_GATE_CHECK_FAILED") ].

(** [m.get(key, dflt)] *)
Fixpoint get_default {A : Type} (m : list (string * A)) (key : string) (dflt : A) : A :=
  match m with
  | [] => dflt
  | (k, v) :: rest => if String.eqb k key then v else get_default rest key dflt
  end.

Record loop_state : Type := LoopState {
  status : string;
  reasons : list string;
  issues : list string
}.

(** The text of the blocking issue a failing check contributes. *)
Definition issue_of (check : py_check) : string :=
  match c_blockingIssue check with
  | Some blocking_issue =>
      if negb (String.eqb blocking_issue "") then blocking_issue
      else String.append (c_name check)
             (String.append " failed with status=" (c_status check))
  | None =>
      String.append (c_name check)
        (String.append " failed with status=" (c_status check))
  end.

(** One turn of [for check in checks]. *)
Definition check_step (g1_cfg : list (string * json)) (st : loop_state)
    (check : py_check) : loop_state :=
  let name := c_name check in
  let required := get_default (required_map g1_cfg) name true in
  let check_status := c_status check in
  if negb required then st
  else if String.eqb check_status "pass" then st
  else
    {| status :=
         if String.eqb check_status "tool_error" then "tool_error"
         else if negb (String.eqb (status st) "tool_error") then "policy_fail"
         else status st;
       reasons := reasons st ++ [get_default reason_map name "HARD_HARD_GATE_CHECK_FAILED"];
       issues := issues st ++ [issue_of check] |}.

Definition run_checks (g1_cfg : list (string * json)) (checks : list py_check)
  : RunnerGuard.outcome :=
  let st := fold_left (check_step g1_cfg) checks
              {| status := "pass"; reasons := []; issues := [] |} in
  {| RunnerGuard.o_status := status st;
     RunnerGuard.o_reasonCodes := _dedup (reasons st);
     RunnerGuard.o_blockingIssues := issues st |}.

(** A command line and how its run ended. *)
Record run : Type := Run { cmd : string; proc : proc_outcome }.

Definition g1_checks (env_run freeze_run sync_run : run) : list py_check :=
  [ _run_python "verify_environment_lock" (cmd env_run) (proc env_run);
    _run_python "verify_freeze_manifest" (cmd freeze_run) (proc freeze_run);
    _run_python "post_pull_sync" (cmd sync_run) (proc sync_run) ].

Definition _gate_g1 (profile : list (string * json))
    (env_run freeze_run sync_run : run) : RunnerGuard.outcome :=
  let g1_cfg := default [] (as_dict (get "g1" profile)) in
  run_checks g1_cfg (g1_checks env_run freeze_run sync_run).

End G1.

(** * Properties *)

(** ** [_dedup] *)

Lemma elem_of_dedup_into (x : string) (values out : list string) :
  x ∈ dedup_into out values ↔ x ∈ out ∨ x ∈ values.
Proof.
  revert out. induction values as [|v vs IH]; intros out; simpl.
  - rewrite elem_of_nil. tauto.
  - case_bool_decide as Hin; rewrite IH; set_solver.
Qed.

Lemma elem_of__dedup (x : string) (values : list string) :
  x ∈ _dedup values ↔ x ∈ values.
Proof.
  unfold _dedup. rewrite elem_of_dedup_into, elem_of_nil. tauto.
Qed.

(** ** Verdict deriver *)

Section VerdictFacts.

Import Verdict.

Lemma existsb_status (s : string) (checkpoints : list checkpoint) :
  existsb (String.eqb s) (statuses_of checkpoints) = true
  ↔ ∃ cp, cp ∈ checkpoints ∧ status cp = s.
Proof.
  unfold statuses_of. rewrite existsb_exists. split.
  - intros (x & Hin & Heq). apply in_map_iff in Hin as (cp & <- & Hcp).
    apply String.eqb_eq in Heq. exists cp. by rewrite list_elem_of_In.
  - intros (cp & Hcp & <-). exists (status cp). split.
    + apply in_map. by apply list_elem_of_In.
    + apply String.eqb_refl.
Qed.

Lemma elem_of_all_reasons (code : string) (checkpoints : list checkpoint) :
  code ∈ all_reasons_of checkpoints
  ↔ ∃ cp, cp ∈ checkpoints ∧ code ∈ reasonCodes cp.
Proof.
  unfold all_reasons_of. rewrite list_elem_of_In, in_flat_map.
  split; intros (cp & H1 & H2); exists cp; by rewrite ?list_elem_of_In in *.
Qed.

Lemma has_unknown_true (canonical_codes : gset string) (reasons : list string) :
  has_unknown canonical_codes reasons = true
  ↔ ∃ code, code ∈ reasons ∧ code ∉ canonical_codes.
Proof.
  unfold has_unknown. rewrite existsb_exists. split.
  - intros (code & Hin & Hn). exists code. rewrite list_elem_of_In. split; [done|].
    apply negb_true_iff, bool_decide_eq_false in Hn. done.
  - intros (code & Hin & Hn). exists code. rewrite <- list_elem_of_In. split; [done|].
    apply negb_true_iff, bool_decide_eq_false. done.
Qed.

Lemma elem_of_checked_reasons (canonical_codes : gset string)
    (checkpoints : list checkpoint) (code : string) :
  code ∈ checked_reasons canonical_codes checkpoints
  ↔ code ∈ all_reasons_of checkpoints
    ∨ (code = "HARD_REASON_CODE_UNKNOWN"
       ∧ has_unknown canonical_codes (_dedup (all_reasons_of checkpoints)) = true).
Proof.
  unfold checked_reasons.
  destruct (has_unknown _ _) eqn:Hu.
  - rewrite elem_of__dedup, elem_of_app, elem_of__dedup, list_elem_of_singleton.
    intuition.
  - rewrite elem_of__dedup. intuition congruence.
Qed.

Lemma blocked_in_checked (canonical_codes : gset string) (checkpoints : list checkpoint) :
  existsb (fun code => bool_decide (code ∈ blocked_codes))
    (checked_reasons canonical_codes checkpoints) = true
  ↔ ∃ code, code ∈ all_reasons_of checkpoints ∧ code ∈ blocked_codes.
Proof.
  rewrite existsb_exists. split.
  - intros (code & Hin & Hb). apply bool_decide_eq_true in Hb.
    apply list_elem_of_In, elem_of_checked_reasons in Hin as [Hin|[-> _]].
    + by exists code.
    + exfalso. revert Hb. unfold blocked_codes. set_solver.
  - intros (code & Hin & Hb). exists code. split.
    + apply list_elem_of_In, elem_of_checked_reasons. by left.
    + by apply bool_decide_eq_true.
Qed.

Lemma forallb_pass_or_skipped (checkpoints : list checkpoint) :
  (∀ cp, cp ∈ checkpoints → status cp = "pass" ∨ status cp = "skipped")
  → forallb (fun s => String.eqb s STATUS_PASS || String.eqb s STATUS_SKIPPED)
      (statuses_of checkpoints) = true.
Proof.
  intros H. apply forallb_forall. intros s Hs.
  apply in_map_iff in Hs as (cp & <- & Hcp).
  apply list_elem_of_In, H in Hcp as [-> | ->]; reflexivity.
Qed.

(** C1. Before the two overrides the deriver picks:
    BLOCKED_WITH_RECOVERY_PLAN when some checkpoint is [tool_error];
    otherwise, when some checkpoint is [policy_fail],
    BLOCKED_WITH_RECOVERY_PLAN if the aggregated reason codes contain one
    of the three blocking codes and NO_GO if they contain none;
    PAPER_ONLY_GO when every checkpoint is [pass] or [skipped].  With no
    override configured this is the result of the verdict. *)
Theorem derive_verdict_result_cases
    (checkpoints : list checkpoint) (canonical_codes : gset string) :
  let res := base_result canonical_codes checkpoints in
  let some_status s := ∃ cp, cp ∈ checkpoints ∧ status cp = s in
  let some_blocked_code :=
    ∃ code, code ∈ all_reasons_of checkpoints
            ∧ code ∈ ({[ "HARD_SOURCE_HEALTH_FAIL"; "HARD_BUDGET_HARD_CAP_HIT";
                         "HARD_GATE_RUNNER_SELF_HEALTH_FAIL" ]} : gset string) in
  (some_status "tool_error" → res = "BLOCKED_WITH_RECOVERY_PLAN")
  ∧ (¬ some_status "tool_error" → some_status "policy_fail" →
     (some_blocked_code → res = "BLOCKED_WITH_RECOVERY_PLAN")
     ∧ (¬ some_blocked_code → res = "NO_GO"))
  ∧ ((∀ cp, cp ∈ checkpoints → status cp = "pass" ∨ status cp = "skipped") →
     res = "PAPER_ONLY_GO")
  ∧ (∀ decision policy,
       allowed_outputs decision = None →
       mode policy ≠ Some (JStr "archive_only") →
       result (_derive_verdict checkpoints decision policy canonical_codes) = res).
Proof.
  intros res some_status some_blocked_code.
  subst res some_status some_blocked_code. cbv beta.
  fold blocked_codes. unfold base_result, pick_result.
  split; [|split; [|split]].
  - intros Ht. apply existsb_status in Ht. unfold STATUS_TOOL_ERROR. by rewrite Ht.
  - intros Hnt Hp.
    destruct (existsb (String.eqb STATUS_TOOL_ERROR) _) eqn:Ht.
    { apply existsb_status in Ht. done. }
    apply existsb_status in Hp. unfold STATUS_POLICY_FAIL. rewrite Hp.
    split; intros Hb.
    + apply (proj2 (blocked_in_checked canonical_codes checkpoints)) in Hb.
      by rewrite Hb.
    + destruct (existsb (fun code => bool_decide (code ∈ blocked_codes)) _) eqn:Hc;
        [|done].
      apply blocked_in_checked in Hc. done.
  - intros Hall.
    destruct (existsb (String.eqb STATUS_TOOL_ERROR) _) eqn:Ht.
    { apply existsb_status in Ht as (cp & Hcp & Hs).
      destruct (Hall cp Hcp) as [E|E]; rewrite E in Hs; discriminate. }
    destruct (existsb (String.eqb STATUS_POLICY_FAIL) _) eqn:Hp.
    { apply existsb_status in Hp as (cp & Hcp & Hs).
      destruct (Hall cp Hcp) as [E|E]; rewrite E in Hs; discriminate. }
    by rewrite forallb_pass_or_skipped.
  - intros decision policy Hd Hm.
    unfold _derive_verdict, apply_allowed_outputs. rewrite Hd.
    unfold apply_archive_only.
    destruct (mode policy) as [[| | | |s| |]|]; try reflexivity.
    destruct (decide (s = "archive_only")) as [->|Hne]; [done|].
    repeat (destruct s as [|[[] [] [] [] [] [] [] []] s]; try reflexivity).
    done.
Qed.

End VerdictFacts.

Section VerdictExamples.

Import Verdict.

Definition cp_of (g st : string) (codes : list string) : checkpoint :=
  {| gate := g; attempt := 1; status := st; reasonCodes := codes;
     blockingIssues := []; attestation := None |}.

Definition all_pass : list checkpoint :=
  [ cp_of "G0" "pass" []; cp_of "G1" "pass" []; cp_of "G2" "pass" [];
    cp_of "G3" "pass" []; cp_of "G4" "pass" [] ].

Definition g3_health_fail : list checkpoint :=
  [ cp_of "G0" "pass" []; cp_of "G1" "pass" []; cp_of "G2" "pass" [];
    cp_of "G3" "policy_fail" ["HARD_SOURCE_HEALTH_FAIL"]; cp_of "G4" "skipped" [] ].

Definition some_codes : gset string :=
  {[ "HARD_REASON_CODE_UNKNOWN"; "HARD_HARD_GATE_CHECK_FAILED";
     "HARD_SOURCE_HEALTH_FAIL"; "HARD_THRESHOLD_BREACH" ]}.

Definition no_override : decision_cfg := {| allowed_outputs := None |}.
Definition no_fallback : source_fallback_policy :=
  {| mode := None; archive_allowed_outputs := None |}.

Lemma derive_verdict_result_cases_witness :
  base_result some_codes g3_health_fail = "BLOCKED_WITH_RECOVERY_PLAN"
  ∧ base_result some_codes all_pass = "PAPER_ONLY_GO"
  ∧ result (_derive_verdict all_pass no_override no_fallback some_codes)
    = base_result some_codes all_pass.
Proof.
  split; [|split].
  - apply (derive_verdict_result_cases g3_health_fail some_codes).
    + intros (cp & Hin & Hs). unfold g3_health_fail in Hin.
      repeat (apply elem_of_cons in Hin as [->|Hin]; [discriminate Hs|]).
      by apply elem_of_nil in Hin.
    + exists (cp_of "G3" "policy_fail" ["HARD_SOURCE_HEALTH_FAIL"]).
      split; [|reflexivity]. unfold g3_health_fail. do 3 apply list_elem_of_further.
      apply list_elem_of_here.
    + exists "HARD_SOURCE_HEALTH_FAIL". split.
      * vm_compute. apply list_elem_of_here.
      * apply (bool_decide_unpack _). vm_compute. exact I.
  - apply (derive_verdict_result_cases all_pass some_codes).
    intros cp Hin. unfold all_pass in Hin.
    repeat (apply elem_of_cons in Hin as [->|Hin]; [left; reflexivity|]).
    by apply elem_of_nil in Hin.
  - apply (derive_verdict_result_cases all_pass some_codes); [reflexivity|discriminate].
Defined.

(** C2, as stated, fails: with every gate passing and
    [decision.allowed_outputs] excluding PAPER_ONLY_GO, the override adds
    HARD_RELEASE_GATE_BLOCKED after the canonical check; when the catalog
    lacks that code the verdict carries it without
    HARD_REASON_CODE_UNKNOWN. *)
Lemma override_code_escapes_canonical_check :
  let v := _derive_verdict all_pass
             {| allowed_outputs := Some ["NO_GO"; "BLOCKED_WITH_RECOVERY_PLAN"] |}
             no_fallback some_codes in
  ¬ (∀ code, code ∈ v_reasonCodes v →
             code ∈ some_codes ∨ "HARD_REASON_CODE_UNKNOWN" ∈ v_reasonCodes v).
Proof.
  intros v H.
  assert (Hv : v_reasonCodes v = ["HARD_RELEASE_GATE_BLOCKED"]) by (vm_compute; reflexivity).
  rewrite Hv in H.
  destruct (H "HARD_RELEASE_GATE_BLOCKED") as [Hc|Hu].
  - apply list_elem_of_here.
  - apply (bool_decide_pack _) in Hc. vm_compute in Hc. exact Hc.
  - apply list_elem_of_singleton in Hu. discriminate Hu.
Qed.

End VerdictExamples.

Section VerdictReasonCodes.

Import Verdict.

Lemma allowed_outputs_reasons decision res reasons issues code :
  code ∈ (apply_allowed_outputs decision (res, reasons, issues)).1.2
  ↔ code ∈ reasons
    ∨ (code = "HARD_RELEASE_GATE_BLOCKED"
       ∧ ∃ allowed, allowed_outputs decision = Some allowed ∧ res ∉ allowed).
Proof.
  unfold apply_allowed_outputs.
  destruct (allowed_outputs decision) as [allowed|]; simpl.
  - case_bool_decide as Hin; simpl.
    + split; [tauto|]. intros [?|[_ (a & Ha & Hn)]]; [done|]. congruence.
    + rewrite elem_of__dedup, elem_of_app, list_elem_of_singleton.
      split; [|tauto]. intros [?| ->]; [tauto|]. right. eauto.
  - split; [tauto|]. intros [?|[_ (a & Ha & _)]]; [done|]. discriminate Ha.
Qed.

Lemma archive_only_reasons policy res reasons issues code :
  code ∈ (apply_archive_only policy (res, reasons, issues)).1.2
  → code ∈ reasons ∨ code = "HARD_RELEASE_GATE_BLOCKED".
Proof.
  unfold apply_archive_only.
  destruct (mode policy) as [[| | | |s| |]|]; simpl; try tauto.
  destruct (decide (s = "archive_only")) as [->|Hne].
  - destruct (negb _ && negb _); simpl; [|tauto].
    rewrite elem_of__dedup, elem_of_app, list_elem_of_singleton. tauto.
  - repeat (destruct s as [|[[] [] [] [] [] [] [] []] s]; simpl; try tauto).
Qed.

Lemma archive_only_reasons_mono policy res reasons issues code :
  code ∈ reasons → code ∈ (apply_archive_only policy (res, reasons, issues)).1.2.
Proof.
  intros Hin. unfold apply_archive_only.
  destruct (mode policy) as [[| | | |s| |]|]; simpl; try done.
  destruct (decide (s = "archive_only")) as [->|Hne].
  - destruct (negb _ && negb _); simpl; [|done].
    rewrite elem_of__dedup, elem_of_app. tauto.
  - repeat (destruct s as [|[[] [] [] [] [] [] [] []] s]; simpl; try done).
Qed.

Lemma derive_verdict_reasons checkpoints decision policy canonical_codes :
  v_reasonCodes (_derive_verdict checkpoints decision policy canonical_codes)
  = (apply_archive_only policy
       (apply_allowed_outputs decision
          (base_result canonical_codes checkpoints,
           checked_reasons canonical_codes checkpoints,
           checked_issues canonical_codes checkpoints))).1.2.
Proof.
  unfold _derive_verdict.
  destruct (apply_archive_only _ _) as [[res reasons] issues]. reflexivity.
Qed.

(** C2 (amended). Every reason code of the verdict is in the canonical
    set, or the verdict also carries HARD_REASON_CODE_UNKNOWN, or it is
    the HARD_RELEASE_GATE_BLOCKED that an override appended (no
    checkpoint reported it): the canonical check covers the codes
    aggregated from the checkpoints only. *)
Theorem verdict_reason_codes_checked
    (checkpoints : list checkpoint) (decision : decision_cfg)
    (policy : source_fallback_policy) (canonical_codes : gset string)
    (code : string) :
  let v := _derive_verdict checkpoints decision policy canonical_codes in
  code ∈ v_reasonCodes v →
  code ∈ canonical_codes
  ∨ "HARD_REASON_CODE_UNKNOWN" ∈ v_reasonCodes v
  ∨ (code = "HARD_RELEASE_GATE_BLOCKED" ∧ code ∉ all_reasons_of checkpoints).
Proof.
  intros v Hin. subst v. rewrite derive_verdict_reasons in *.
  destruct (apply_allowed_outputs decision _) as [[res1 reasons1] issues1] eqn:E1.
  assert (Hmono : ∀ c, c ∈ checked_reasons canonical_codes checkpoints →
                       c ∈ (apply_archive_only policy (res1, reasons1, issues1)).1.2).
  { intros c Hc. apply archive_only_reasons_mono.
    change reasons1 with (res1, reasons1, issues1).1.2. rewrite <- E1.
    apply allowed_outputs_reasons. by left. }
  assert (Hchk : ∀ c, c ∈ all_reasons_of checkpoints →
                      c ∈ canonical_codes
                      ∨ "HARD_REASON_CODE_UNKNOWN"
                        ∈ (apply_archive_only policy (res1, reasons1, issues1)).1.2).
  { intros c Hc. destruct (decide (c ∈ canonical_codes)) as [?|Hn]; [by left|right].
    apply Hmono, elem_of_checked_reasons. right. split; [done|].
    apply has_unknown_true. exists c. by rewrite elem_of__dedup. }
  destruct (decide (code ∈ all_reasons_of checkpoints)) as [Hc|Hnc].
  { destruct (Hchk code Hc); tauto. }
  apply archive_only_reasons in Hin as [Hin| ->]; [|tauto].
  change reasons1 with (res1, reasons1, issues1).1.2 in Hin. rewrite <- E1 in Hin.
  apply allowed_outputs_reasons in Hin as [Hin|[-> _]]; [|tauto].
  apply elem_of_checked_reasons in Hin as [Hin|[-> Hu]]; [done|].
  right; left. apply Hmono, elem_of_checked_reasons. by right.
Qed.

Lemma verdict_reason_codes_checked_witness :
  "HARD_SOURCE_HEALTH_FAIL" ∈ some_codes
  ∨ "HARD_REASON_CODE_UNKNOWN"
    ∈ v_reasonCodes (_derive_verdict g3_health_fail no_override no_fallback some_codes)
  ∨ ("HARD_SOURCE_HEALTH_FAIL" = "HARD_RELEASE_GATE_BLOCKED"
     ∧ "HARD_SOURCE_HEALTH_FAIL" ∉ all_reasons_of g3_health_fail).
Proof.
  apply (verdict_reason_codes_checked g3_health_fail no_override no_fallback some_codes).
  vm_compute. apply list_elem_of_here.
Defined.

End VerdictReasonCodes.

(** ** Gate supervisor: retries *)

Section RetryFacts.

Import Retry.

Variable str_other : json -> string.

Abbreviation attempt_status := (attempt_status str_other).
Abbreviation attempts_loop := (attempts_loop str_other).

Lemma attempt_statuses_loop_cons retry_statuses total interval gate_fn attempt rest :
  attempt_statuses (attempts_loop retry_statuses total interval gate_fn (attempt :: rest))
  = let status := attempt_status (gate_fn attempt) in
    status ::
      (if negb (String.eqb status "pass")
          && bool_decide (status ∈ retry_statuses) && (attempt <? total)%nat
       then attempt_statuses (attempts_loop retry_statuses total interval gate_fn rest)
       else []).
Proof.
  cbn [Retry.attempts_loop]. cbv zeta. unfold STATUS_PASS.
  destruct (String.eqb _ "pass"); [reflexivity|].
  destruct (bool_decide _); [|reflexivity].
  destruct (attempt <? total)%nat; [|reflexivity].
  destruct (0 <? interval)%Z; reflexivity.
Qed.

Lemma lookup_cons_S {A} (x : A) (l : list A) (i : nat) : (x :: l) !! S i = l !! i.
Proof. reflexivity. Qed.

Lemma attempts_loop_spec retry_statuses total interval gate_fn (n a : nat) :
  let made :=
    attempt_statuses (attempts_loop retry_statuses total interval gate_fn (seq a n)) in
  (length made ≤ n)%nat
  ∧ (0 < n → 0 < length made)%nat
  ∧ ∀ i status, made !! i = Some status →
      status = attempt_status (gate_fn (a + i)%nat)
      ∧ (is_Some (made !! S i)
         ↔ (S i < n)%nat ∧ status ≠ "pass" ∧ status ∈ retry_statuses
           ∧ (a + i < total)%nat).
Proof.
  revert a. induction n as [|m IH]; intros a made; subst made.
  - cbn. split; [lia|]. split; [lia|]. intros i status H. discriminate H.
  - cbn [seq]. rewrite attempt_statuses_loop_cons. cbv zeta.
    specialize (IH (S a)). cbv zeta in IH.
    set (made' := attempt_statuses (attempts_loop _ _ _ _ (seq (S a) m))) in *.
    set (s0 := attempt_status (gate_fn a)).
    destruct IH as (Hlen & Hpos & Hat).
    set (cont := negb (String.eqb s0 "pass") && bool_decide (s0 ∈ retry_statuses)
                 && (a <? total)%nat).
    assert (Hcont : cont = true ↔ s0 ≠ "pass" ∧ s0 ∈ retry_statuses ∧ (a < total)%nat).
    { unfold cont. rewrite !andb_true_iff, negb_true_iff, String.eqb_neq,
        bool_decide_eq_true, Nat.ltb_lt. tauto. }
    split; [|split].
    + destruct cont; cbn [length]; lia.
    + intros _. cbn [length]. lia.
    + intros [|j] status Hi.
      * cbn in Hi. injection Hi as <-. rewrite Nat.add_0_r. split; [reflexivity|].
        rewrite lookup_cons_S. destruct cont eqn:Hc.
        -- destruct Hcont as [Hc1 _]. specialize (Hc1 eq_refl).
           destruct m as [|m'].
           ++ assert (made' = []) as -> by (destruct made'; [done|cbn in Hlen; lia]).
              split; [intros [? H]; by rewrite lookup_nil in H|lia].
           ++ destruct made' as [|s1 tl]; [cbn in Hpos; lia|].
              split; [intros _; split; [lia|tauto]|eauto].
        -- split; [intros [? H]; by rewrite lookup_nil in H|]. intros (_ & H1 & H2 & H3).
           destruct Hcont as [_ Hc2]. assert (true = false) by (rewrite <- Hc2; tauto). discriminate.
      * rewrite lookup_cons_S in Hi. destruct cont; [|by rewrite lookup_nil in Hi].
        destruct (Hat j status Hi) as (Hs & Hnext).
        replace (a + S j)%nat with (S a + j)%nat by lia. split; [exact Hs|].
        rewrite lookup_cons_S. rewrite Hnext. split; intros (?&?&?&?); repeat split;
          try done; lia.
Qed.



End RetryFacts.

Section RetryExamples.

Import Retry.

(** [str] is only applied to strings in the examples. *)
Definition str_unused : json -> string := fun _ => "".

Definition retry_profile : list (string * json) :=
  [ ("retry_on_status", JList [JStr "tool_error"; JStr "policy_fail"]);
    ("retries", JObj [("G3", JObj [("max_attempts", JInt 2);
                                    ("interval_seconds", JInt 5)])]) ].

Definition flaky_gate (attempt : nat) : attempt_result :=
  match attempt with
  | 1 => RaisedTimeout
  | _ => Returned [("status", JStr "pass")]
  end.



End RetryExamples.

(** ** Runner guard *)

Section RunnerGuardFacts.

Import RunnerGuard.

Local Open Scope Q_scope.

Lemma Qgtb_true (a b : Q) : Qgtb a b = true ↔ b < a.
Proof.
  unfold Qgtb. rewrite negb_true_iff. split.
  - intros H. apply Qnot_le_lt. intros Hle. apply Qle_bool_iff in Hle. congruence.
  - intros H. destruct (Qle_bool a b) eqn:E; [|reflexivity].
    apply Qle_bool_iff in E. exfalso. exact (Qlt_not_le _ _ H E).
Qed.

Lemma Qgtb_false (a b : Q) : Qgtb a b = false ↔ ¬ b < a.
Proof. rewrite <- Qgtb_true. destruct (Qgtb a b); split; congruence. Qed.







(** C5. In enforced mode a breach sends [closed] and [half_open] to
    [open]; without a breach [open] goes to [half_open] and [half_open] to
    [closed]. *)
Theorem guard_transitions_enforced (p : policy) (r : rates) :
  mode_of p ≠ "learning" →
  (breach p r →
   (transition_state "closed" p r).1 = "open"
   ∧ (transition_state "half_open" p r).1 = "open")
  ∧ (¬ breach p r →
     (transition_state "open" p r).1 = "half_open"
     ∧ (transition_state "half_open" p r).1 = "closed").
Proof.
  intros Hmode. apply String.eqb_neq in Hmode.
  assert (Hb : Qgtb (failRate r) (fail_rate_max_of p)
               || Qgtb (timeoutRate r) (timeout_rate_max_of p) = true ↔ breach p r).
  { unfold breach. rewrite orb_true_iff, !Qgtb_true. reflexivity. }
  unfold transition_state. rewrite Hmode.
  unfold fail_rate_max_of, timeout_rate_max_of in Hb.
  destruct (thresholds p) as [th|]; cbn [default failRateMax timeoutRateMax] in *.
  - destruct (Qgtb (failRate r) _ || Qgtb (timeoutRate r) _) eqn:E.
    + split; [intros _; split; reflexivity|]. intros Hn. destruct Hn. by apply Hb.
    + split; [|intros _; split; reflexivity]. intros Hbr. apply Hb in Hbr. discriminate.
  - destruct (Qgtb (failRate r) _ || Qgtb (timeoutRate r) _) eqn:E.
    + split; [intros _; split; reflexivity|]. intros Hn. destruct Hn. by apply Hb.
    + split; [|intros _; split; reflexivity]. intros Hbr. apply Hb in Hbr. discriminate.
Qed.

(** The outcome [run_g0_fn] builds from the report of the real G0 checks. *)
Definition ordinary_g0_outcome (run_g0 : g0_report) : outcome :=
  {| o_status := if passed run_g0 then "pass" else "policy_fail";
     o_reasonCodes := g0_reasonCodes run_g0;
     o_blockingIssues := g0_issues run_g0 |}.

(** C10. In learning mode the guard state after an evaluation is the
    previous state ([closed] when that is empty), so a persisted [open]
    stays [open]; the supervisor forces G0 to fail exactly when the
    resulting state is [open] and the mode is not learning, so in learning
    mode G0 runs its ordinary checks whatever the persisted state. *)
Theorem learning_mode_never_blocks
    (p : policy) (history : list (list (string * json)))
    (state_file : option (list (string * json))) (run_g0 : g0_report) :
  let '(rep, hard_open, written) := _evaluate_runner_guard p history state_file in
  (∀ previous_state,
     mode_of p = "learning" →
     state (evaluate_runner_guard p history previous_state)
     = if String.eqb previous_state "" then "closed" else previous_state)
  ∧ (mode_of p = "learning" →
     state rep = (if String.eqb (previousState rep) "" then "closed" else previousState rep)
     ∧ written = state rep
     ∧ (∀ payload, state_file = Some payload →
          get "state" payload = Some (JStr "open") → state rep = "open")
     ∧ hard_open = false
     ∧ run_g0_fn hard_open run_g0 = ordinary_g0_outcome run_g0)
  ∧ (hard_open = true ↔ state rep = "open" ∧ mode_of p ≠ "learning")
  ∧ (hard_open = false → run_g0_fn hard_open run_g0 = ordinary_g0_outcome run_g0)
  ∧ (hard_open = true →
     o_status (run_g0_fn hard_open run_g0) = "policy_fail"
     ∧ o_reasonCodes (run_g0_fn hard_open run_g0) = ["HARD_GATE_RUNNER_SELF_HEALTH_FAIL"]).
Proof.
  assert (Hlearn : ∀ previous_state,
             mode_of p = "learning" →
             state (evaluate_runner_guard p history previous_state)
             = if String.eqb previous_state "" then "closed" else previous_state).
  { intros prev Hm. unfold evaluate_runner_guard, transition_state.
    rewrite Hm. cbn. reflexivity. }
  unfold _evaluate_runner_guard.
  set (prev := match state_file with
               | Some state_payload =>
                   match get "state" state_payload with
                   | Some (JStr state_raw) => state_raw
                   | _ => "closed"
                   end
               | None => "closed"
               end).
  assert (Hprev : previousState (evaluate_runner_guard p history prev) = prev).
  { unfold evaluate_runner_guard. by destruct (transition_state _ _ _). }
  split; [exact Hlearn|]. split; [|split; [|split]].
  - intros Hm. rewrite Hprev. split; [by apply Hlearn|]. split; [reflexivity|].
    split; [|split].
    + intros payload -> Hopen. rewrite Hlearn by done. subst prev. rewrite Hopen.
      reflexivity.
    + rewrite Hm. cbn. apply andb_false_r.
    + rewrite Hm. cbn. rewrite andb_false_r. reflexivity.
  - rewrite andb_true_iff, negb_true_iff, String.eqb_eq, String.eqb_neq. reflexivity.
  - intros ->. reflexivity.
  - intros ->. split; reflexivity.
Qed.

End RunnerGuardFacts.

Section RunnerGuardExamples.

Import RunnerGuard.

Local Open Scope Q_scope.



Definition enforced_policy : policy :=
  {| mode := Some "enforced";
     thresholds := Some {| failRateMax := Some (1 # 10);
                           timeoutRateMax := Some (1 # 20);
                           retryStormAttemptsPerGateMax := None |} |}.

Definition learning_policy : policy :=
  {| mode := Some "Learning";
     thresholds := Some {| failRateMax := Some (1 # 10);
                           timeoutRateMax := Some (1 # 20);
                           retryStormAttemptsPerGateMax := None |} |}.

Definition failing_history : list (list (string * json)) :=
  [ [("status", JStr "policy_fail"); ("blockingIssues", JList [JStr "timeout"])];
    [("status", JStr "tool_error"); ("blockingIssues", JList [JStr "timeout"])] ].

Lemma guard_transitions_enforced_witness :
  (transition_state "closed" enforced_policy (compute_rates failing_history)).1 = "open"
  ∧ (transition_state "half_open" enforced_policy (compute_rates failing_history)).1
    = "open".
Proof.
  apply (guard_transitions_enforced enforced_policy (compute_rates failing_history)).
  - vm_compute. discriminate.
  - left. vm_compute. reflexivity.
Defined.

Lemma learning_mode_never_blocks_witness :
  state (evaluate_runner_guard learning_policy failing_history "open") = "open".
Proof.
  apply (learning_mode_never_blocks learning_policy failing_history None
           {| passed := true; g0_reasonCodes := []; g0_issues := [] |}).
  vm_compute. reflexivity.
Defined.

End RunnerGuardExamples.

(** ** Attestation and G4 *)

Section AttestationFacts.

Import Attestation.

Lemma append_if_nonempty (cond : bool) (msg : string) (issues : list string) :
  issues ≠ [] ∨ cond = true → append_if cond msg issues ≠ [].
Proof.
  unfold append_if. intros [H| ->].
  - destruct cond; [|exact H]. destruct issues; [done|discriminate].
  - destruct issues; discriminate.
Qed.

Lemma append_if_keeps (cond : bool) (msg : string) (issues : list string) :
  issues ≠ [] → append_if cond msg issues ≠ [].
Proof. intros H. apply append_if_nonempty. by left. Qed.

(** Equal [attestedBy] and [reviewedBy] always leave an issue. *)
Lemma same_signer_rejected (attestation_payload owners_payload : list (string * json)) :
  get "attestedBy" attestation_payload = get "reviewedBy" attestation_payload →
  ∃ issues, validate_attestation attestation_payload owners_payload = (false, issues)
            ∧ issues ≠ [].
Proof.
  intros Hsame. unfold validate_attestation.
  destruct (mode_valid (get "mode" attestation_payload)); cbn [negb].
  2: { eexists. split; [reflexivity|discriminate]. }
  rewrite <- Hsame.
  match goal with
  | |- ∃ issues, (bool_decide (?l = []), ?l) = _ ∧ _ =>
      assert (Hne : l ≠ []); [|exists l; split; [by rewrite bool_decide_eq_false_2|done]]
  end.
  do 3 apply append_if_keeps.
  destruct (as_str (get "attestedBy" attestation_payload)) as [a|] eqn:Ea.
  - apply append_if_nonempty. right. apply String.eqb_refl.
  - apply append_if_keeps, append_if_nonempty. right.
    unfold str_in. by rewrite Ea.
Qed.

(** C6. When [attestedBy] equals [reviewedBy], [validate_attestation]
    returns [passed = false] with at least one issue, whatever the owners
    and the other fields; G4, reading that attestation, returns status
    [policy_fail] with the single reason code
    HARD_HARD_GATE_CHECK_FAILED and those issues. *)
Theorem dual_control_enforced
    (attestation_payload owners_payload : list (string * json)) :
  get "attestedBy" attestation_payload = get "reviewedBy" attestation_payload →
  (validate_attestation attestation_payload owners_payload).1 = false
  ∧ (validate_attestation attestation_payload owners_payload).2 ≠ []
  ∧ ∀ path source_policy,
      is_Some (annotate_source_policy source_policy) →
      ∃ out,
        _gate_g4 (Found path (Some attestation_payload)) (Some owners_payload)
          (Some source_policy) = Some out
        ∧ status out = "policy_fail"
        ∧ reasonCodes out = ["HARD_HARD_GATE_CHECK_FAILED"]
        ∧ blockingIssues out = (validate_attestation attestation_payload owners_payload).2.
Proof.
  intros Hsame.
  destruct (same_signer_rejected attestation_payload owners_payload Hsame)
    as (issues & Hv & Hne).
  rewrite Hv. cbn [fst snd]. split; [reflexivity|]. split; [exact Hne|].
  intros path source_policy [extra Hextra].
  unfold _gate_g4. rewrite Hv, Hextra. eexists. split; [reflexivity|].
  cbn [status reasonCodes blockingIssues]. rewrite bool_decide_eq_false_2 by done.
  repeat split; reflexivity.
Qed.

End AttestationFacts.

Section AttestationExamples.

Import Attestation.

Definition two_owners : list (string * json) :=
  [ ("owners",
     JList [ JObj [("id", JStr "alice"); ("active", JBool true)];
             JObj [("id", JStr "bob"); ("active", JBool true)] ]) ].

Definition self_reviewed : list (string * json) :=
  [ ("mode", JStr "manual_attest");
    ("attestedBy", JStr "alice"); ("reviewedBy", JStr "alice");
    ("attestedAt", JStr "2026-02-01T10:00:00Z");
    ("reviewedAt", JStr "2026-02-01T11:00:00Z");
    ("scope", JList [JStr "release"]) ].

Lemma dual_control_enforced_witness :
  (validate_attestation self_reviewed two_owners).1 = false
  ∧ (validate_attestation self_reviewed two_owners).2 ≠ []
  ∧ ∃ out,
      _gate_g4 (Found "attestation.json" (Some self_reviewed)) (Some two_owners)
        (Some [("mode", JStr "normal")]) = Some out
      ∧ status out = "policy_fail"
      ∧ reasonCodes out = ["HARD_HARD_GATE_CHECK_FAILED"]
      ∧ blockingIssues out = (validate_attestation self_reviewed two_owners).2.
Proof.
  destruct (dual_control_enforced self_reviewed two_owners eq_refl) as (H1 & H2 & H3).
  split; [exact H1|]. split; [exact H2|].
  apply H3. vm_compute. eauto.
Defined.

(** Both signers are active owners and every other field is valid: the
    only issue is the dual-control one. *)
Example self_reviewed_issues :
  validate_attestation self_reviewed two_owners
  = (false, ["attestedBy must differ from reviewedBy"]).
Proof. vm_compute. reflexivity. Qed.

End AttestationExamples.

(** ** State-machine replay *)

Section ReplayFacts.

Import Replay.

(** What [conforms] asks of one line. *)
Definition line_ok (current : option string) (record : log_record) : Prop :=
  match coalesce_state (fields record) to_keys with
  | None => False
  | Some to_state =>
      to_state ∈ STATE_SET
      ∧ match coalesce_state (fields record) from_keys, current with
        | Some f, _ => to_state ∈ allowed_set f
        | None, Some f => to_state ∈ allowed_set f
        | None, None => True
        end
  end.


(** A state outside the alphabet has no row in the table. *)
Lemma allowed_set_unknown (f to_state : string) :
  f ∉ STATE_SET → to_state ∉ allowed_set f.
Proof.
  intros Hf. unfold allowed_set, ALLOWED_TRANSITIONS. cbn [list_to_map foldr fst snd].
  unfold STATE_SET in Hf.
  rewrite !lookup_insert_ne by (intros <-; apply Hf; set_solver).
  rewrite lookup_empty. cbn. set_solver.
Qed.

(** One iteration either accepts the line, leaving [errors] as it is and
    moving the running state, or appends one error. *)
Lemma step_spec st line_no record st' :
  step st line_no record = Some st' →
  (errors st' = errors st ∧ line_ok (current_state st) record
   ∧ current_state st' = coalesce_state (fields record) to_keys)
  ∨ (∃ e, errors st' = errors st ++ [e] ∧ ¬ line_ok (current_state st) record).
Proof.
  unfold step, line_ok.
  destruct (coalesce_state (fields record) to_keys) as [t|].
  2: { intros [= <-]. right. eexists. split; [reflexivity|tauto]. }
  destruct (decide (t ∈ STATE_SET)) as [Ht|Ht].
  2: { rewrite bool_decide_eq_false_2 by done. cbn [negb].
       intros [= <-]. right. eexists. split; [reflexivity|tauto]. }
  rewrite bool_decide_eq_true_2 by done. cbn [negb].
  assert (Hknown : ∀ f w l,
            (if negb (bool_decide (f ∈ STATE_SET))
             then Some (add_error st (UnknownFromState line_no f))
             else
               match check_timestamp st line_no (ts record) with
               | None => None
               | Some (warnings', last_ts') =>
                   let is_allowed := bool_decide (t ∈ allowed_set f) in
                   Some {| errors :=
                             if is_allowed then errors st
                             else errors st ++ [InvalidTransition line_no f t];
                           warnings := warnings';
                           transitions := w warnings' is_allowed;
                           current_state := Some t;
                           last_ts := l last_ts' |}
               end) = Some st' →
            (errors st' = errors st ∧ (t ∈ STATE_SET ∧ t ∈ allowed_set f)
             ∧ current_state st' = Some t)
            ∨ (∃ e, errors st' = errors st ++ [e]
                    ∧ ¬ (t ∈ STATE_SET ∧ t ∈ allowed_set f))).
  { intros f w l.
    destruct (decide (f ∈ STATE_SET)) as [Hf|Hf].
    2: { rewrite bool_decide_eq_false_2 by done. cbn [negb].
         intros [= <-]. right. eexists. split; [reflexivity|].
         intros [_ Ha]. by apply allowed_set_unknown in Ha. }
    rewrite bool_decide_eq_true_2 by done. cbn [negb].
    destruct (check_timestamp st line_no (ts record)) as [[w' l']|]; [|discriminate].
    cbv zeta. destruct (decide (t ∈ allowed_set f)) as [Ha|Ha].
    - rewrite bool_decide_eq_true_2 by done. intros [= <-]. left. cbn. tauto.
    - rewrite bool_decide_eq_false_2 by done. intros [= <-]. right. cbn.
      eexists. split; [reflexivity|tauto]. }
  destruct (coalesce_state (fields record) from_keys) as [f|].
  { apply (Hknown f
             (fun _ a => transitions st ++
                [ {| line := line_no; t_from := Some f; t_to := t; allowed := a;
                     event := get "event" (fields record) |} ])
             (fun l => l)). }
  destruct (current_state st) as [f|].
  { apply (Hknown f
             (fun _ a => transitions st ++
                [ {| line := line_no; t_from := Some f; t_to := t; allowed := a;
                     event := get "event" (fields record) |} ])
             (fun l => l)). }
  destruct (check_timestamp st line_no (ts record)) as [[w l]|]; [|discriminate].
  intros [= <-]. left. cbn. tauto.
Qed.


(** With comparable timestamps no iteration raises. *)
Lemma check_timestamp_total (aware : bool) st line_no (t : option tstamp) :
  (∀ b, last_ts st = Some b → is_aware b = aware) →
  (∀ a, t = Some a → is_aware a = aware) →
  ∃ w l, check_timestamp st line_no t = Some (w, l)
         ∧ ∀ b, l = Some b → is_aware b = aware.
Proof.
  intros Hlast Ht. unfold check_timestamp.
  destruct t as [a|]; [|eauto].
  destruct (last_ts st) as [b|]; [|eexists _, _; split; [reflexivity|]; intros ? [= <-]; eauto].
  specialize (Hlast b eq_refl). specialize (Ht a eq_refl).
  destruct a, b, aware; cbn in *; try discriminate;
    destruct (_ <? _)%Z; eexists _, _; (split; [reflexivity|]); by intros ? [= <-].
Qed.

Lemma step_total (aware : bool) st line_no record :
  (∀ b, last_ts st = Some b → is_aware b = aware) →
  (∀ a, ts record = Some a → is_aware a = aware) →
  ∃ st', step st line_no record = Some st'
         ∧ ∀ b, last_ts st' = Some b → is_aware b = aware.
Proof.
  intros Hlast Ht.
  destruct (check_timestamp_total aware st line_no (ts record) Hlast Ht)
    as (w & l & Hc & Hl).
  unfold step. rewrite Hc.
  repeat match goal with
         | |- context [match ?x with _ => _ end] => destruct x
         end; eexists; (split; [reflexivity|]); cbn; auto.
Qed.

Lemma replay_loop_total (aware : bool) records st :
  (∀ b, last_ts st = Some b → is_aware b = aware) →
  (∀ line_no record t, (line_no, record) ∈ records → ts record = Some t →
                       is_aware t = aware) →
  ∃ st', replay_loop st records = Some st'.
Proof.
  revert st. induction records as [|[line_no record] rest IH]; intros st Hlast Hts.
  - cbn. eauto.
  - cbn [replay_loop].
    destruct (step_total aware st line_no record Hlast) as (st1 & -> & Hlast1).
    { intros a. apply (Hts line_no). apply list_elem_of_here. }
    apply IH; [exact Hlast1|]. intros n r t Hin. apply (Hts n).
    by apply list_elem_of_further.
Qed.




End ReplayFacts.

Section ReplayExamples.

Import Replay.

Definition event_line (from_state to_state : string) (t : option tstamp) : log_line :=
  Entry {| fields := [("from", JStr from_state); ("to", JStr to_state)]; ts := t |}.

(** NORMAL -> NORMAL -> WATCH -> NORMAL, with a blank line in between. *)
Definition scenario_log : list log_line :=
  [ event_line "NORMAL" "NORMAL" (Some (Aware 100));
    Blank;
    event_line "NORMAL" "WATCH" (Some (Aware 200));
    event_line "WATCH" "NORMAL" (Some (Aware 300)) ].

(** The same with the second event stamped before the first. *)
Definition out_of_order_log : list log_line :=
  [ event_line "NORMAL" "NORMAL" (Some (Aware 200));
    event_line "NORMAL" "WATCH" (Some (Aware 100));
    event_line "WATCH" "NORMAL" (Some (Aware 300)) ].


(** Two valid events, the first stamped with a UTC offset
    ("2026-02-01T10:00:00Z"), the second without ("2026-02-01T10:05:00"). *)
Definition mixed_timestamps_log : list log_line :=
  [ event_line "NORMAL" "WATCH" (Some (Aware 0));
    event_line "WATCH" "NORMAL" (Some (Naive 300)) ].

Example scenario_report :
  let rep := (main false (Some scenario_log)).1 in
  valid rep = true ∧ finalState rep = Some "NORMAL" ∧ transitionCount rep = Some 3%nat
  ∧ (main false (Some scenario_log)).2 = 0%Z.
Proof. vm_compute. repeat split; reflexivity. Qed.

Example out_of_order_report :
  let rep := (main false (Some out_of_order_log)).1 in
  valid rep = true ∧ r_warnings rep = [OutOfOrder 2] ∧ r_errors rep = [].
Proof. vm_compute. repeat split; reflexivity. Qed.


(** A naive timestamp after an aware one: the comparison raises, the last
    handler of [main] reports a tool error, although both lines are
    allowed transitions. *)
Lemma mixed_timestamps_tool_error :
  main false (Some mixed_timestamps_log) = (failure_report ToolError, 3%Z).
Proof. vm_compute. reflexivity. Qed.

End ReplayExamples.

Section ReplayReport.

Import Replay.



End ReplayReport.

(** ** Migration compare *)

Section MigrationCompareFacts.

Import MigrationCompare.

Lemma flat_map_nil {A B} (f : A → list B) (l : list A) :
  flat_map f l = [] ↔ Forall (fun x => f x = []) l.
Proof.
  induction l as [|x l IH]; cbn [flat_map].
  - split; [constructor|reflexivity].
  - rewrite Forall_cons, <- IH. split.
    + intros H. by apply app_nil in H.
    + intros [-> ->]. reflexivity.
Qed.

Lemma isinstance_str (v : option json) : isinstance v TStr = true ↔ ∃ s, v = Some (JStr s).
Proof.
  destruct v as [[| | | |s| |]|]; cbn; split; try discriminate; eauto;
    intros [? [=]].
Qed.

Lemma isinstance_list (v : option json) :
  isinstance v TList = true ↔ ∃ l, v = Some (JList l).
Proof.
  destruct v as [[| | | | |l|]|]; cbn; split; try discriminate; eauto;
    intros [? [=]].
Qed.

Lemma isinstance_dict (v : option json) :
  isinstance v TDict = true ↔ ∃ d, v = Some (JObj d).
Proof.
  destruct v as [[| | | | | |d]|]; cbn; split; try discriminate; eauto;
    intros [? [=]].
Qed.

Lemma field_check_nil (name field : string) (t : py_type) (v : option json) :
  (if negb (isinstance v t) then [FieldType name field t (type_name v)] else []) = []
  ↔ isinstance v t = true.
Proof. destruct (isinstance v t); cbn; split; done. Qed.

Lemma no_non_string (items : list json) :
  List.filter (fun item => negb (is_json_str item)) items = []
  ↔ Forall (fun item => ∃ s, item = JStr s) items.
Proof.
  induction items as [|item rest IH]; cbn [List.filter].
  - split; [constructor|reflexivity].
  - rewrite Forall_cons, <- IH.
    destruct item as [| | | |s| |]; cbn [is_json_str negb];
      try (split; [discriminate|intros [[? H] _]; discriminate H]).
    split; [intros H; split; eauto|intros [_ H]; exact H].
Qed.

(** The validation accepts exactly the payloads with the eleven checked
    fields well typed, a result in the enumeration and string reason
    codes. *)
Lemma validate_verdict_payload_nil (name : string) (payload : list (string * json)) :
  validate_verdict_payload name payload = [] ↔ checked_fields_ok payload.
Proof.
  unfold validate_verdict_payload, checked_fields_ok, has_str.
  set (fm := flat_map _ required).
  assert (Hfm : fm = [] ↔
            (∃ s, get "version" payload = Some (JStr s))
            ∧ (∃ s, get "generatedAt" payload = Some (JStr s))
            ∧ (∃ s, get "runId" payload = Some (JStr s))
            ∧ (∃ s, get "result" payload = Some (JStr s))
            ∧ (∃ s, get "decisionWeight" payload = Some (JStr s))
            ∧ (∃ l, get "reasonCodes" payload = Some (JList l))
            ∧ (∃ s, get "profileHash" payload = Some (JStr s))
            ∧ (∃ s, get "thresholdsHash" payload = Some (JStr s))
            ∧ (∃ s, get "statisticsLockHash" payload = Some (JStr s))
            ∧ (∃ s, get "registryVersion" payload = Some (JStr s))
            ∧ (∃ d, get "metricVersions" payload = Some (JObj d))).
  { subst fm. rewrite flat_map_nil. unfold required.
    rewrite !Forall_cons, Forall_nil, !field_check_nil,
      !isinstance_str, isinstance_list, isinstance_dict. tauto. }
  clearbody fm.
  destruct (get "result" payload) as [[| | | |res| |]|] eqn:Hres;
    try (split; [intros H|intros H; exfalso];
         [ destruct (get "reasonCodes" payload) as [[| | | | |codes|]|];
           try (destruct (negb _); [by apply app_nil in H as [_ ?]|]);
           apply Hfm in H; destruct H as (_&_&_&[? [=]]&_)
         | destruct H as (_&_&_&[? [[=] _]]&_) ]; fail).
  destruct (decide (res ∈ result_enum)) as [Hin|Hnin].
  2: { rewrite bool_decide_eq_false_2 by done. cbn [negb]. split.
       - intros H. exfalso.
         destruct (get "reasonCodes" payload) as [[| | | | |codes|]|];
           try (destruct (negb _); [by apply app_nil in H as [_ ?]|]);
           by apply app_nil in H as [_ ?].
       - intros (_&_&_&(r & [= <-] & Hr)&_). done. }
  rewrite bool_decide_eq_true_2 by done. cbn [negb].
  destruct (get "reasonCodes" payload) as [[| | | | |codes|]|] eqn:Hcodes;
    try (rewrite Hfm; split; [intros (_&_&_&_&_&[? [=]]&_)|];
         intros (_&_&_&_&_&(? & [=] & _)&_); fail).
  destruct (decide (List.filter (fun item => negb (is_json_str item)) codes = []))
    as [Hf|Hf].
  - rewrite bool_decide_eq_true_2 by done. cbn [negb]. rewrite Hfm.
    apply no_non_string in Hf. split.
    + intros (?&?&?&?&?&?&?&?&?&?&?). repeat split; eauto.
    + intros (?&?&?&?&?&?&?&?&?&?&?). repeat split; eauto.
  - rewrite bool_decide_eq_false_2 by done. cbn [negb]. split.
    + intros H. by apply app_nil in H as [_ ?].
    + intros (_&_&_&_&_&(l & [= <-] & Hl)&_). by apply no_non_string in Hl.
Qed.

End MigrationCompareFacts.

Section MigrationCompareExit.

Import MigrationCompare.

Lemma get_eqb_str (key : string) (x y : list (string * json)) (a b : string) :
  get key x = Some (JStr a) → get key y = Some (JStr b) →
  (get_eqb key x y = true ↔ get key x = get key y).
Proof.
  intros Hx Hy. unfold get_eqb. rewrite Hx, Hy. cbn. rewrite String.eqb_eq.
  split; [by intros ->|by intros [= ->]].
Qed.

Lemma field_issue_reported (name : string) (payload : list (string * json))
    (field : string) (t : py_type) :
  (field, t) ∈ required →
  isinstance (get field payload) t = false →
  FieldType name field t (type_name (get field payload))
  ∈ validate_verdict_payload name payload.
Proof.
  intros Hreq Hbad. unfold validate_verdict_payload.
  set (fm := flat_map _ required).
  assert (Hfm : FieldType name field t (type_name (get field payload)) ∈ fm).
  { subst fm. apply list_elem_of_In, in_flat_map. exists (field, t).
    split; [by apply list_elem_of_In|]. cbn. rewrite Hbad. cbn. by left. }
  clearbody fm.
  assert (Hkeep : ∀ (c : bool) (extra : issue) (l : list issue),
             FieldType name field t (type_name (get field payload)) ∈ l →
             FieldType name field t (type_name (get field payload))
             ∈ (if c then l ++ [extra] else l)).
  { intros c extra l Hl. destruct c; [apply elem_of_app; by left|exact Hl]. }
  destruct (get "result" payload) as [[| | | |res| |]|];
    destruct (get "reasonCodes" payload) as [[| | | | |codes|]|];
    repeat apply Hkeep; exact Hfm.
Qed.

(** C8 (amended). The compare checks, in each document, that version,
    generatedAt, runId, result, decisionWeight, profileHash,
    thresholdsHash, statisticsLockHash and registryVersion are strings,
    reasonCodes a list of strings, metricVersions an object and result
    one of the three verdict values ([blockingIssues] is not checked); it
    reports every ill-typed field by name; when a document fails it exits
    2 with [valid = false] and the errors; when both pass it exits 0 iff
    the results are equal and no reason code occurs only in the
    candidate, and 2 otherwise. *)
Theorem migration_compare_exit_codes :
  (∀ name payload,
     validate_verdict_payload name payload = [] ↔ checked_fields_ok payload)
  ∧ (∀ name payload field t,
       (field, t) ∈ required → isinstance (get field payload) t = false →
       FieldType name field t (type_name (get field payload))
       ∈ validate_verdict_payload name payload)
  ∧ (∀ baseline candidate,
       ¬ (checked_fields_ok baseline ∧ checked_fields_ok candidate) →
       let out := main (Some baseline) (Some candidate) in
       out.2 = 2%Z ∧ valid out.1 = false ∧ errors out.1 ≠ []
       ∧ errors out.1 = validate_verdict_payload "baseline" baseline
                        ++ validate_verdict_payload "candidate" candidate)
  ∧ (∀ baseline candidate,
       checked_fields_ok baseline → checked_fields_ok candidate →
       let out := main (Some baseline) (Some candidate) in
       valid out.1 = true ∧ errors out.1 = []
       ∧ (out.2 = 0%Z ↔ get "result" baseline = get "result" candidate
                         ∧ reason_set candidate ⊆ reason_set baseline)
       ∧ (out.2 ≠ 0%Z → out.2 = 2%Z))
  ∧ (∀ baseline_file candidate_file,
       baseline_file = None ∨ candidate_file = None →
       let out := main baseline_file candidate_file in
       out.2 = 2%Z ∧ valid out.1 = false ∧ errors out.1 = [InputLoadError]).
Proof.
  split; [exact validate_verdict_payload_nil|]. split; [exact field_issue_reported|].
  split; [|split].
  - intros baseline candidate Hbad. cbv zeta. unfold main.
    assert (Hne : validate_verdict_payload "baseline" baseline
                  ++ validate_verdict_payload "candidate" candidate ≠ []).
    { intros H. apply app_nil in H as [H1 H2]. apply Hbad.
      by rewrite <- (validate_verdict_payload_nil "baseline"),
                 <- (validate_verdict_payload_nil "candidate"). }
    rewrite bool_decide_eq_false_2 by exact Hne. cbn. done.
  - intros baseline candidate Hb Hc. cbv zeta. unfold main.
    pose proof Hb as Hb'. pose proof Hc as Hc'.
    apply (validate_verdict_payload_nil "baseline") in Hb'.
    apply (validate_verdict_payload_nil "candidate") in Hc'.
    rewrite Hb', Hc'. cbn [app]. rewrite bool_decide_eq_true_2 by done.
    cbn [negb fst snd valid errors].
    destruct Hb as (_&_&_&(rb & Hrb & _)&_). destruct Hc as (_&_&_&(rc & Hrc & _)&_).
    split; [reflexivity|]. split; [reflexivity|].
    unfold compare_verdicts. cbn [sameResult onlyInCandidate].
    rewrite <- (get_eqb_str "result" baseline candidate rb rc Hrb Hrc).
    destruct (get_eqb "result" baseline candidate); cbn [andb].
    + destruct (decide (reason_set candidate ∖ reason_set baseline = ∅)) as [He|He].
      * rewrite bool_decide_eq_true_2 by done. split; [|done].
        split; [intros _; split; [done|set_solver]|done].
      * rewrite bool_decide_eq_false_2 by done. split; [|done].
        split; [done|]. intros [_ Hsub]. exfalso. apply He. set_solver.
    + split; [|done]. split; [done|]. intros [[=] _].
  - intros bf cf [-> | ->]; cbv zeta; unfold main; [|destruct bf]; cbn; done.
Qed.

End MigrationCompareExit.

Section MigrationCompareExamples.

Import MigrationCompare.

(** A verdict document with every field that is checked, and no
    [blockingIssues]. *)
Definition verdict_without_issues : list (string * json) :=
  [ ("version", JStr "v2"); ("generatedAt", JStr "2026-02-01T10:00:00Z");
    ("runId", JStr "run-1"); ("result", JStr "NO_GO");
    ("decisionWeight", JStr "limited");
    ("reasonCodes", JList [JStr "HARD_THRESHOLD_BREACH"]);
    ("profileHash", JStr "p"); ("thresholdsHash", JStr "t");
    ("statisticsLockHash", JStr "s"); ("registryVersion", JStr "1");
    ("metricVersions", JObj []) ].

(** The same verdict with one more reason code. *)
Definition candidate_with_new_code : list (string * json) :=
  [ ("version", JStr "v2"); ("generatedAt", JStr "2026-02-02T10:00:00Z");
    ("runId", JStr "run-2"); ("result", JStr "NO_GO");
    ("decisionWeight", JStr "limited");
    ("reasonCodes", JList [JStr "HARD_THRESHOLD_BREACH"; JStr "HARD_METRIC_MISSING"]);
    ("profileHash", JStr "p"); ("thresholdsHash", JStr "t");
    ("statisticsLockHash", JStr "s"); ("registryVersion", JStr "1");
    ("metricVersions", JObj []) ].

Lemma verdict_without_issues_ok : checked_fields_ok verdict_without_issues.
Proof.
  unfold checked_fields_ok, has_str, verdict_without_issues. cbn.
  repeat split; eauto.
  all: eexists; (split; [reflexivity|]).
  all: first [ apply (bool_decide_unpack _); vm_compute; exact I
             | repeat constructor; eauto ].
Qed.

Lemma candidate_with_new_code_ok : checked_fields_ok candidate_with_new_code.
Proof.
  unfold checked_fields_ok, has_str, candidate_with_new_code. cbn.
  repeat split; eauto.
  all: eexists; (split; [reflexivity|]).
  all: first [ apply (bool_decide_unpack _); vm_compute; exact I
             | repeat constructor; eauto ].
Qed.

Lemma migration_compare_exit_codes_witness :
  let out := main (Some verdict_without_issues) (Some candidate_with_new_code) in
  valid out.1 = true ∧ errors out.1 = []
  ∧ (out.2 = 0%Z
     ↔ get "result" verdict_without_issues = get "result" candidate_with_new_code
       ∧ reason_set candidate_with_new_code ⊆ reason_set verdict_without_issues)
  ∧ (out.2 ≠ 0%Z → out.2 = 2%Z).
Proof.
  apply (proj1 (proj2 (proj2 (proj2 migration_compare_exit_codes)))).
  - exact verdict_without_issues_ok.
  - exact candidate_with_new_code_ok.
Defined.

(** C8, as stated, fails: a document without [blockingIssues] does not
    fit the verdict model, yet it passes the validation and the compare
    exits 0. *)
Lemma blocking_issues_not_validated :
  ¬ verdict_model_ok verdict_without_issues
  ∧ (main (Some verdict_without_issues) (Some verdict_without_issues)).2 = 0%Z
  ∧ valid (main (Some verdict_without_issues) (Some verdict_without_issues)).1 = true.
Proof.
  split; [|split; vm_compute; reflexivity].
  intros [_ [l Hl]]. vm_compute in Hl. discriminate Hl.
Qed.

(** Two objects that are no verdicts: exit 2, [valid = false], one error
    for each of the eleven fields of each document. *)
Example non_verdict_payloads_rejected :
  let out := main (Some [("foo", JStr "bar")]) (Some [("hello", JStr "world")]) in
  out.2 = 2%Z ∧ valid out.1 = false ∧ length (errors out.1) = 22%nat.
Proof. vm_compute. repeat split; reflexivity. Qed.

End MigrationCompareExamples.

(** ** Stress metric *)

Section StressMetricsFacts.

Import StressMetrics.

Local Open Scope Q_scope.








(** The values of [test_stress_metrics.py]. *)
Example stress_decline_values :
  stress_net_trim10_decline 100 85 == 15 # 100
  ∧ stress_net_trim10_decline 100 120 == 0
  ∧ stress_net_trim10_decline 0 0 == 0.
Proof. vm_compute. repeat split; reflexivity. Qed.

End StressMetricsFacts.


(** * Further properties of the modelled code *)

(** ** [_dedup] *)

Section DedupFacts.

Lemma dedup_into_NoDup (out values : list string) :
  NoDup out → NoDup (dedup_into out values).
Proof.
  revert out. induction values as [|v vs IH]; intros out Hout; cbn [dedup_into].
  - exact Hout.
  - case_bool_decide as Hin; apply IH; [exact Hout|].
    apply NoDup_app. split; [exact Hout|]. split.
    + intros x Hx Hx'. apply list_elem_of_singleton in Hx'. by subst.
    + apply NoDup_singleton.
Qed.

Lemma dedup_into_extends (out values : list string) :
  ∃ kept, dedup_into out values = out ++ kept ∧ kept `sublist_of` values.
Proof.
  revert out. induction values as [|v vs IH]; intros out; cbn [dedup_into].
  - exists []. by rewrite app_nil_r.
  - case_bool_decide as Hin.
    + destruct (IH out) as (kept & -> & Hsub). exists kept. split; [done|].
      by apply sublist_cons.
    + destruct (IH (out ++ [v])) as (kept & -> & Hsub). exists (v :: kept).
      split; [by rewrite <- app_assoc|]. by apply sublist_skip.
Qed.

Lemma dedup_into_fresh (out values : list string) :
  NoDup values → (∀ x, x ∈ values → x ∉ out) → dedup_into out values = out ++ values.
Proof.
  revert out. induction values as [|v vs IH]; intros out Hnd Hfresh; cbn [dedup_into].
  - by rewrite app_nil_r.
  - apply NoDup_cons in Hnd as [Hv Hnd].
    rewrite bool_decide_eq_false_2 by (apply Hfresh; apply list_elem_of_here).
    rewrite IH; [by rewrite <- app_assoc|exact Hnd|].
    intros x Hx Hin. apply elem_of_app in Hin as [Hin|Hin].
    + apply (Hfresh x); [by apply list_elem_of_further|exact Hin].
    + apply list_elem_of_singleton in Hin. by subst.
Qed.

Lemma NoDup__dedup (values : list string) : NoDup (_dedup values).
Proof. apply dedup_into_NoDup, NoDup_nil_2. Qed.

(** X1. [_dedup] returns a list without duplicates that has exactly the
    elements of its argument, keeps them in the order of the argument, and
    leaves an already deduplicated list unchanged. *)
Theorem dedup_first_occurrences (values : list string) :
  NoDup (_dedup values)
  ∧ (∀ x, x ∈ _dedup values ↔ x ∈ values)
  ∧ _dedup values `sublist_of` values
  ∧ _dedup (_dedup values) = _dedup values.
Proof.
  assert (Hnd : NoDup (_dedup values)) by apply NoDup__dedup.
  split; [exact Hnd|]. split; [intros x; apply elem_of__dedup|]. split.
  - unfold _dedup. destruct (dedup_into_extends [] values) as (kept & -> & Hsub).
    exact Hsub.
  - unfold _dedup at 1. rewrite dedup_into_fresh; [reflexivity|exact Hnd|].
    intros x _. apply not_elem_of_nil.
Qed.

End DedupFacts.

(** ** Verdict deriver *)

Section VerdictMoreFacts.

Import Verdict.

Definition RELEASE_BLOCKED : string := "HARD_RELEASE_GATE_BLOCKED".

(** The first override leaves the state alone or forces NO_GO. *)
Lemma apply_allowed_outputs_cases decision res reasons issues :
  apply_allowed_outputs decision (res, reasons, issues) = (res, reasons, issues)
  ∧ (∀ allowed, allowed_outputs decision = Some allowed → res ∈ allowed)
  ∨ apply_allowed_outputs decision (res, reasons, issues)
    = ("NO_GO", _dedup (reasons ++ [RELEASE_BLOCKED]),
       issues ++ ["result not in decision.allowed_outputs"])
    ∧ ∃ allowed, allowed_outputs decision = Some allowed ∧ res ∉ allowed.
Proof.
  unfold apply_allowed_outputs. destruct (allowed_outputs decision) as [allowed|].
  - case_bool_decide as Hin.
    + left. split; [reflexivity|]. by intros ? [= <-].
    + right. split; [reflexivity|]. eauto.
  - left. split; [reflexivity|]. intros ? [=].
Qed.

(** The second override leaves the state alone or forces
    BLOCKED_WITH_RECOVERY_PLAN. *)
Lemma apply_archive_only_cases policy res reasons issues :
  apply_archive_only policy (res, reasons, issues) = (res, reasons, issues)
  ∧ (mode policy = Some (JStr "archive_only") →
     ∀ allowed, archive_allowed_outputs policy = Some allowed → allowed ≠ [] →
                res ∈ allowed)
  ∨ apply_archive_only policy (res, reasons, issues)
    = ("BLOCKED_WITH_RECOVERY_PLAN", _dedup (reasons ++ [RELEASE_BLOCKED]),
       issues ++ ["archive_only forbids this verdict"])
    ∧ mode policy = Some (JStr "archive_only")
    ∧ ∃ allowed, archive_allowed_outputs policy = Some allowed ∧ allowed ≠ []
                 ∧ res ∉ allowed.
Proof.
  unfold apply_archive_only.
  destruct (mode policy) as [[| | | |s| |]|];
    try (left; split; [reflexivity|intros [=]]).
  destruct (decide (s = "archive_only")) as [->|Hne].
  - destruct (archive_allowed_outputs policy) as [allowed|]; cbn [default].
    + destruct (decide (allowed = [])) as [->|Hnil].
      * left. split; [reflexivity|]. intros _ ? [= <-] ?. done.
      * rewrite (bool_decide_eq_false_2 (allowed = [])) by done. cbn [negb andb].
        case_bool_decide as Hin; cbn [negb].
        -- left. split; [reflexivity|]. by intros _ ? [= <-] _.
        -- right. split; [reflexivity|]. split; [reflexivity|]. eauto.
    + left. split; [reflexivity|]. intros _ ? [=].
  - left. split.
    + repeat (destruct s as [|[[] [] [] [] [] [] [] []] s]; try reflexivity). done.
    + intros [= ->]. done.
Qed.

Lemma base_result_enum canonical_codes checkpoints :
  base_result canonical_codes checkpoints
  ∈ ["PAPER_ONLY_GO"; "NO_GO"; "BLOCKED_WITH_RECOVERY_PLAN"].
Proof.
  unfold base_result, pick_result.
  repeat match goal with |- context [if ?c then _ else _] => destruct c end;
    set_solver.
Qed.

(** The verdict in terms of the state the two overrides leave. *)
Lemma derive_verdict_state checkpoints decision policy canonical_codes :
  let st := apply_archive_only policy
              (apply_allowed_outputs decision
                 (base_result canonical_codes checkpoints,
                  checked_reasons canonical_codes checkpoints,
                  checked_issues canonical_codes checkpoints)) in
  let v := _derive_verdict checkpoints decision policy canonical_codes in
  result v = st.1.1 ∧ v_reasonCodes v = st.1.2 ∧ v_blockingIssues v = st.2.
Proof.
  cbv zeta. unfold _derive_verdict.
  destruct (apply_archive_only _ _) as [[res reasons] issues]. done.
Qed.

(** X2. The result of a derived verdict is always one of PAPER_ONLY_GO,
    NO_GO and BLOCKED_WITH_RECOVERY_PLAN, so its exit code is 0 or 2,
    never the tool-error code 3, and it is 0 exactly for PAPER_ONLY_GO. *)
Theorem verdict_result_enum
    (checkpoints : list checkpoint) (decision : decision_cfg)
    (policy : source_fallback_policy) (canonical_codes : gset string) :
  let v := _derive_verdict checkpoints decision policy canonical_codes in
  result v ∈ ["PAPER_ONLY_GO"; "NO_GO"; "BLOCKED_WITH_RECOVERY_PLAN"]
  ∧ (_exit_code_from_verdict (result v) = 0%Z ↔ result v = "PAPER_ONLY_GO")
  ∧ (result v ≠ "PAPER_ONLY_GO" → _exit_code_from_verdict (result v) = 2%Z).
Proof.
  cbv zeta.
  destruct (derive_verdict_state checkpoints decision policy canonical_codes)
    as (Hr & _ & _). cbv zeta in Hr.
  assert (Henum : result (_derive_verdict checkpoints decision policy canonical_codes)
                  ∈ ["PAPER_ONLY_GO"; "NO_GO"; "BLOCKED_WITH_RECOVERY_PLAN"]).
  { rewrite Hr.
    pose proof (base_result_enum canonical_codes checkpoints) as Hb.
    destruct (apply_allowed_outputs_cases decision
                (base_result canonical_codes checkpoints)
                (checked_reasons canonical_codes checkpoints)
                (checked_issues canonical_codes checkpoints)) as [[-> _]|[-> _]].
    - destruct (apply_archive_only_cases policy
                  (base_result canonical_codes checkpoints)
                  (checked_reasons canonical_codes checkpoints)
                  (checked_issues canonical_codes checkpoints)) as [[-> _]|[-> _]];
        cbn [fst]; [exact Hb|set_solver].
    - match goal with
      | |- (apply_archive_only _ (?r, ?c, ?i)).1.1 ∈ _ =>
          destruct (apply_archive_only_cases policy r c i) as [[-> _]|[-> _]]
      end; cbn [fst]; set_solver. }
  split; [exact Henum|].
  repeat (apply elem_of_cons in Henum as [->|Henum]);
    [| | |by apply elem_of_nil in Henum]; cbn; split; done.
Qed.

(** X3. The reason codes of a verdict have no duplicates and keep every
    code and every blocking issue reported by a checkpoint; whenever an
    override changes the result, the verdict carries
    HARD_RELEASE_GATE_BLOCKED and is NO_GO or BLOCKED_WITH_RECOVERY_PLAN. *)
Theorem verdict_reasons_complete
    (checkpoints : list checkpoint) (decision : decision_cfg)
    (policy : source_fallback_policy) (canonical_codes : gset string) :
  let v := _derive_verdict checkpoints decision policy canonical_codes in
  NoDup (v_reasonCodes v)
  ∧ (∀ code, code ∈ all_reasons_of checkpoints → code ∈ v_reasonCodes v)
  ∧ (∀ issue, issue ∈ all_issues_of checkpoints → issue ∈ v_blockingIssues v)
  ∧ (result v ≠ base_result canonical_codes checkpoints →
     RELEASE_BLOCKED ∈ v_reasonCodes v
     ∧ (result v = "NO_GO" ∨ result v = "BLOCKED_WITH_RECOVERY_PLAN")).
Proof.
  cbv zeta.
  destruct (derive_verdict_state checkpoints decision policy canonical_codes)
    as (Hr & Hc & Hi). cbv zeta in Hr, Hc, Hi. rewrite Hr, Hc, Hi. clear Hr Hc Hi.
  set (b := base_result canonical_codes checkpoints).
  set (cr := checked_reasons canonical_codes checkpoints).
  set (ci := checked_issues canonical_codes checkpoints).
  assert (Hcr_nd : NoDup cr).
  { subst cr. unfold checked_reasons.
    destruct (has_unknown _ _); apply NoDup__dedup. }
  assert (Hcr : ∀ code, code ∈ all_reasons_of checkpoints → code ∈ cr).
  { intros code Hin. subst cr. apply elem_of_checked_reasons. by left. }
  assert (Hci : ∀ issue, issue ∈ all_issues_of checkpoints → issue ∈ ci).
  { intros issue Hin. subst ci. unfold checked_issues.
    destruct (has_unknown _ _); [apply elem_of_app; left|]; by apply elem_of__dedup. }
  clearbody b cr ci.
  assert (Hd : ∀ l, NoDup (_dedup (l ++ [RELEASE_BLOCKED]))
                    ∧ RELEASE_BLOCKED ∈ _dedup (l ++ [RELEASE_BLOCKED])
                    ∧ ∀ x, x ∈ l → x ∈ _dedup (l ++ [RELEASE_BLOCKED])).
  { intros l. split; [apply NoDup__dedup|].
    split; [|intros x Hx]; apply elem_of__dedup, elem_of_app; [right|by left].
    apply list_elem_of_here. }
  destruct (apply_allowed_outputs_cases decision b cr ci) as [[-> _]|[-> _]].
  - destruct (apply_archive_only_cases policy b cr ci) as [[-> _]|[-> _]]; cbn [fst snd].
    + repeat split; try done.
    + destruct (Hd cr) as (H1 & H2 & H3). repeat split; auto.
      intros issue Hin. apply elem_of_app. left. auto.
  - destruct (Hd cr) as (H1 & H2 & H3).
    match goal with
    | |- context [apply_archive_only _ (?r, ?c, ?i)] =>
        destruct (apply_archive_only_cases policy r c i) as [[-> _]|[-> _]]
    end; cbn [fst snd].
    + repeat split; auto. intros issue Hin. apply elem_of_app. left. auto.
    + destruct (Hd (_dedup (cr ++ [RELEASE_BLOCKED]))) as (G1 & G2 & G3).
      repeat split; auto.
      intros issue Hin. apply elem_of_app. left. apply elem_of_app. left. auto.
Qed.

Lemma paper_only_go_inv
    (checkpoints : list checkpoint) (decision : decision_cfg)
    (policy : source_fallback_policy) (canonical_codes : gset string) :
  let v := _derive_verdict checkpoints decision policy canonical_codes in
  result v = "PAPER_ONLY_GO" →
  (∀ cp, cp ∈ checkpoints → status cp = "pass" ∨ status cp = "skipped")
  ∧ base_result canonical_codes checkpoints = "PAPER_ONLY_GO"
  ∧ v_reasonCodes v = checked_reasons canonical_codes checkpoints
  ∧ (∀ allowed, allowed_outputs decision = Some allowed → "PAPER_ONLY_GO" ∈ allowed).
Proof.
  cbv zeta.
  destruct (derive_verdict_state checkpoints decision policy canonical_codes)
    as (Hr & Hc & _). cbv zeta in Hr, Hc. rewrite Hr, Hc. clear Hr Hc.
  set (b := base_result canonical_codes checkpoints).
  assert (Hb : b = "PAPER_ONLY_GO" →
               ∀ cp, cp ∈ checkpoints → status cp = "pass" ∨ status cp = "skipped").
  { subst b. unfold base_result, pick_result.
    destruct (existsb (String.eqb STATUS_TOOL_ERROR) _); [discriminate|].
    destruct (existsb (String.eqb STATUS_POLICY_FAIL) _).
    { destruct (existsb _ _); discriminate. }
    destruct (forallb _ _) eqn:Hall; [|discriminate]. intros _ cp Hcp.
    rewrite forallb_forall in Hall.
    specialize (Hall (status cp)). rewrite orb_true_iff, !String.eqb_eq in Hall.
    apply Hall. unfold statuses_of. apply in_map. by apply list_elem_of_In. }
  clearbody b.
  destruct (apply_allowed_outputs_cases decision b
              (checked_reasons canonical_codes checkpoints)
              (checked_issues canonical_codes checkpoints)) as [[-> Hall]|[-> _]].
  - destruct (apply_archive_only_cases policy b
                (checked_reasons canonical_codes checkpoints)
                (checked_issues canonical_codes checkpoints)) as [[-> _]|[-> _]];
      cbn [fst snd]; [|discriminate].
    intros ->. repeat split; auto.
  - match goal with
    | |- context [apply_archive_only _ (?r, ?c, ?i)] =>
        destruct (apply_archive_only_cases policy r c i) as [[-> _]|[-> _]]
    end; cbn [fst snd]; discriminate.
Qed.

Lemma verdict_reasons_complete_witness :
  let v := _derive_verdict all_pass {| allowed_outputs := Some ["NO_GO"] |}
             no_fallback some_codes in
  RELEASE_BLOCKED ∈ v_reasonCodes v
  ∧ (result v = "NO_GO" ∨ result v = "BLOCKED_WITH_RECOVERY_PLAN").
Proof.
  apply (verdict_reasons_complete all_pass {| allowed_outputs := Some ["NO_GO"] |}
           no_fallback some_codes).
  vm_compute. discriminate.
Defined.

(** X4. A verdict is PAPER_ONLY_GO only when every checkpoint has status
    [pass] or [skipped], no override fired, and PAPER_ONLY_GO is permitted
    by [decision.allowed_outputs] (when that is a list). *)
Theorem paper_only_go_is_clean
    (checkpoints : list checkpoint) (decision : decision_cfg)
    (policy : source_fallback_policy) (canonical_codes : gset string) :
  let v := _derive_verdict checkpoints decision policy canonical_codes in
  result v = "PAPER_ONLY_GO" →
  (∀ cp, cp ∈ checkpoints → status cp = "pass" ∨ status cp = "skipped")
  ∧ base_result canonical_codes checkpoints = "PAPER_ONLY_GO"
  ∧ v_reasonCodes v = checked_reasons canonical_codes checkpoints
  ∧ (∀ allowed, allowed_outputs decision = Some allowed → "PAPER_ONLY_GO" ∈ allowed).
Proof. exact (paper_only_go_inv checkpoints decision policy canonical_codes). Qed.

Lemma paper_only_go_is_clean_witness :
  (∀ cp, cp ∈ all_pass → status cp = "pass" ∨ status cp = "skipped")
  ∧ base_result some_codes all_pass = "PAPER_ONLY_GO"
  ∧ v_reasonCodes (_derive_verdict all_pass no_override no_fallback some_codes)
    = checked_reasons some_codes all_pass
  ∧ (∀ allowed, allowed_outputs no_override = Some allowed → "PAPER_ONLY_GO" ∈ allowed).
Proof.
  apply (paper_only_go_is_clean all_pass no_override no_fallback some_codes).
  vm_compute. reflexivity.
Defined.

End VerdictMoreFacts.

(** ** Gate supervisor: the trace of a run *)

Section RetryTraceFacts.

Import Retry.

Variable str_other : json -> string.

Abbreviation attempt_status' := (attempt_status str_other).
Abbreviation attempts_loop' := (attempts_loop str_other).


(** The attempt numbers of the checkpoints written, in order. *)
Definition written (trace : list event) : list nat :=
  omap (fun e => match e with Wrote a _ => Some a | Slept _ => None end) trace.










(** X6. The checkpoint the supervisor returns has status [pass] iff some
    attempt passed, and a passing attempt is always the last one made. *)
Theorem retry_returns_pass_iff
    (profile : list (string * json)) (gate : string)
    (gate_fn : nat -> attempt_result) :
  let made := attempt_statuses (_run_gate_with_retry str_other profile gate gate_fn) in
  (last made = Some "pass" ↔ "pass" ∈ made)
  ∧ (∀ k, made !! k = Some "pass" → length made = S k).
Proof.
  cbv zeta. unfold _run_gate_with_retry.
  destruct (_gate_retry_cfg profile gate) as [max_retries interval].
  set (total := (1 + Z.to_nat max_retries)%nat).
  pose proof (attempts_loop_spec str_other (retry_statuses_of str_other profile)
                total interval gate_fn total 1) as (_ & _ & Hat). cbv zeta in Hat.
  set (made := attempt_statuses _) in *.
  assert (Hlast : ∀ k, made !! k = Some "pass" → length made = S k).
  { intros k Hk. destruct (Hat k "pass" Hk) as (_ & Hnext).
    apply lookup_lt_Some in Hk as Hlt.
    destruct (decide (S k < length made)%nat) as [Hmore|]; [|lia].
    apply lookup_lt_is_Some_2, Hnext in Hmore. tauto. }
  split; [|exact Hlast]. split.
  - intros Hl. rewrite last_lookup in Hl. by apply list_elem_of_lookup_2 in Hl.
  - intros Hin. apply list_elem_of_lookup in Hin as [k Hk].
    rewrite last_lookup, (Hlast k Hk). exact Hk.
Qed.

End RetryTraceFacts.

Section RetryTraceExamples.

Import Retry.

Lemma retry_returns_pass_iff_witness :
  length (attempt_statuses (_run_gate_with_retry str_unused retry_profile "G3" flaky_gate))
  = 2%nat.
Proof.
  apply (proj2 (retry_returns_pass_iff str_unused retry_profile "G3" flaky_gate) 1%nat).
  reflexivity.
Defined.

(** The run of [flaky_gate]: a timeout, five seconds of sleep, a pass. *)
Example flaky_gate_trace :
  _run_gate_with_retry str_unused retry_profile "G3" flaky_gate
  = [Wrote 1 "tool_error"; Slept 5; Wrote 2 "pass"].
Proof. vm_compute. reflexivity. Qed.

End RetryTraceExamples.

(** ** The pipeline of the supervisor *)

Section SupervisorFacts.

Import Supervisor.

(** X7. The per-attempt timeout of a gate is a positive whole number of
    minutes in seconds: 3600 unless [timeouts_minutes.<gate>] is a
    positive integer, and then that many minutes. *)
Theorem gate_timeout_positive (profile : list (string * json)) (gate : string) :
  let t := _gate_timeout_seconds profile gate in
  (60 ≤ t)%Z ∧ (t mod 60 = 0)%Z
  ∧ (as_dict (get "timeouts_minutes" profile) = None → t = 3600%Z)
  ∧ (∀ timeouts, as_dict (get "timeouts_minutes" profile) = Some timeouts →
       (get gate timeouts = None → t = 3600%Z)
       ∧ (∀ raw, get gate timeouts = Some (JInt raw) →
            t = (if (0 <? raw)%Z then raw * 60 else 3600)%Z)).
Proof.
  cbv zeta. unfold _gate_timeout_seconds.
  destruct (as_dict (get "timeouts_minutes" profile)) as [timeouts|].
  - assert (Hv : ∀ v, (1 ≤ match v with
                           | Some (JInt raw) => if (0 <? raw)%Z then raw else 60%Z
                           | Some (JBool true) => 1%Z
                           | _ => 60%Z
                           end)%Z).
    { intros [[| [] |raw| | | |]|]; try lia. destruct (Z.ltb_spec 0 raw); lia. }
    specialize (Hv (get gate timeouts)).
    split; [lia|]. split; [apply Z_mod_mult|]. split; [done|].
    intros ? [= <-]. split.
    + by intros ->.
    + intros raw ->. by destruct (0 <? raw)%Z.
  - repeat split; try done.
Qed.

Lemma gate_timeout_positive_witness :
  _gate_timeout_seconds [("timeouts_minutes", JObj [("G3", JInt 90)])] "G1" = 3600%Z.
Proof.
  pose proof (gate_timeout_positive [("timeouts_minutes", JObj [("G3", JInt 90)])] "G1")
    as (_ & _ & _ & H).
  apply (H [("G3", JInt 90)]); reflexivity.
Defined.

Definition SKIP_REASON : string := "skipped because previous gate failed".

Definition executed (run : string -> gate_run) (gate : string) : Verdict.checkpoint :=
  checkpoint_of_run gate (run gate).

Definition skipped (gate : string) : Verdict.checkpoint :=
  _build_skipped_checkpoint gate SKIP_REASON.

Lemma run_chain_cons (run : string -> gate_run) (gate : string) (rest : list string) :
  run_chain run (gate :: rest)
  = executed run gate
    :: (if String.eqb (last_status (run gate)) "pass" then run_chain run rest else []).
Proof. reflexivity. Qed.

(** The checkpoints of a run, by the number of gates executed. *)
Lemma pipeline_checkpoints_cases (run : string -> gate_run) :
  ∃ n, (1 ≤ n ≤ 5)%nat
       ∧ pipeline_checkpoints run
         = map (executed run) (take n GATES) ++ map skipped (drop n GATES)
       ∧ (∀ gate, gate ∈ take (n - 1) GATES → last_status (run gate) = "pass")
       ∧ (∀ gate, (n < 5)%nat → GATES !! (n - 1)%nat = Some gate →
                  last_status (run gate) ≠ "pass").
Proof.
  unfold pipeline_checkpoints, GATES. rewrite !run_chain_cons.
  destruct (String.eqb (last_status (run "G0")) "pass") eqn:E0;
    [destruct (String.eqb (last_status (run "G1")) "pass") eqn:E1;
     [destruct (String.eqb (last_status (run "G2")) "pass") eqn:E2;
      [destruct (String.eqb (last_status (run "G3")) "pass") eqn:E3|]|]|].
  1: replace (if String.eqb (last_status (run "G4")) "pass" then run_chain run [] else [])
       with (@nil Verdict.checkpoint)
       by (destruct (String.eqb (last_status (run "G4")) "pass"); reflexivity).
  1: exists 5%nat. 2: exists 4%nat. 3: exists 3%nat. 4: exists 2%nat. 5: exists 1%nat.
  all: rewrite ?String.eqb_eq, ?String.eqb_neq in *.
  all: split; [lia|]; split; [reflexivity|]; split.
  all: try (intros gate Hin; cbn in Hin;
            repeat (apply elem_of_cons in Hin as [->|Hin]; [assumption|]);
            by apply elem_of_nil in Hin).
  all: intros gate Hlt Hg; try lia; cbn in Hg; injection Hg as <-; assumption.
Qed.

(** X8. The checkpoints handed to the verdict deriver are always five,
    one per gate in the order G0..G4: the last checkpoint of each gate
    executed, then a [skipped] checkpoint (attempt 1, no reason code, one
    blocking issue) for each gate not executed; every executed gate but
    the last one passed, and when a gate is skipped the last executed gate
    did not pass. *)
Theorem pipeline_shape (run : string -> gate_run) :
  let cps := pipeline_checkpoints run in
  map Verdict.gate cps = GATES
  ∧ ∃ n, (1 ≤ n ≤ 5)%nat
         ∧ cps = map (executed run) (take n GATES) ++ map skipped (drop n GATES)
         ∧ (∀ gate, gate ∈ take (n - 1) GATES → last_status (run gate) = "pass")
         ∧ (∀ gate, (n < 5)%nat → GATES !! (n - 1)%nat = Some gate →
                    last_status (run gate) ≠ "pass")
         ∧ (∀ cp, cp ∈ map skipped (drop n GATES) →
                  Verdict.status cp = "skipped" ∧ Verdict.attempt cp = 1%nat
                  ∧ Verdict.reasonCodes cp = []
                  ∧ Verdict.blockingIssues cp = [SKIP_REASON]).
Proof.
  cbv zeta. destruct (pipeline_checkpoints_cases run) as (n & Hn & -> & Hpass & Hfail).
  split.
  - rewrite map_app, !map_map. cbn [executed skipped checkpoint_of_run
      _build_skipped_checkpoint _build_checkpoint Verdict.gate].
    rewrite !map_id, take_drop. reflexivity.
  - exists n. repeat split; try done; try lia.
    all: apply list_elem_of_In, in_map_iff in H as (g & <- & _); reflexivity.
Qed.

(** X9. When no gate function answers [skipped], a verdict
    PAPER_ONLY_GO means that all five gates were executed and passed;
    conversely, with no override configured, five passing gates give
    PAPER_ONLY_GO and exit code 0. *)
Theorem pipeline_go_iff_all_pass
    (run : string -> gate_run) (decision : Verdict.decision_cfg)
    (policy : Verdict.source_fallback_policy) (canonical_codes : gset string) :
  (∀ gate, gate ∈ GATES → last_status (run gate) ≠ "skipped") →
  let v := Verdict._derive_verdict (pipeline_checkpoints run) decision policy
             canonical_codes in
  (Verdict.result v = "PAPER_ONLY_GO" →
   ∀ gate, gate ∈ GATES → last_status (run gate) = "pass")
  ∧ (Verdict.allowed_outputs decision = None →
     Verdict.mode policy ≠ Some (JStr "archive_only") →
     (∀ gate, gate ∈ GATES → last_status (run gate) = "pass") →
     Verdict.result v = "PAPER_ONLY_GO"
     ∧ pipeline_exit run decision policy canonical_codes = 0%Z).
Proof.
  intros Hns. cbv zeta. split.
  - intros Hgo.
    destruct (paper_only_go_inv _ _ _ _ Hgo) as (Hclean & _).
    destruct (pipeline_checkpoints_cases run) as (n & Hn & Hcps & Hpass & Hfail).
    rewrite Hcps in Hclean.
    assert (Hexec : ∀ gate, gate ∈ take n GATES → last_status (run gate) = "pass").
    { intros gate Hin.
      destruct (Hclean (executed run gate)) as [Hs|Hs].
      - apply elem_of_app. left. apply list_elem_of_In, in_map. by apply list_elem_of_In.
      - exact Hs.
      - exfalso. apply (Hns gate); [|exact Hs].
        apply elem_of_take in Hin as (i & Hi & _). by apply list_elem_of_lookup_2 in Hi. }
    destruct (decide (n = 5)%nat) as [->|Hn5]; [exact Hexec|].
    exfalso.
    assert (Hlast : is_Some (GATES !! (n - 1)%nat)).
    { apply lookup_lt_is_Some. cbn. lia. }
    destruct Hlast as [gate Hg].
    apply (Hfail gate); [lia|exact Hg|]. apply Hexec.
    apply list_elem_of_lookup. exists (n - 1)%nat. rewrite lookup_take_lt by lia. exact Hg.
  - intros Hd Hm Hall.
    assert (Hres : Verdict.result
                     (Verdict._derive_verdict (pipeline_checkpoints run) decision policy
                        canonical_codes) = "PAPER_ONLY_GO").
    { destruct (derive_verdict_state (pipeline_checkpoints run) decision policy
                  canonical_codes) as (Hr & _ & _). cbv zeta in Hr. rewrite Hr.
      destruct (apply_allowed_outputs_cases decision
                  (Verdict.base_result canonical_codes (pipeline_checkpoints run))
                  (Verdict.checked_reasons canonical_codes (pipeline_checkpoints run))
                  (Verdict.checked_issues canonical_codes (pipeline_checkpoints run)))
        as [[-> _]|[_ (a & Ha & _)]]; [|congruence].
      destruct (apply_archive_only_cases policy
                  (Verdict.base_result canonical_codes (pipeline_checkpoints run))
                  (Verdict.checked_reasons canonical_codes (pipeline_checkpoints run))
                  (Verdict.checked_issues canonical_codes (pipeline_checkpoints run)))
        as [[-> _]|[_ (Hm' & _)]]; [|congruence].
      cbn [fst].
      destruct (pipeline_checkpoints_cases run) as (n & Hn & Hcps & _ & Hfail).
      assert (n = 5%nat) as ->.
      { destruct (decide (n = 5)%nat) as [|Hn5]; [done|]. exfalso.
        assert (Hlast : is_Some (GATES !! (n - 1)%nat)).
        { apply lookup_lt_is_Some. cbn. lia. }
        destruct Hlast as [gate Hg]. apply (Hfail gate); [lia|exact Hg|].
        apply Hall. by apply list_elem_of_lookup_2 in Hg. }
      unfold Verdict.base_result, Verdict.pick_result, Verdict.statuses_of.
      rewrite Hcps. cbn [take drop GATES map app executed checkpoint_of_run
        _build_checkpoint Verdict.status].
      rewrite !Hall by (unfold GATES; set_solver). reflexivity. }
    split; [exact Hres|]. unfold pipeline_exit. rewrite Hres. reflexivity.
Qed.

End SupervisorFacts.

Section SupervisorExamples.

Import Supervisor.

(** G0 and G1 pass, G2 fails on its second attempt. *)
Definition g2_fails (gate : string) : gate_run :=
  if String.eqb gate "G2" then
    {| attempts_made := 2; last_status := "policy_fail";
       reason_codes := ["HARD_THRESHOLD_BREACH"];
       blocking_issues := ["card_count below threshold: 1 < 3"];
       attestation_obj := None |}
  else
    {| attempts_made := 1; last_status := "pass"; reason_codes := [];
       blocking_issues := []; attestation_obj := None |}.

Definition all_gates_pass (gate : string) : gate_run :=
  {| attempts_made := 1; last_status := "pass"; reason_codes := [];
     blocking_issues := []; attestation_obj := None |}.

Example g2_fails_statuses :
  map Verdict.status (pipeline_checkpoints g2_fails)
  = ["pass"; "pass"; "policy_fail"; "skipped"; "skipped"]
  ∧ pipeline_exit g2_fails no_override no_fallback some_codes = 2%Z.
Proof. vm_compute. split; reflexivity. Qed.

Lemma pipeline_go_iff_all_pass_witness :
  Verdict.result
    (Verdict._derive_verdict (pipeline_checkpoints all_gates_pass) no_override
       no_fallback some_codes) = "PAPER_ONLY_GO"
  ∧ pipeline_exit all_gates_pass no_override no_fallback some_codes = 0%Z.
Proof.
  apply (pipeline_go_iff_all_pass all_gates_pass no_override no_fallback some_codes).
  - intros gate _. discriminate.
  - reflexivity.
  - discriminate.
  - intros gate _. reflexivity.
Defined.

End SupervisorExamples.

(** ** Runner guard: bounds, recovery and the two entry points *)

Section RunnerGuardMoreFacts.

Import RunnerGuard.

Local Open Scope Q_scope.





(** X11. In enforced mode the next state is always one of [closed],
    [open], [half_open], whatever string was persisted; it is [open]
    exactly on a breach; issues are reported exactly on a breach; and two
    evaluations in a row without breach end in [closed] from any state. *)
Theorem guard_enforced_recovery
    (p : policy) (previous_state : string) (r1 r2 : rates) :
  mode_of p ≠ "learning" →
  let s1 := (transition_state previous_state p r1).1 in
  let s2 := (transition_state s1 p r2).1 in
  s1 ∈ ["closed"; "open"; "half_open"]
  ∧ (s1 = "open" ↔ breach p r1)
  ∧ ((transition_state previous_state p r1).2 = [] ↔ ¬ breach p r1)
  ∧ (¬ breach p r1 → ¬ breach p r2 → s2 = "closed").
Proof.
  intros Hmode. apply String.eqb_neq in Hmode.
  assert (Hstep : ∀ prev r,
            (breach p r ∧ transition_state prev p r = ("open", [ThresholdBreach (failRate r) (timeoutRate r)]))
            ∨ (¬ breach p r
               ∧ transition_state prev p r
                 = (if String.eqb prev "open" then "half_open" else "closed", []))).
  { intros prev r.
    assert (Hb : Qgtb (failRate r) (fail_rate_max_of p)
                 || Qgtb (timeoutRate r) (timeout_rate_max_of p) = true ↔ breach p r).
    { unfold breach. rewrite orb_true_iff, !Qgtb_true. reflexivity. }
    unfold transition_state. rewrite Hmode.
    unfold fail_rate_max_of, timeout_rate_max_of in Hb.
    unfold STATE_CLOSED, STATE_OPEN, STATE_HALF_OPEN.
    destruct (thresholds p) as [th|]; cbn [default failRateMax timeoutRateMax] in *;
      (destruct (Qgtb (failRate r) _ || Qgtb (timeoutRate r) _) eqn:E;
       [left; split; [by apply Hb|];
        by destruct (String.eqb prev "closed" || String.eqb prev "open"
                     || String.eqb prev "half_open"), (String.eqb _ "half_open")
       |right; split; [intros Hbr; apply Hb in Hbr; discriminate|]]).
    all: destruct (String.eqb prev "closed") eqn:Ec; cbn [orb];
      [apply String.eqb_eq in Ec; subst prev; reflexivity|].
    all: destruct (String.eqb prev "open") eqn:Eo; cbn [orb];
      [apply String.eqb_eq in Eo; subst prev; reflexivity|].
    all: destruct (String.eqb prev "half_open") eqn:Eh;
      [apply String.eqb_eq in Eh; subst prev; reflexivity|reflexivity]. }
  cbv zeta.
  destruct (Hstep previous_state r1) as [[Hb1 ->]|[Hn1 ->]]; cbn [fst snd].
  - split; [set_solver|]. split; [tauto|]. split; [split; [discriminate|tauto]|tauto].
  - split; [destruct (String.eqb previous_state "open"); set_solver|].
    split; [split; [|tauto]; by destruct (String.eqb previous_state "open")|].
    split; [tauto|]. intros _ Hn2.
    destruct (Hstep (if String.eqb previous_state "open" then "half_open" else "closed") r2)
      as [[Hb2 _]|[_ ->]]; [tauto|]. cbn [fst].
    by destruct (String.eqb previous_state "open").
Qed.

Lemma guard_enforced_recovery_witness :
  (transition_state (transition_state "open" enforced_policy (compute_rates [])).1
     enforced_policy (compute_rates [])).1 = "closed".
Proof.
  apply (guard_enforced_recovery enforced_policy "open").
  - vm_compute. discriminate.
  - intros [H|H]; vm_compute in H; discriminate H.
  - intros [H|H]; vm_compute in H; discriminate H.
Defined.

End RunnerGuardMoreFacts.

Section RunnerGuardEntryPoints.

Import RunnerGuard RunnerGuardMain.




End RunnerGuardEntryPoints.

(** ** Attestation: the allowlist, acceptance and G4 *)

Section AttestationMoreFacts.

Import Attestation.





Lemma append_if_nil (cond : bool) (msg : string) (issues : list string) :
  append_if cond msg issues = [] ↔ cond = false ∧ issues = [].
Proof.
  unfold append_if. destruct cond.
  - split; [intros H; by apply app_nil in H as [_ ?]|intros [[=] _]].
  - tauto.
Qed.

(** What [validate_attestation] accepts. *)
Definition acceptable (attestation_payload owners_payload : list (string * json)) : Prop :=
  mode_valid (get "mode" attestation_payload) = true
  ∧ (∃ a r, get "attestedBy" attestation_payload = Some (JStr a)
            ∧ get "reviewedBy" attestation_payload = Some (JStr r)
            ∧ a ∈ active_owner_ids owners_payload
            ∧ r ∈ active_owner_ids owners_payload
            ∧ a ≠ r)
  ∧ (∃ s, get "attestedAt" attestation_payload = Some (JStr s))
  ∧ (∃ s, get "reviewedAt" attestation_payload = Some (JStr s))
  ∧ (∃ x l, get "scope" attestation_payload = Some (JList (x :: l))).

Lemma is_str_true (v : option json) : is_str v = true ↔ ∃ s, v = Some (JStr s).
Proof.
  destruct v as [[| | | |s| |]|]; cbn; split; try discriminate; eauto;
    intros [? [=]].
Qed.

Lemma nonempty_list_true (v : option json) :
  nonempty_list v = true ↔ ∃ x l, v = Some (JList (x :: l)).
Proof.
  destruct v as [[| | | | |[|x l]|]|]; cbn; split; try discriminate; eauto;
    intros (? & ? & [=]).
Qed.

Lemma validate_attestation_accepts
    (attestation_payload owners_payload : list (string * json)) :
  validate_attestation attestation_payload owners_payload = (true, [])
  ↔ acceptable attestation_payload owners_payload.
Proof.
  unfold validate_attestation, acceptable.
  destruct (mode_valid (get "mode" attestation_payload)); cbn [negb].
  2: { split; [discriminate|intros [[=] _]]. }
  set (allowed := active_owner_ids owners_payload).
  match goal with
  | |- (bool_decide (?l = []), ?l) = _ ↔ _ =>
      assert (Hl : l = [] ↔
                str_in (get "attestedBy" attestation_payload) allowed = true
                ∧ str_in (get "reviewedBy" attestation_payload) allowed = true
                ∧ (∀ a r, as_str (get "attestedBy" attestation_payload) = Some a →
                          as_str (get "reviewedBy" attestation_payload) = Some r →
                          String.eqb a r = false)
                ∧ is_str (get "attestedAt" attestation_payload) = true
                ∧ is_str (get "reviewedAt" attestation_payload) = true
                ∧ nonempty_list (get "scope" attestation_payload) = true);
      [|transitivity (l = [])]
  end.
  - assert (Hq : (∀ a r, as_str (get "attestedBy" attestation_payload) = Some a →
                          as_str (get "reviewedBy" attestation_payload) = Some r →
                          String.eqb a r = false)
                 ↔ match as_str (get "attestedBy" attestation_payload),
                         as_str (get "reviewedBy" attestation_payload) with
                   | Some a, Some r => String.eqb a r = false
                   | _, _ => True
                   end).
    { destruct (as_str (get "attestedBy" attestation_payload)) as [a|],
               (as_str (get "reviewedBy" attestation_payload)) as [r|];
        split; auto; try (intros _ ? ? ?; congruence).
      intros H ? ? [= <-] [= <-]. exact H. }
    rewrite Hq. clear Hq.
    destruct (as_str (get "attestedBy" attestation_payload)) as [a|],
             (as_str (get "reviewedBy" attestation_payload)) as [r|];
      rewrite !append_if_nil, !negb_false_iff; intuition auto.
  - split.
    + intros [= _ H]. exact H.
    + intros ->. reflexivity.
  - rewrite Hl, !is_str_true, nonempty_list_true. unfold str_in.
    split.
    + intros (Ha & Hr & Hne & Hat & Hrt & Hs). split; [reflexivity|].
      split; [|done].
      destruct (get "attestedBy" attestation_payload) as [[| | | |a| |]|];
        try discriminate Ha.
      destruct (get "reviewedBy" attestation_payload) as [[| | | |r| |]|];
        try discriminate Hr.
      cbn in Ha, Hr, Hne. apply bool_decide_eq_true in Ha, Hr.
      exists a, r. repeat split; auto.
      apply String.eqb_neq. by apply Hne.
    + intros (_ & (a & r & -> & -> & Ha & Hr & Hne) & Hat & Hrt & Hs). cbn.
      rewrite !bool_decide_eq_true. repeat split; auto.
      intros ? ? [= <-] [= <-]. by apply String.eqb_neq.
Qed.

Lemma validate_attestation_shape
    (attestation_payload owners_payload : list (string * json)) :
  (validate_attestation attestation_payload owners_payload).1 = true
  ↔ (validate_attestation attestation_payload owners_payload).2 = [].
Proof.
  unfold validate_attestation.
  destruct (mode_valid _); cbn [negb fst snd]; [|split; discriminate].
  apply bool_decide_eq_true.
Qed.

Lemma validate_attestation_passed
    (attestation_payload owners_payload : list (string * json)) :
  (validate_attestation attestation_payload owners_payload).1 = true
  ↔ acceptable attestation_payload owners_payload.
Proof.
  rewrite <- validate_attestation_accepts.
  pose proof (validate_attestation_shape attestation_payload owners_payload) as Hshape.
  destruct (validate_attestation attestation_payload owners_payload) as [b l] eqn:E.
  cbn [fst snd] in *. split.
  - intros ->. f_equal. by apply Hshape.
  - by intros [= -> _].
Qed.


(** X15. G4 returns a result iff the source-fallback policy can be read
    and annotated and, when the attestation file exists, it and the owners
    file can be read.  Its status is then [pass] or [policy_fail]; it is
    [pass] exactly when there is no reason code and no blocking issue;
    the only reason code is HARD_HARD_GATE_CHECK_FAILED; and it passes
    only for an existing attestation that [validate_attestation]
    accepts. *)
Theorem gate_g4_outcomes
    (attestation_path : attestation_arg)
    (owners_file source_policy_file : option (list (string * json))) :
  (is_Some (_gate_g4 attestation_path owners_file source_policy_file)
   ↔ (∃ sp, source_policy_file = Some sp ∧ is_Some (annotate_source_policy sp))
     ∧ (∀ path content, attestation_path = Found path content →
                        is_Some owners_file ∧ is_Some content))
  ∧ ∀ out, _gate_g4 attestation_path owners_file source_policy_file = Some out →
      (status out = "pass" ∨ status out = "policy_fail")
      ∧ (status out = "pass" ↔ reasonCodes out = [])
      ∧ (status out = "pass" ↔ blockingIssues out = [])
      ∧ (reasonCodes out = [] ∨ reasonCodes out = ["HARD_HARD_GATE_CHECK_FAILED"])
      ∧ (status out = "pass" →
         ∃ path payload owners,
           attestation_path = Found path (Some payload)
           ∧ owners_file = Some owners
           ∧ acceptable payload owners).
Proof.
  unfold _gate_g4. split.
  - destruct attestation_path as [|path|path [payload|]], owners_file as [owners|],
      source_policy_file as [sp|];
      try destruct (validate_attestation payload owners) as [passed issues];
      try destruct (annotate_source_policy sp) as [extra|] eqn:Han;
      cbn [fst snd]; rewrite ?Han;
      (split;
       [ intros [out Hout]; try discriminate Hout;
         (split; [eexists; split; [reflexivity|rewrite Han; eauto]
                 |intros ? ? Hf; try discriminate Hf; injection Hf as <- <-; eauto])
       | intros [(sp0 & Hsp & Hann) Hfound]; try discriminate Hsp;
         try (injection Hsp as <-; rewrite Han in Hann; destruct Hann as [? Hx];
              discriminate Hx);
         try (destruct (Hfound _ _ eq_refl) as [[? Hx] [? Hy]];
              (discriminate Hx || discriminate Hy));
         eauto ]).
  - intros out.
    destruct attestation_path as [|path|path content].
    + destruct source_policy_file as [sp|]; [|discriminate].
      destruct (annotate_source_policy sp); [|discriminate].
      intros [= <-]. cbn. repeat split; try discriminate; auto.
    + destruct source_policy_file as [sp|]; [|discriminate].
      destruct (annotate_source_policy sp); [|discriminate].
      intros [= <-]. cbn. repeat split; try discriminate; auto.
    + destruct owners_file as [owners|], content as [payload|]; try discriminate.
      pose proof (validate_attestation_passed payload owners) as Hacc.
      pose proof (validate_attestation_shape payload owners) as Hshape.
      destruct (validate_attestation payload owners) as [passed issues].
      cbn [fst snd] in Hacc, Hshape.
      destruct source_policy_file as [sp|]; [|discriminate].
      destruct (annotate_source_policy sp); [|discriminate].
      intros [= <-]. cbn [status reasonCodes blockingIssues].
      destruct passed.
      * rewrite bool_decide_eq_true_2 by done.
        change (_dedup []) with (@nil string).
        split; [by left|]. split; [done|]. split; [done|]. split; [by left|].
        intros _. exists path, payload, owners.
        split; [reflexivity|]. split; [reflexivity|]. by apply Hacc.
      * assert (issues ≠ []) by (intros E; apply Hshape in E; discriminate).
        rewrite bool_decide_eq_false_2 by done.
        change (_dedup ["HARD_HARD_GATE_CHECK_FAILED"])
          with ["HARD_HARD_GATE_CHECK_FAILED"].
        split; [by right|]. split; [split; discriminate|].
        split; [split; [discriminate|done]|]. split; [by right|]. discriminate.
Qed.

End AttestationMoreFacts.

Section AttestationMoreExamples.

Import Attestation.

Definition dual_signed : list (string * json) :=
  [ ("mode", JStr "manual_attest");
    ("attestedBy", JStr "alice"); ("reviewedBy", JStr "bob");
    ("attestedAt", JStr "2026-02-01T10:00:00Z");
    ("reviewedAt", JStr "2026-02-01T11:00:00Z");
    ("scope", JList [JStr "release"]) ].

(** An owners file with an inactive owner, an owner whose [active] is the
    number 1, and one with a blank [id]. *)
Definition mixed_owners : list (string * json) :=
  [ ("owners",
     JList [ JObj [("id", JStr "alice"); ("active", JBool true)];
             JObj [("id", JStr "carol"); ("active", JBool false)];
             JObj [("id", JStr "dave"); ("active", JInt 1)];
             JObj [("id", JStr "  "); ("active", JBool true)] ]) ].

Example mixed_owners_allowlist : active_owner_ids mixed_owners = {[ "alice" ]}.
Proof. apply (bool_decide_unpack _). vm_compute. exact I. Qed.


Lemma gate_g4_outcomes_witness :
  match _gate_g4 (Found "attestation.json" (Some dual_signed)) (Some two_owners)
          (Some [("mode", JStr "normal")]) with
  | Some out =>
      status out = "pass"
      ∧ ∃ path payload owners,
          Found "attestation.json" (Some dual_signed) = Found path (Some payload)
          ∧ Some two_owners = Some owners ∧ acceptable payload owners
  | None => False
  end.
Proof.
  destruct (_gate_g4 _ _ _) as [out|] eqn:E.
  - assert (Hpass : status out = "pass")
      by (vm_compute in E; injection E as <-; reflexivity).
    split; [exact Hpass|].
    apply (proj2 (gate_g4_outcomes _ _ _) out E). exact Hpass.
  - vm_compute in E. discriminate E.
Defined.

End AttestationMoreExamples.

(** ** State-machine replay: accounting and invariants *)

Section ReplayMoreFacts.

Import Replay.

(** The transitions recorded as allowed. *)
Definition allowed_count (ts : list transition) : nat :=
  length (List.filter allowed ts).

Lemma allowed_count_snoc (ts : list transition) (t : transition) :
  allowed_count (ts ++ [t]) = (allowed_count ts + (if allowed t then 1 else 0))%nat.
Proof.
  unfold allowed_count. rewrite List.filter_app, length_app. cbn [List.filter].
  by destruct (allowed t).
Qed.

(** What the loop keeps true of a recorded transition. *)
Definition transition_ok (t : transition) : Prop :=
  t_to t ∈ STATE_SET
  ∧ match t_from t with
    | Some f => f ∈ STATE_SET ∧ allowed t = bool_decide (t_to t ∈ allowed_set f)
    | None => allowed t = true
    end.

(** What the loop keeps true of its variables. *)
Definition loop_inv (st : loop_state) : Prop :=
  (∀ s, current_state st = Some s → s ∈ STATE_SET)
  ∧ (current_state st = None ↔ transitions st = [])
  ∧ (∀ t, last (transitions st) = Some t → current_state st = Some (t_to t))
  ∧ Forall transition_ok (transitions st).

Lemma step_accounting st line_no record st' :
  step st line_no record = Some st' →
  (length (errors st') + allowed_count (transitions st')
   = S (length (errors st) + allowed_count (transitions st)))%nat
  ∧ (length (transitions st') ≤ S (length (transitions st)))%nat
  ∧ (length (transitions st) ≤ length (transitions st'))%nat
  ∧ (length (errors st) ≤ length (errors st'))%nat
  ∧ (errors st' = errors st → length (transitions st') = S (length (transitions st))).
Proof.
  unfold step, add_error.
  repeat match goal with
         | |- context [match ?x with _ => _ end] => destruct x
         end;
    intros [= <-]; cbn [errors transitions];
    rewrite ?allowed_count_snoc, ?length_app; cbn [allowed length];
    (split; [lia|]); (split; [lia|]); (split; [lia|]); (split; [lia|]);
    intros Habs; try lia;
    apply (f_equal length) in Habs; rewrite length_app in Habs; cbn in Habs; lia.
Qed.

Lemma step_inv st line_no record st' :
  step st line_no record = Some st' → loop_inv st → loop_inv st'.
Proof.
  unfold step, add_error, loop_inv.
  destruct (coalesce_state (fields record) to_keys) as [to_state|];
    [|intros [= <-]; done].
  destruct (decide (to_state ∈ STATE_SET)) as [Hto|Hto];
    [rewrite bool_decide_eq_true_2 by done
    |rewrite bool_decide_eq_false_2 by done; intros [= <-]; done].
  cbn [negb].
  set (from := match coalesce_state (fields record) from_keys with
               | Some f => Some f
               | None => current_state st
               end).
  assert (Hnone : from = None → current_state st = None).
  { subst from. by destruct (coalesce_state (fields record) from_keys). }
  clearbody from. intros Hstep (Hcur & Hemp & Hlast & Hall).
  assert (Hsnoc : ∀ t, last (transitions st ++ [t]) = Some t)
    by (intros t; apply last_snoc).
  destruct from as [f|].
  - destruct (decide (f ∈ STATE_SET)) as [Hf|Hf];
      [rewrite bool_decide_eq_true_2 in Hstep by done
      |rewrite bool_decide_eq_false_2 in Hstep by done; injection Hstep as <-; done].
    cbn [negb] in Hstep.
    destruct (check_timestamp st line_no (ts record)) as [[w l]|]; [|discriminate].
    injection Hstep as <-. cbn [current_state transitions].
    split; [by intros ? [= <-]|]. split.
    { split; [discriminate|]. intros H. by apply app_nil in H as [_ ?]. }
    split; [intros t; rewrite Hsnoc; by intros [= <-]|].
    apply Forall_app. split; [exact Hall|]. apply Forall_singleton.
    split; [exact Hto|]. cbn. split; [exact Hf|reflexivity].
  - destruct (check_timestamp st line_no (ts record)) as [[w l]|]; [|discriminate].
    injection Hstep as <-. cbn [current_state transitions].
    split; [by intros ? [= <-]|]. split.
    { split; [discriminate|]. intros H. by apply app_nil in H as [_ ?]. }
    split; [intros t; rewrite Hsnoc; by intros [= <-]|].
    apply Forall_app. split; [exact Hall|]. apply Forall_singleton.
    split; [exact Hto|]. reflexivity.
Qed.

Lemma replay_loop_accounting records st st' :
  replay_loop st records = Some st' →
  (length (errors st') + allowed_count (transitions st')
   = length records + (length (errors st) + allowed_count (transitions st)))%nat
  ∧ (length (transitions st') ≤ length records + length (transitions st))%nat
  ∧ (length (errors st) ≤ length (errors st'))%nat
  ∧ (errors st' = errors st →
     length (transitions st') = length records + length (transitions st))%nat
  ∧ (loop_inv st → loop_inv st').
Proof.
  revert st. induction records as [|[line_no record] rest IH]; intros st.
  - cbn. intros [= <-]. split; [lia|]. split; [lia|]. split; [lia|].
    split; [intros _; lia|auto].
  - cbn [replay_loop length].
    destruct (step st line_no record) as [st1|] eqn:Hstep; [|discriminate].
    intros Hloop. destruct (IH st1 Hloop) as (H1 & H2 & H3 & H4 & H5).
    destruct (step_accounting _ _ _ _ Hstep) as (G1 & G2 & G3 & G4 & G5).
    split; [lia|]. split; [lia|]. split; [lia|]. split.
    + intros He.
      assert (He1 : errors st1 = errors st).
      { destruct (step_spec _ _ _ _ Hstep) as [(E & _)|(e & E & _)]; [exact E|].
        exfalso. apply (f_equal length) in He. rewrite E, length_app in H3.
        cbn in H3. lia. }
      rewrite H4 by congruence. rewrite (G5 He1). lia.
    + intros Hinv. apply H5. by apply (step_inv _ _ _ _ Hstep).
Qed.

Lemma initial_state_inv : loop_inv initial_state.
Proof.
  unfold loop_inv, initial_state. cbn. repeat split; try done; constructor.
Qed.

(** The report of a log that replays to the end. *)
Lemma main_report_of_loop lines records :
  parse_log lines = Some records → records ≠ [] → timestamps_comparable records →
  ∃ st, replay_loop initial_state records = Some st
        ∧ (main false (Some lines)).1
          = {| valid := bool_decide (errors st = []);
               transitionCount := Some (length (transitions st));
               finalState := current_state st;
               r_errors := errors st;
               r_warnings := warnings st;
               r_transitions := transitions st |}.
Proof.
  intros Hparse Hne [aware Hts].
  destruct (replay_loop_total aware records initial_state) as [st Hloop];
    [intros b Hb; discriminate Hb|exact Hts|].
  exists st. split; [exact Hloop|].
  unfold main. rewrite Hparse. destruct records; [done|]. by rewrite Hloop.
Qed.

(** X16. In the report of a log that replays to the end, every record is
    accounted for once: it is an error or a transition recorded as
    allowed, so errors plus allowed transitions equal the records; there
    are never more transitions than records, and in a valid report
    [transitionCount] is the number of records. *)
Theorem replay_accounting (lines : list log_line) (records : list (nat * log_record)) :
  parse_log lines = Some records → records ≠ [] → timestamps_comparable records →
  let rep := (main false (Some lines)).1 in
  (length (r_errors rep) + allowed_count (r_transitions rep) = length records)%nat
  ∧ transitionCount rep = Some (length (r_transitions rep))
  ∧ (length (r_transitions rep) ≤ length records)%nat
  ∧ (valid rep = true → transitionCount rep = Some (length records)).
Proof.
  intros Hparse Hne Hts. cbv zeta.
  destruct (main_report_of_loop lines records Hparse Hne Hts) as (st & Hloop & ->).
  cbn [r_errors r_transitions transitionCount valid].
  destruct (replay_loop_accounting records initial_state st Hloop)
    as (H1 & H2 & _ & H4 & _). cbn in H1, H2, H4.
  split; [lia|]. split; [reflexivity|]. split; [lia|].
  intros Hv. apply bool_decide_eq_true in Hv. rewrite H4 by done. f_equal. lia.
Qed.

(** X17. In such a report the final state is a state of the alphabet
    whenever there is one, there is none exactly when no transition was
    recorded, it is the to-state of the last transition recorded, and
    every transition recorded ends in the alphabet, starts in it when it
    has a from-state, and carries [allowed] as the table says. *)
Theorem replay_final_state (lines : list log_line) (records : list (nat * log_record)) :
  parse_log lines = Some records → records ≠ [] → timestamps_comparable records →
  let rep := (main false (Some lines)).1 in
  (∀ s, finalState rep = Some s → s ∈ STATE_SET)
  ∧ (finalState rep = None ↔ r_transitions rep = [])
  ∧ (∀ t, last (r_transitions rep) = Some t → finalState rep = Some (t_to t))
  ∧ Forall transition_ok (r_transitions rep).
Proof.
  intros Hparse Hne Hts. cbv zeta.
  destruct (main_report_of_loop lines records Hparse Hne Hts) as (st & Hloop & ->).
  cbn [r_transitions finalState].
  destruct (replay_loop_accounting records initial_state st Hloop) as (_ & _ & _ & _ & H).
  exact (H initial_state_inv).
Qed.

Lemma parse_lines_spec (lines : list log_line) (idx : nat) :
  (parse_lines idx lines = None ↔ NotJson ∈ lines ∨ NotObject ∈ lines)
  ∧ ∀ records, parse_lines idx lines = Some records →
      ∀ n r, (n, r) ∈ records ↔ (idx ≤ n)%nat ∧ lines !! (n - idx)%nat = Some (Entry r).
Proof.
  revert idx. induction lines as [|line rest IH]; intros idx.
  - cbn. split; [split; [discriminate|intros [H|H]; by apply elem_of_nil in H]|].
    intros ? [= <-] n r. split; [intros H; by apply elem_of_nil in H|].
    intros [_ H]. by rewrite lookup_nil in H.
  - destruct (IH (S idx)) as [Hnone Hsome].
    assert (Hshift : ∀ n r, (S idx ≤ n)%nat ∧ rest !! (n - S idx)%nat = Some (Entry r)
                            ↔ (idx < n)%nat ∧ (line :: rest) !! (n - idx)%nat
                                              = Some (Entry r)).
    { intros n r. split; intros [Hle Hl]; (split; [lia|]).
      - replace (n - idx)%nat with (S (n - S idx)) by lia. exact Hl.
      - replace (n - idx)%nat with (S (n - S idx)) in Hl by lia. exact Hl. }
    destruct line as [| | |r0]; cbn [parse_lines].
    + split.
      * rewrite Hnone. split; (intros [H|H]; [left|right]);
          rewrite ?elem_of_cons in *; naive_solver.
      * intros records Hrec n r. rewrite (Hsome records Hrec), Hshift. split.
        -- intros [? ?]. split; [lia|done].
        -- intros [Hle Hl]. destruct (decide (n = idx)) as [->|]; [|split; [lia|done]].
           rewrite Nat.sub_diag in Hl. discriminate Hl.
    + split; [split; [intros _; left; apply list_elem_of_here|done]|discriminate].
    + split; [split; [intros _; right; apply list_elem_of_here|done]|discriminate].
    + destruct (parse_lines (S idx) rest) as [recs|] eqn:Hrest.
      * split.
        -- split; [discriminate|]. intros [H|H]; apply elem_of_cons in H as [H|H];
             try discriminate H; exfalso;
             (assert (Some recs = None) as Habs by (apply Hnone; auto));
             discriminate Habs.
        -- intros ? [= <-] n r. rewrite elem_of_cons, (Hsome recs eq_refl), Hshift.
           split.
           ++ intros [[= -> ->]|[? ?]]; [|split; [lia|done]].
              split; [lia|]. by rewrite Nat.sub_diag.
           ++ intros [Hle Hl]. destruct (decide (n = idx)) as [->|]; [|right; split; [lia|done]].
              rewrite Nat.sub_diag in Hl. injection Hl as <-. by left.
      * split; [|discriminate]. split; [intros _|done].
        destruct (proj1 Hnone eq_refl) as [H|H]; [left|right];
          by apply list_elem_of_further.
Qed.

(** X18. [parse_log] fails iff some non-blank line is not a JSON object;
    otherwise it keeps exactly the object lines, each with its position
    in the file, counted from 1 and with the blank lines counted. *)
Theorem parse_log_line_numbers (lines : list log_line) :
  (parse_log lines = None ↔ NotJson ∈ lines ∨ NotObject ∈ lines)
  ∧ ∀ records, parse_log lines = Some records →
      ∀ n r, (n, r) ∈ records ↔ (1 ≤ n)%nat ∧ lines !! (n - 1)%nat = Some (Entry r).
Proof. exact (parse_lines_spec lines 1). Qed.

End ReplayMoreFacts.

Section ReplayMoreExamples.

Import Replay.

Lemma out_of_order_log_ready :
  ∃ records, parse_log out_of_order_log = Some records ∧ records ≠ []
             ∧ timestamps_comparable records.
Proof.
  eexists. split; [reflexivity|]. split; [discriminate|].
  exists true. intros line_no record t Hin Ht.
  repeat (apply elem_of_cons in Hin as [Hin|Hin];
          [injection Hin as -> ->; injection Ht as <-; reflexivity|]).
  by apply elem_of_nil in Hin.
Qed.

Lemma replay_accounting_witness :
  let rep := (main false (Some out_of_order_log)).1 in
  (length (r_errors rep) + allowed_count (r_transitions rep) = 3)%nat.
Proof.
  destruct out_of_order_log_ready as (records & Hparse & Hne & Hts).
  pose proof (replay_accounting out_of_order_log records Hparse Hne Hts) as (H & _).
  assert (Hlen : length records = 3%nat) by (injection Hparse as <-; reflexivity).
  rewrite Hlen in H. exact H.
Defined.

Lemma replay_final_state_witness :
  Forall transition_ok (r_transitions (main false (Some out_of_order_log)).1).
Proof.
  destruct out_of_order_log_ready as (records & Hparse & Hne & Hts).
  pose proof (replay_final_state out_of_order_log records Hparse Hne Hts) as (_ & _ & _ & H).
  exact H.
Defined.

Lemma parse_log_line_numbers_witness :
  (3%nat, {| fields := [("to", JStr "WATCH")]; ts := None |})
  ∈ [ (1%nat, {| fields := [("to", JStr "NORMAL")]; ts := None |});
      (3%nat, {| fields := [("to", JStr "WATCH")]; ts := None |}) ]
  ↔ (1 ≤ 3)%nat
    ∧ [ Entry {| fields := [("to", JStr "NORMAL")]; ts := None |}; Blank;
        Entry {| fields := [("to", JStr "WATCH")]; ts := None |} ]
      !! (3 - 1)%nat = Some (Entry {| fields := [("to", JStr "WATCH")]; ts := None |}).
Proof.
  apply (proj2 (parse_log_line_numbers
                  [ Entry {| fields := [("to", JStr "NORMAL")]; ts := None |}; Blank;
                    Entry {| fields := [("to", JStr "WATCH")]; ts := None |} ])).
  reflexivity.
Defined.

End ReplayMoreExamples.

(** ** Migration compare: a document against itself *)

Section MigrationCompareMoreFacts.

Import MigrationCompare.




End MigrationCompareMoreFacts.

(** ** Stress metric: range and monotonicity *)

Section StressMetricsMoreFacts.

Import StressMetrics.

Local Open Scope Q_scope.







End StressMetricsMoreFacts.

(** ** Numeric readers *)

Section NumbersFacts.

Import Numbers.





End NumbersFacts.

(** ** The G0 reason-code lint *)

Section G0LintFacts.

Import G0Checks.

Variable repr : option json → string.

Definition newline : string := String "010"%char "".

Definition all_code_chars (body : string) : bool :=
  forallb code_char (list_ascii_of_string body).

Lemma code_rest_spec (s : string) :
  code_rest s = true
  ↔ ∃ body nl, s = String.append body nl ∧ all_code_chars body = true
               ∧ (nl = "" ∨ nl = newline).
Proof.
  induction s as [|c rest IH]; cbn [code_rest].
  - split; [|done]. intros _. exists "", "". split; [reflexivity|]. split; [reflexivity|by left].
  - destruct (code_char c) eqn:Hc.
    + rewrite IH. split.
      * intros (body & nl & -> & Hb & Hnl). exists (String c body), nl.
        split; [reflexivity|]. split; [|exact Hnl].
        unfold all_code_chars. cbn. rewrite Hc. exact Hb.
      * intros (body & nl & Heq & Hb & Hnl). destruct body as [|c' body'].
        -- cbn in Heq. destruct Hnl as [-> | ->]; [discriminate Heq|].
           injection Heq as -> _. vm_compute in Hc. discriminate Hc.
        -- cbn in Heq. injection Heq as <- ->. exists body', nl.
           split; [reflexivity|]. split; [|exact Hnl].
           unfold all_code_chars in Hb. cbn in Hb. rewrite Hc in Hb. exact Hb.
    + rewrite andb_true_iff, Ascii.eqb_eq, String.eqb_eq. split.
      * intros [-> ->]. exists "", newline. split; [reflexivity|]. split; [reflexivity|by right].
      * intros (body & nl & Heq & Hb & Hnl). destruct body as [|c' body'].
        -- cbn in Heq. destruct Hnl as [-> | ->]; [discriminate Heq|].
           injection Heq as -> ->. done.
        -- cbn in Heq. injection Heq as <- ->.
           unfold all_code_chars in Hb. cbn in Hb. rewrite Hc in Hb. discriminate Hb.
Qed.

(** X22. The reason-code pattern accepts exactly HARD_, WARN_ or INFO_
    followed by one or more characters of A-Z, 0-9 and underscore, and
    then nothing or one final newline. *)
Theorem reason_code_pattern_spec (code : string) :
  REASON_CODE_PATTERN_match code = true
  ↔ ∃ level body nl,
      level ∈ ["HARD"; "WARN"; "INFO"]
      ∧ code = String.append level (String.append "_" (String.append body nl))
      ∧ body ≠ "" ∧ all_code_chars body = true
      ∧ (nl = "" ∨ nl = newline).
Proof.
  split.
  - destruct code as [|a [|b [|c [|d [|e [|f rest]]]]]]; try discriminate.
    cbn [REASON_CODE_PATTERN_match]. rewrite !andb_true_iff, !orb_true_iff, !String.eqb_eq.
    intros [[Hhead Hf] Hrest].
    apply code_rest_spec in Hrest as (body & nl & -> & Hb & Hnl).
    assert (Hbody : String f body ≠ "" ∧ all_code_chars (String f body) = true).
    { split; [discriminate|]. unfold all_code_chars. cbn. rewrite Hf. exact Hb. }
    destruct Hhead as [[Hh|Hh]|Hh]; injection Hh as -> -> -> -> ->.
    + exists "HARD", (String f body), nl. split; [set_solver|]. split; [reflexivity|].
      split; [apply Hbody|]. split; [apply Hbody|exact Hnl].
    + exists "WARN", (String f body), nl. split; [set_solver|]. split; [reflexivity|].
      split; [apply Hbody|]. split; [apply Hbody|exact Hnl].
    + exists "INFO", (String f body), nl. split; [set_solver|]. split; [reflexivity|].
      split; [apply Hbody|]. split; [apply Hbody|exact Hnl].
  - intros (level & body & nl & Hlevel & -> & Hne & Hb & Hnl).
    destruct body as [|f body]; [done|].
    assert (Hf : code_char f = true ∧ code_rest (String.append body nl) = true).
    { unfold all_code_chars in Hb. cbn in Hb. apply andb_true_iff in Hb as [Hf Hb].
      split; [exact Hf|]. apply code_rest_spec. by exists body, nl. }
    destruct Hf as [Hf Hrest].
    assert (Hhead : ∀ a b c d,
               (String.eqb (String a (String b (String c (String d "_")))) "HARD_"
                || String.eqb (String a (String b (String c (String d "_")))) "WARN_"
                || String.eqb (String a (String b (String c (String d "_")))) "INFO_")
               = true →
               REASON_CODE_PATTERN_match
                 (String a (String b (String c (String d (String "_"
                    (String f (String.append body nl))))))) = true).
    { intros a b c d Hh. cbn [REASON_CODE_PATTERN_match]. by rewrite Hh, Hf, Hrest. }
    apply elem_of_cons in Hlevel as [-> |Hlevel]; [by apply Hhead|].
    apply elem_of_cons in Hlevel as [-> |Hlevel]; [by apply Hhead|].
    apply elem_of_cons in Hlevel as [-> |Hlevel]; [by apply Hhead|].
    by apply elem_of_nil in Hlevel.
Qed.

Definition well_named (item : json) (code : string) : Prop :=
  str_code_of item = Some code ∧ REASON_CODE_PATTERN_match code = true.

Lemma lint_loop_nil (items : list json) (seen : gset string) (issues : list string) :
  lint_loop repr items seen issues = []
  ↔ issues = []
    ∧ ∃ codes, Forall2 well_named items codes ∧ NoDup codes
               ∧ ∀ c, c ∈ codes → c ∉ seen.
Proof.
  revert seen issues. induction items as [|item rest IH]; intros seen issues.
  - cbn [lint_loop]. split.
    + intros ->. split; [done|]. exists []. split; [constructor|]. split; [constructor|].
      intros c H. by apply elem_of_nil in H.
    + by intros [-> _].
  - assert (Hno : ∀ msg seen', lint_loop repr rest seen' (issues ++ [msg]) ≠ []).
    { intros msg seen' H. apply IH in H as [H _]. by apply app_nil in H as [_ ?]. }
    assert (Hbad : (∀ code, ¬ well_named item code) →
                   ∀ msg seen',
                     lint_loop repr rest seen' (issues ++ [msg]) = []
                     ↔ issues = []
                       ∧ ∃ codes, Forall2 well_named (item :: rest) codes ∧ NoDup codes
                                  ∧ ∀ c, c ∈ codes → c ∉ seen).
    { intros Hnot msg seen'. split; [intros H; by apply Hno in H|].
      intros (_ & codes & HF & _). inversion HF as [|? code ? ? Hw]; subst.
      by apply Hnot in Hw. }
    cbn [lint_loop].
    destruct item as [| | | | | |d];
      try (apply Hbad; intros code [Hc _]; discriminate Hc).
    destruct (get "code" d) as [[| | | |s| |]|] eqn:Hget;
      try (apply Hbad; intros code [Hc _]; cbn in Hc; rewrite Hget in Hc;
           discriminate Hc).
    destruct (REASON_CODE_PATTERN_match s) eqn:Hm.
    2: { apply Hbad. intros code [Hc Hm']. cbn in Hc. rewrite Hget in Hc.
         injection Hc as <-. congruence. }
    case_bool_decide as Hseen.
    + split; [intros H; by apply Hno in H|].
      intros (_ & codes & HF & _ & Hfresh). inversion HF as [|? code ? ? [Hc _]]; subst.
      cbn in Hc. rewrite Hget in Hc. injection Hc as <-.
      exfalso. apply (Hfresh s); [apply list_elem_of_here|exact Hseen].
    + rewrite IH. split.
      * intros (-> & codes & HF & Hnd & Hfresh). split; [done|].
        exists (s :: codes). split.
        { constructor; [|exact HF]. split; [cbn; by rewrite Hget|exact Hm]. }
        split.
        { constructor; [|exact Hnd]. intros Hin. apply Hfresh in Hin. set_solver. }
        intros c Hin. apply elem_of_cons in Hin as [-> |Hin]; [exact Hseen|].
        apply Hfresh in Hin. set_solver.
      * intros (-> & codes & HF & Hnd & Hfresh). split; [done|].
        inversion HF as [|? code ? codes' [Hc _] HF']; subst.
        cbn in Hc. rewrite Hget in Hc. injection Hc as <-.
        apply NoDup_cons in Hnd as [Hnotin Hnd].
        exists codes'. split; [exact HF'|]. split; [exact Hnd|].
        intros c Hin. assert (c ∉ seen) by (apply Hfresh; by apply list_elem_of_further).
        assert (c ≠ s) by (intros ->; done). set_solver.
Qed.

Lemma lint_clean_spec (reason_codes_payload : list (string * json)) :
  lint_reason_codes repr reason_codes_payload = []
  ↔ ∃ items codes,
      get "codes" reason_codes_payload = Some (JList items)
      ∧ items ≠ []
      ∧ Forall2 well_named items codes
      ∧ NoDup codes.
Proof.
  unfold lint_reason_codes.
  destruct (get "codes" reason_codes_payload) as [[| | | | |[|item rest]|]|];
    try (split; [discriminate|by intros (? & ? & [=] & _)]).
  - split; [discriminate|]. intros (items & ? & [= <-] & Hne & _). done.
  - rewrite lint_loop_nil. split.
    + intros (_ & codes & HF & Hnd & _). exists (item :: rest), codes.
      split; [reflexivity|]. split; [discriminate|]. by split.
    + intros (items & codes & [= <-] & _ & HF & Hnd). split; [reflexivity|].
      exists codes. split; [exact HF|]. split; [exact Hnd|]. set_solver.
Qed.

(** X23. The lint reports nothing iff [codes] is a non-empty list of
    objects whose [code] entries are strings that match the pattern and
    are pairwise different. *)
Theorem lint_reason_codes_clean_iff (reason_codes_payload : list (string * json)) :
  lint_reason_codes repr reason_codes_payload = []
  ↔ ∃ items codes,
      get "codes" reason_codes_payload = Some (JList items)
      ∧ items ≠ []
      ∧ Forall2 well_named items codes
      ∧ NoDup codes.
Proof. apply lint_clean_spec. Qed.

End G0LintFacts.

(** ** Canonical and required reason codes *)

Section CanonicalCodesFacts.

Import G0Checks.

Variable repr : option json → string.

Lemma elem_of_existing (items : list json) (c : string) :
  c ∈ (list_to_set (omap str_code_of items) : gset string)
  ↔ ∃ item, item ∈ items ∧ str_code_of item = Some c.
Proof.
  rewrite elem_of_list_to_set, list_elem_of_omap. reflexivity.
Qed.

Lemma canonical_step_spec (values : gset string) (item : json) (c : string) :
  c ∈ canonical_step values item
  ↔ c ∈ values ∨ (c ≠ "" ∧ str_code_of item = Some c).
Proof.
  unfold canonical_step, str_code_of.
  destruct item as [| | | | | |d]; try (split; [by left|by intros [?|[_ [=]]]]).
  destruct (get "code" d) as [[| | | |s| |]|]; cbn [as_str];
    try (split; [by left|by intros [?|[_ [=]]]]).
  destruct (String.eqb s "") eqn:Hs; cbn [negb].
  - apply String.eqb_eq in Hs as ->. split; [by left|].
    intros [?|[Hne [= <-]]]; done.
  - apply String.eqb_neq in Hs. rewrite elem_of_union, elem_of_singleton. split.
    + intros [?| ->]; [by left|by right].
    + intros [?|[_ [= ->]]]; [by left|by right].
Qed.

Lemma elem_of_canonical (items : list json) (values : gset string) (c : string) :
  c ∈ fold_left canonical_step items values
  ↔ c ∈ values ∨ (c ≠ "" ∧ ∃ item, item ∈ items ∧ str_code_of item = Some c).
Proof.
  revert values. induction items as [|item rest IH]; intros values; cbn [fold_left].
  - split; [by left|]. intros [?|(_ & item & Hin & _)]; [done|].
    by apply elem_of_nil in Hin.
  - rewrite IH, canonical_step_spec. split.
    + intros [[?|[Hne Hc]]|(Hne & item' & Hin & Hc)].
      * by left.
      * right. split; [done|]. exists item. split; [apply list_elem_of_here|done].
      * right. split; [done|]. exists item'. split; [by apply list_elem_of_further|done].
    + intros [?|(Hne & item' & Hin & Hc)]; [by left; left|].
      apply elem_of_cons in Hin as [-> |Hin].
      * left. by right.
      * right. split; [done|]. by exists item'.
Qed.

Lemma required_loop_nil (existing : gset string) (required_codes issues : list string) :
  required_loop existing required_codes issues = []
  ↔ issues = [] ∧ ∀ c, c ∈ required_codes → c ∈ existing.
Proof.
  revert issues. induction required_codes as [|code rest IH]; intros issues;
    cbn [required_loop].
  - split; [intros ->; split; [done|]; intros c H; by apply elem_of_nil in H|by intros [-> _]].
  - case_bool_decide as Hin; rewrite IH.
    + split.
      * intros [H _]. by apply app_nil in H as [_ ?].
      * intros [_ H]. exfalso. apply Hin, H, list_elem_of_here.
    + split.
      * intros [-> H]. split; [done|]. intros c Hc.
        apply elem_of_cons in Hc as [-> |Hc]; auto.
      * intros [-> H]. split; [done|]. intros c Hc. apply H. by apply list_elem_of_further.
Qed.

Lemma well_named_codes (items : list json) (codes : list string) :
  Forall2 (well_named) items codes →
  omap str_code_of items = codes ∧ Forall (λ c, REASON_CODE_PATTERN_match c = true) codes.
Proof.
  induction 1 as [|item code items codes [Hc Hm] _ [IH1 IH2]]; [by split|].
  cbn [omap list_omap]. rewrite Hc. cbn. split; [by f_equal|by constructor].
Qed.

(** X24. The canonical reason codes and the codes a required code is
    looked up in are read from the same items; they differ at most by the
    empty string, which only the lookup keeps.  No required code is
    reported missing iff each one is among the listed codes, and when the
    lint reports nothing the two sets are equal and every canonical code
    matches the pattern. *)
Theorem canonical_and_required_codes (payload : list (string * json)) :
  (is_Some (_canonical_reason_codes payload) ↔ is_Some (existing_codes payload))
  ∧ (∀ canonical existing,
       _canonical_reason_codes payload = Some canonical →
       existing_codes payload = Some existing →
       canonical = existing ∖ {[ "" ]})
  ∧ (∀ required_codes,
       validate_required_codes payload required_codes = Some []
       ↔ ∃ existing, existing_codes payload = Some existing
                     ∧ ∀ c, c ∈ required_codes → c ∈ existing)
  ∧ (lint_reason_codes repr payload = [] →
     ∃ canonical,
       _canonical_reason_codes payload = Some canonical
       ∧ existing_codes payload = Some canonical
       ∧ ∀ c, c ∈ canonical → REASON_CODE_PATTERN_match c = true).
Proof.
  assert (Hdiff : ∀ items,
             fold_left canonical_step items ∅
             = (list_to_set (omap str_code_of items) : gset string) ∖ {[ "" ]}).
  { intros items. apply set_eq. intros c.
    rewrite elem_of_canonical, elem_of_difference, elem_of_existing, elem_of_singleton.
    split; [intros [H|[? ?]]; [by apply not_elem_of_empty in H|done]|].
    intros [? ?]. by right. }
  split; [|split; [|split]].
  - unfold _canonical_reason_codes, existing_codes.
    destruct (iter_values (get "codes" payload)); split; intros [? H]; by eauto.
  - unfold _canonical_reason_codes, existing_codes.
    destruct (iter_values (get "codes" payload)) as [items|]; [|discriminate].
    intros canonical existing [= <-] [= <-]. apply Hdiff.
  - intros required_codes. unfold validate_required_codes.
    destruct (existing_codes payload) as [existing|].
    + split.
      * intros [= H]. apply required_loop_nil in H as [_ H]. by exists existing.
      * intros (? & [= <-] & H). f_equal. by apply required_loop_nil.
    + split; [discriminate|]. by intros (? & [=] & _).
  - intros Hlint. apply lint_clean_spec in Hlint
      as (items & codes & Hget & _ & HF & _).
    apply well_named_codes in HF as [Hcodes Hall].
    unfold _canonical_reason_codes, existing_codes. rewrite Hget. cbn [iter_values].
    exists (list_to_set codes). rewrite Hdiff, Hcodes.
    assert (Hne : ("" : string) ∉ (list_to_set codes : gset string)).
    { rewrite elem_of_list_to_set. intros Hin.
      rewrite Forall_forall in Hall. apply Hall in Hin. discriminate Hin. }
    split; [f_equal; set_solver|]. split; [reflexivity|].
    intros c Hc. rewrite elem_of_list_to_set in Hc.
    rewrite Forall_forall in Hall. by apply Hall.
Qed.

End CanonicalCodesFacts.

(** ** The report of [run_g0] *)

Section RunG0Facts.

Import G0Checks Numbers.

Variable repr : option json → string.
Variable str_int : Z → string.
Variable which : string → bool.

Lemma _dedup_nil_iff (values : list string) : _dedup values = [] ↔ values = [].
Proof.
  split; [|by intros ->]. destruct values as [|x rest]; [done|]. intros H.
  assert (Hin : x ∈ _dedup (x :: rest)) by (apply elem_of__dedup, list_elem_of_here).
  rewrite H in Hin. by apply elem_of_nil in Hin.
Qed.






End RunG0Facts.

Section RunG0Examples.

Import G0Checks.



Definition two_codes : list (string * json) :=
  [ ("codes", JList [ JObj [("code", JStr "HARD_ENV_MISMATCH")];
                      JObj [("code", JStr "WARN_SLOW_SOURCE")] ]) ].

Lemma canonical_and_required_codes_witness :
  ∃ canonical,
    _canonical_reason_codes two_codes = Some canonical
    ∧ existing_codes two_codes = Some canonical
    ∧ ∀ c, c ∈ canonical → REASON_CODE_PATTERN_match c = true.
Proof.
  apply (canonical_and_required_codes (λ _, "None") two_codes).
  reflexivity.
Defined.

End RunG0Examples.

(** ** Gate G1: how the three checks decide the status *)

Section G1Facts.

Import G1 Numbers.

(** A check that is required and did not pass. *)
Definition failing (g1_cfg : list (string * json)) (check : py_check) : bool :=
  get_default (required_map g1_cfg) (c_name check) true
  && negb (String.eqb (c_status check) "pass").

(** The run exited with return code 0. *)
Definition returned_zero (p : proc_outcome) : bool :=
  match p with
  | Returned rc => (rc =? 0)%Z
  | _ => false
  end.

Lemma returned_zero_true (p : proc_outcome) : returned_zero p = true ↔ p = Returned 0.
Proof.
  destruct p as [| |rc]; cbn; try (split; discriminate).
  rewrite Z.eqb_eq. split; [by intros ->|by intros [= ->]].
Qed.

Lemma check_step_cases (g1_cfg : list (string * json)) (st : loop_state)
    (check : py_check) :
  (failing g1_cfg check = false ∧ check_step g1_cfg st check = st)
  ∨ (failing g1_cfg check = true
     ∧ check_step g1_cfg st check
       = {| status :=
              if String.eqb (c_status check) "tool_error" then "tool_error"
              else if negb (String.eqb (status st) "tool_error") then "policy_fail"
              else status st;
            reasons := reasons st
                       ++ [get_default reason_map (c_name check)
                             "HARD_HARD_GATE_CHECK_FAILED"];
            issues := issues st ++ [issue_of check] |}).
Proof.
  unfold failing, check_step.
  destruct (get_default (required_map g1_cfg) (c_name check) true); cbn [negb andb];
    [|by left].
  destruct (String.eqb (c_status check) "pass"); cbn [negb]; [by left|by right].
Qed.

Lemma fold_check_step (g1_cfg : list (string * json)) (checks : list py_check)
    (st : loop_state) :
  let st' := fold_left (check_step g1_cfg) checks st in
  (status st' = "pass"
   ↔ status st = "pass" ∧ ∀ c, c ∈ checks → failing g1_cfg c = false)
  ∧ (status st' = "tool_error"
     ↔ status st = "tool_error"
       ∨ ∃ c, c ∈ checks ∧ failing g1_cfg c = true ∧ c_status c = "tool_error")
  ∧ (status st ∈ ["pass"; "policy_fail"; "tool_error"] →
     status st' ∈ ["pass"; "policy_fail"; "tool_error"])
  ∧ reasons st'
    = reasons st ++ map (λ c, get_default reason_map (c_name c) "HARD_HARD_GATE_CHECK_FAILED")
                      (List.filter (failing g1_cfg) checks)
  ∧ issues st' = issues st ++ map issue_of (List.filter (failing g1_cfg) checks).
Proof.
  cbv zeta. revert st. induction checks as [|check rest IH]; intros st.
  - cbn. rewrite !app_nil_r. split; [|split; [|split; [|split]]]; try done.
    + split; [intros H; split; [done|]; intros c Hc; by apply elem_of_nil in Hc|by intros [? _]].
    + split; [by left|]. intros [?|(c & Hc & _)]; [done|]. by apply elem_of_nil in Hc.
  - cbn [fold_left List.filter].
    destruct (IH (check_step g1_cfg st check)) as (Hpass & Htool & Hin & Hreasons & Hissues).
    destruct (check_step_cases g1_cfg st check) as [[Hf Hstep]|[Hf Hstep]];
      rewrite Hstep in *; rewrite Hf; clear Hstep.
    + split; [|split; [|split; [|split]]]; try done.
      * rewrite Hpass. split.
        -- intros [? H]. split; [done|]. intros c Hc.
           apply elem_of_cons in Hc as [-> |Hc]; auto.
        -- intros [? H]. split; [done|]. intros c Hc. apply H. by apply list_elem_of_further.
      * rewrite Htool. split.
        -- intros [?|(c & Hc & ? & ?)]; [by left|]. right. exists c.
           split; [by apply list_elem_of_further|done].
        -- intros [?|(c & Hc & Hfc & ?)]; [by left|].
           apply elem_of_cons in Hc as [-> |Hc]; [congruence|]. right. by exists c.
    + cbn [status reasons issues] in *. cbn [map].
      rewrite <- !app_assoc in Hreasons, Hissues. cbn [app] in Hreasons, Hissues.
      split; [|split; [|split; [|split]]]; try done.
      * rewrite Hpass. split.
        -- intros [H _]. exfalso.
           destruct (String.eqb (c_status check) "tool_error"); [discriminate H|].
           destruct (String.eqb (status st) "tool_error") eqn:E; cbn [negb] in H;
             [|discriminate H]. apply String.eqb_eq in E. congruence.
        -- intros [_ H]. specialize (H check (list_elem_of_here _ _)). congruence.
      * rewrite Htool. split.
        -- intros [H|(c & Hc & ? & ?)].
           ++ destruct (String.eqb (c_status check) "tool_error") eqn:E.
              ** apply String.eqb_eq in E. right. exists check.
                 split; [apply list_elem_of_here|done].
              ** destruct (String.eqb (status st) "tool_error") eqn:E'; cbn [negb] in H;
                   [by left|discriminate H].
           ++ right. exists c. split; [by apply list_elem_of_further|done].
        -- intros [H|(c & Hc & Hfc & Hs)].
           ++ left. rewrite H. cbn. by destruct (String.eqb (c_status check) "tool_error").
           ++ apply elem_of_cons in Hc as [-> |Hc].
              ** left. rewrite Hs. reflexivity.
              ** right. by exists c.
      * intros Hst. apply Hin.
        destruct (String.eqb (c_status check) "tool_error"); [set_solver|].
        destruct (String.eqb (status st) "tool_error"); cbn [negb]; [exact Hst|set_solver].
Qed.

Lemma run_python_status (name cmd : string) (proc : proc_outcome) :
  c_name (_run_python name cmd proc) = name
  ∧ (c_status (_run_python name cmd proc) = "pass" ↔ proc = Returned 0)
  ∧ (c_status (_run_python name cmd proc) = "tool_error"
     ↔ proc ≠ Returned 0 ∧ proc ≠ Returned 2).
Proof.
  destruct proc as [|exc|rc]; cbn; try (split; [done|split; split; done]).
  split; [done|].
  destruct (Z.eqb_spec rc 0) as [-> |H0]; [split; split; try done; by intros [? _]|].
  destruct (Z.eqb_spec rc 2) as [-> |H2]; [split; split; try done; by intros [_ ?]|].
  split; split; try done; try congruence.
  intros _. split; congruence.
Qed.

Lemma filter_nil_iff {A : Type} (f : A → bool) (l : list A) :
  List.filter f l = [] ↔ ∀ x, x ∈ l → f x = false.
Proof.
  induction l as [|a l IH]; cbn [List.filter].
  - split; [intros _ x Hx; by apply elem_of_nil in Hx|done].
  - destruct (f a) eqn:Ha.
    + split; [discriminate|]. intros H. specialize (H a (list_elem_of_here _ _)). congruence.
    + rewrite IH. split.
      * intros H x Hx. apply elem_of_cons in Hx as [-> |Hx]; auto.
      * intros H x Hx. apply H. by apply list_elem_of_further.
Qed.

Lemma forall_three {A : Type} (P : A → Prop) (a b c : A) :
  (∀ x, x ∈ [a; b; c] → P x) ↔ P a ∧ P b ∧ P c.
Proof.
  split.
  - intros H. repeat split; apply H; set_solver.
  - intros (Ha & Hb & Hc) x Hx.
    repeat (apply elem_of_cons in Hx as [-> |Hx]; [done|]). by apply elem_of_nil in Hx.
Qed.

Lemma exists_three {A : Type} (P : A → Prop) (a b c : A) :
  (∃ x, x ∈ [a; b; c] ∧ P x) ↔ P a ∨ P b ∨ P c.
Proof.
  split.
  - intros (x & Hx & HP).
    repeat (apply elem_of_cons in Hx as [-> |Hx]; [tauto|]). by apply elem_of_nil in Hx.
  - intros [H|[H|H]]; eexists; (split; [|exact H]); set_solver.
Qed.

Lemma check_facts (g1_cfg : list (string * json)) (name : string) (flag : bool) (r : run) :
  get_default (required_map g1_cfg) name true = flag →
  let c := _run_python name (cmd r) (proc r) in
  failing g1_cfg c = flag && negb (returned_zero (proc r))
  ∧ (failing g1_cfg c = false ↔ (flag = true → proc r = Returned 0))
  ∧ (failing g1_cfg c = true ∧ c_status c = "tool_error"
     ↔ flag = true ∧ proc r ≠ Returned 0 ∧ proc r ≠ Returned 2).
Proof.
  intros Hflag. cbv zeta.
  destruct (run_python_status name (cmd r) (proc r)) as (Hname & Hp & Ht).
  assert (Hfail : failing g1_cfg (_run_python name (cmd r) (proc r))
                  = flag && negb (returned_zero (proc r))).
  { unfold failing. rewrite Hname, Hflag. f_equal. f_equal. apply eq_true_iff_eq.
    rewrite String.eqb_eq, returned_zero_true. exact Hp. }
  split; [exact Hfail|]. rewrite Hfail, Ht.
  pose proof (returned_zero_true (proc r)) as Hz.
  clear Hflag Hname Hp Ht Hfail.
  destruct flag, (returned_zero (proc r)); cbn [andb negb].
  - assert (Hr : proc r = Returned 0) by (by apply Hz). split.
    + split; [intros _ _; exact Hr|reflexivity].
    + split; [by intros [[=] _]|]. intros (_ & Hne & _). by destruct Hne.
  - assert (Hr : proc r ≠ Returned 0) by (intros H; apply Hz in H; discriminate H). split.
    + split; [discriminate|]. intros H. destruct Hr. by apply H.
    + reflexivity.
  - split; [|reflexivity]. split; [intros _ H; discriminate H|reflexivity].
  - split; [|reflexivity]. split; [intros _ H; discriminate H|reflexivity].
Qed.

(** X26. G1 passes iff every required check exited with 0; it is a tool
    error iff some required check timed out, raised, or exited with a code
    other than 0 and 2, whatever the order of the checks; otherwise it is
    a policy failure.  It passes iff it has no reason code, iff it has no
    blocking issue, and it has one blocking issue for each required check
    that did not pass. *)
Theorem gate_g1_classification (profile : list (string * json))
    (env_run freeze_run sync_run : run) :
  let g1_cfg := default [] (as_dict (get "g1" profile)) in
  let out := _gate_g1 profile env_run freeze_run sync_run in
  let runs :=
    [ (flag_default_true "require_env_lock_passed" g1_cfg, env_run);
      (flag_default_true "require_freeze_manifest_passed" g1_cfg, freeze_run);
      (flag_default_true "require_post_pull_sync_passed" g1_cfg, sync_run) ] in
  (RunnerGuard.o_status out = "pass"
   ↔ ∀ required r, (required, r) ∈ runs → required = true → proc r = Returned 0)
  ∧ (RunnerGuard.o_status out = "tool_error"
     ↔ ∃ r, (true, r) ∈ runs ∧ proc r ≠ Returned 0 ∧ proc r ≠ Returned 2)
  ∧ RunnerGuard.o_status out ∈ ["pass"; "policy_fail"; "tool_error"]
  ∧ (RunnerGuard.o_status out = "pass" ↔ RunnerGuard.o_reasonCodes out = [])
  ∧ (RunnerGuard.o_status out = "pass" ↔ RunnerGuard.o_blockingIssues out = [])
  ∧ length (RunnerGuard.o_blockingIssues out)
    = length (List.filter (λ x, x.1 && negb (returned_zero (proc x.2))) runs).
Proof.
  cbv zeta. unfold _gate_g1, run_checks.
  set (g1_cfg := default [] (as_dict (get "g1" profile))).
  set (init := {| status := "pass"; reasons := []; issues := [] |}).
  destruct (fold_check_step g1_cfg (g1_checks env_run freeze_run sync_run) init)
    as (Hpass & Htool & Hin & Hreasons & Hissues). cbv zeta in *.
  cbn [RunnerGuard.o_status RunnerGuard.o_reasonCodes RunnerGuard.o_blockingIssues].
  set (st' := fold_left (check_step g1_cfg) (g1_checks env_run freeze_run sync_run) init)
    in *.
  cbn [status reasons issues init app] in Hpass, Htool, Hin, Hreasons, Hissues.
  destruct (check_facts g1_cfg "verify_environment_lock" _ env_run eq_refl)
    as (He & He0 & He1).
  destruct (check_facts g1_cfg "verify_freeze_manifest" _ freeze_run eq_refl)
    as (Hf & Hf0 & Hf1).
  destruct (check_facts g1_cfg "post_pull_sync" _ sync_run eq_refl)
    as (Hs & Hs0 & Hs1).
  cbn [required_map get_default String.eqb Ascii.eqb Bool.eqb] in He, He0, He1,
    Hf, Hf0, Hf1, Hs, Hs0, Hs1.
  unfold g1_checks in Hpass, Htool, Hreasons, Hissues.
  rewrite forall_three in Hpass. rewrite exists_three in Htool.
  rewrite He0, Hf0, Hs0 in Hpass. rewrite He1, Hf1, Hs1 in Htool.
  assert (Hclean : status st' = "pass"
                   ↔ List.filter (failing g1_cfg)
                       [ _run_python "verify_environment_lock" (cmd env_run) (proc env_run);
                         _run_python "verify_freeze_manifest" (cmd freeze_run)
                           (proc freeze_run);
                         _run_python "post_pull_sync" (cmd sync_run) (proc sync_run) ]
                     = []).
  { rewrite filter_nil_iff, forall_three, He0, Hf0, Hs0, Hpass. tauto. }
  split; [|split; [|split; [|split; [|split]]]].
  - rewrite Hpass. split.
    + intros (_ & H1 & H2 & H3) required r Hin' Hreq.
      apply elem_of_cons in Hin' as [Heq|Hin'].
      { injection Heq as Hflag Hrun. subst r. apply H1. congruence. }
      apply elem_of_cons in Hin' as [Heq|Hin'].
      { injection Heq as Hflag Hrun. subst r. apply H2. congruence. }
      apply elem_of_cons in Hin' as [Heq|Hin'].
      { injection Heq as Hflag Hrun. subst r. apply H3. congruence. }
      by apply elem_of_nil in Hin'.
    + intros H. split; [done|]. split; [|split]; intros Hflag.
      * exact (H _ env_run ltac:(apply list_elem_of_here) Hflag).
      * exact (H _ freeze_run ltac:(apply list_elem_of_further, list_elem_of_here) Hflag).
      * exact (H _ sync_run
                 ltac:(apply list_elem_of_further, list_elem_of_further, list_elem_of_here)
                 Hflag).
  - rewrite Htool. split.
    + intros [Habs|[(Hflag & Hr)|[(Hflag & Hr)|(Hflag & Hr)]]]; [discriminate Habs| | |].
      * exists env_run. split; [|exact Hr]. rewrite Hflag. apply list_elem_of_here.
      * exists freeze_run. split; [|exact Hr]. rewrite Hflag.
        apply list_elem_of_further, list_elem_of_here.
      * exists sync_run. split; [|exact Hr]. rewrite Hflag.
        apply list_elem_of_further, list_elem_of_further, list_elem_of_here.
    + intros (r & Hin' & Hr). right.
      apply elem_of_cons in Hin' as [Heq|Hin'].
      { injection Heq as Hflag Hrun. subst r. left. split; [by symmetry|exact Hr]. }
      apply elem_of_cons in Hin' as [Heq|Hin'].
      { injection Heq as Hflag Hrun. subst r. right. left.
        split; [by symmetry|exact Hr]. }
      apply elem_of_cons in Hin' as [Heq|Hin'].
      { injection Heq as Hflag Hrun. subst r. right. right.
        split; [by symmetry|exact Hr]. }
      by apply elem_of_nil in Hin'.
  - apply Hin. set_solver.
  - rewrite _dedup_nil_iff, Hreasons, Hclean. split; [by intros ->|].
    intros H. by apply map_eq_nil in H.
  - rewrite Hissues, Hclean. split; [by intros ->|].
    intros H. by apply map_eq_nil in H.
  - rewrite Hissues, length_map. cbn [List.filter fst snd]. rewrite He, Hf, Hs.
    destruct (_ && _), (_ && _), (_ && _); reflexivity.
Qed.

End G1Facts.
